(** * UV correspondence and transfer: the Maya 2022 UV tools

    A shallow embedding of the three UV scripts of the repository

      - [Maya2022/UV_Copy_Paste_Tool.py]  (class [UVShellCopyPasteTool])
      - [Maya2022/UV_Transfer_Tool.py]    (class [UVTransferTool])
      - [Maya2022/Maya_UV_Snap.py]        (function [snap_uv_to_nearest])

    together with the properties their specification states about them.

    Conventions of the embedding.
      - A Python [int] is a [Z]; a Python [float] is an IEEE binary64 number,
        Rocq's primitive [float].  Its [+], [-], [<] and [<=] are the IEEE
        operations and [math.sqrt] is the IEEE square root; [x ** 2] is not
        the IEEE product: CPython hands it to the [pow] of the C library,
        which need not return the correctly rounded square and which fails on
        overflow, so the operation is a parameter of the snap
        ([float_pow2]).
      - A UV component name ["obj.map[i]"] is the pair [(obj, i)]: the source
        only ever takes such a name apart with [split('.')[0]] and
        [int(split('[')[-1].split(']')[0])], the two projections.
      - A dict that is iterated ([uv_data]) is an insertion-ordered association
        list; a dict that is only looked up ([uv_to_vertex], [relative_coords],
        [id_map]) is a [gmap]; a Python [set] is a [gset].
      - The host application ([maya.cmds], [maya.mel]) is a [Scene] record of
        query answers; a command that the scripts guard with [try]/[except]
        answers [None] when it raises.
      - [print], [cmds.warning] and the status line are an event log. *)

From Stdlib Require Import ZArith List Ascii String Floats Uint63 Permutation.
From stdpp Require Import gmap strings list sorting.

Set Default Proof Using "Type".

(** ** Python semantics used by the scripts *)

Module Py.

(** [sorted(xs, key=k)]: ascending in the key, and stable: elements with equal
    keys keep the order they have in [xs].  The stable arrangement is unique,
    so insertion from the right computes what Python's sort returns. *)
Fixpoint insert_by_key {A} (key : A → Z) (x : A) (l : list A) : list A :=
  match l with
  | [] => [x]
  | y :: l' =>
      if (key y <? key x)%Z then y :: insert_by_key key x l' else x :: y :: l'
  end.

Definition sorted {A} (key : A → Z) (l : list A) : list A :=
  foldr (insert_by_key key) [] l.

(** Insertion-ordered dicts with integer keys: [d[k] = v], [d.get(k)],
    [d.keys()], [d.values()], [d.items()] and [len(d)]. *)
Definition odict (V : Type) : Type := list (Z * V).

Fixpoint od_set {V} (k : Z) (v : V) (d : odict V) : odict V :=
  match d with
  | [] => [(k, v)]
  | (k', v') :: d' =>
      if decide (k = k') then (k, v) :: d' else (k', v') :: od_set k v d'
  end.

Fixpoint od_get {V} (k : Z) (d : odict V) : option V :=
  match d with
  | [] => None
  | (k', v') :: d' => if decide (k = k') then Some v' else od_get k d'
  end.

Definition od_keys {V} (d : odict V) : list Z := d.*1.
Definition od_values {V} (d : odict V) : list V := d.*2.

(** Exceptions that escape a script (nothing in the call chain catches them). *)
Inductive exn :=
  | RuntimeError        (* a host command raised *)
  | ZeroDivisionError   (* [x / 0] *)
  | UnpackError         (* [u, v = r] with [r] not a pair *)
  | KeyError            (* [d[k]] with [k] missing *)
  | OverflowError       (* [x ** y] out of range *)
  | ValueError.         (* [math.sqrt(x)] with [x] negative *)

Inductive result (A : Type) :=
  | Ok (a : A)
  | Raise (e : exn).
Arguments Ok {A} a.
Arguments Raise {A} e.

#[export] Instance result_ret : MRet result := fun A a => Ok a.
#[export] Instance result_bind : MBind result := fun A B f r =>
  match r with
  | Ok a => f a
  | Raise e => Raise e
  end.

(** [float(n)] for a length [n]. *)
Definition float_of_nat (n : nat) : float :=
  PrimFloat.of_uint63 (Uint63.of_Z (Z.of_nat n)).

(** [sum(xs)]: a left fold of [+] that starts from the integer [0]. *)
Definition sum (xs : list float) : float :=
  foldl PrimFloat.add PrimFloat.zero xs.

(** [s / n] for a float (or the integer 0) [s] and a length [n]. *)
Definition div_len (s : float) (n : nat) : result float :=
  match n with
  | O => Raise ZeroDivisionError
  | S _ => Ok (PrimFloat.div s (float_of_nat n))
  end.

(** [math.sqrt(x)]: the IEEE square root, and [ValueError] ("math domain
    error") when the root of a number is not a number. *)
Definition math_sqrt (x : float) : result float :=
  let r := PrimFloat.sqrt x in
  if PrimFloat.is_nan r && negb (PrimFloat.is_nan x) then Raise ValueError
  else Ok r.

(** [range(n)] *)
Definition range (n : Z) : list Z := seqZ 0 n.

(** [s.split('|')[-1]]: the part of [s] after its last ['|']. *)
Fixpoint last_segment_from (acc : string) (s : string) : string :=
  match s with
  | EmptyString => String.rev acc
  | String c s' =>
      if Ascii.eqb c "|"%char then last_segment_from EmptyString s'
      else last_segment_from (String c acc) s'
  end.

Definition short_name (s : string) : string := last_segment_from EmptyString s.

End Py.

Import Py.

(** ** The host application *)

(** A UV component of a mesh, ["obj.map[i]"]. *)
Abbreviation UVComp := (string * Z)%type.

(** An entry of the selection list: a UV component, or anything else
    (an object, a vertex, a face, ...), which [filterExpand(sm=35)] drops. *)
Inductive component :=
  | UV (uv : UVComp)
  | NonUV (name : string).

(** The state of the scene, as the scripts observe it. *)
Record Scene := {
  (** [cmds.polyEditUV(uv, query=True)]: [Some] of the list it returns (an
      empty list when it returns Python's [None]), or [None] when the command
      raises. *)
  polyEditUV_query : UVComp → option (list float);
  (** whether [cmds.polyEditUV(uv, u=.., v=.., relative=False)] raises. *)
  polyEditUV_locked : UVComp → bool;
  (** [cmds.select(uv); mel.eval('polySelectBorderShell 0')] followed by
      [cmds.ls(selection=True, flatten=True)]: the UV points of the shell of
      [uv], in the order the host lists them (the shell tool passes the
      listing through [cmds.filterExpand(.., selectionMask=35)], which keeps
      them). *)
  polySelectBorderShell : UVComp → list UVComp;
  (** [cmds.ls(cmds.polyListComponentConversion(uv, fromUV=True,
      toVertex=True), flatten=True)] as vertex indices, or [None] when the
      conversion raises. *)
  polyListComponentConversion : UVComp → option (list Z);
  (** [cmds.nodeType(obj) == 'mesh'] *)
  nodeType_is_mesh : string → bool;
  (** [cmds.listRelatives(obj, shapes=True, type='mesh', fullPath=True)] *)
  listRelatives_shapes : string → list string;
  (** [cmds.polyEvaluate(mesh, ..)] for [vertex], [face] and [uvcoord]. *)
  polyEvaluate_vertex : string → Z;
  polyEvaluate_face : string → Z;
  polyEvaluate_uvcoord : string → Z
}.

(** [cmds.polyEditUV(uv, u=u, v=v, relative=False)]: [None] when it raises,
    the scene with the coordinate of [uv] replaced otherwise. *)
Definition polyEditUV_set (sc : Scene) (uv : UVComp) (u v : float) : option Scene :=
  if polyEditUV_locked sc uv then None
  else Some {|
    polyEditUV_query := fun x =>
      if decide (x = uv) then Some [u; v] else polyEditUV_query sc x;
    polyEditUV_locked := polyEditUV_locked sc;
    polySelectBorderShell := polySelectBorderShell sc;
    polyListComponentConversion := polyListComponentConversion sc;
    nodeType_is_mesh := nodeType_is_mesh sc;
    listRelatives_shapes := listRelatives_shapes sc;
    polyEvaluate_vertex := polyEvaluate_vertex sc;
    polyEvaluate_face := polyEvaluate_face sc;
    polyEvaluate_uvcoord := polyEvaluate_uvcoord sc
  |}.

(** [cmds.filterExpand(items, selectionMask=35)]: the UV components. *)
Definition filterExpand_uv (items : list component) : list UVComp :=
  omap (fun c => match c with UV uv => Some uv | NonUV _ => None end) items.

(** The vertex a UV point is anchored to: the first vertex of the conversion,
    and the UV index itself when the conversion yields nothing or raises.
    Both tools compute their [uv_to_vertex] entries this way. *)
Definition anchor (sc : Scene) (uv : UVComp) : Z :=
  match polyListComponentConversion sc uv with
  | Some (vertex_id :: _) => vertex_id
  | Some [] => uv.2
  | None => uv.2
  end.

(** The sort key of both tools: [lambda x: uv_to_vertex.get(x, x)]. *)
Definition anchor_key (uv_to_vertex : gmap Z Z) (x : Z) : Z :=
  default x (uv_to_vertex !! x).

(** The metric a topology check compares. *)
Inductive metric := VertexCount | FaceCount | UVCount.

(** Why a target of a batch was not pasted: the text of its [failed_list]
    entry.  [Mismatch m t s] stands for the entries
    ["顶点数不匹配: t vs s"], ["面数不匹配: t vs s"] and ["UV点数不匹配: t vs s"],
    the target's value first and the source's second. *)
Inductive reason :=
  | NoData                     (* "无法获取数据" *)
  | NotAMesh                   (* "不是网格对象" *)
  | Mismatch (m : metric) (target_value source_value : Z).

(** ** [UV_Copy_Paste_Tool.py]: copy and paste of UV shells *)

Module UVShellCopyPasteTool.

(** The dict [get_uv_shell_data] returns; [copy_uv_shell] adds the keys
    ['center'] and ['relative_coords'] to it afterwards. *)
Record shell_data := {
  object : string;
  uv_count : Z;
  uv_ids : list Z;
  uv_data : odict (float * float);
  id_map : gmap Z nat;
  sorted_ids : list Z;
  uv_to_vertex : gmap Z Z;
  center : option (float * float);
  relative_coords : option (gmap Z (float * float))
}.

(** The loop of [get_selected_uv_shells] (lines 47-68). *)
Fixpoint collect_shells (sc : Scene) (uv_components : list UVComp)
    (processed_uvs : gset UVComp) (all_uv_shells : list UVComp) : list UVComp :=
  match uv_components with
  | [] => all_uv_shells
  | uv_comp :: rest =>
      if decide (uv_comp ∈ processed_uvs)
      then collect_shells sc rest processed_uvs all_uv_shells
      else
        match polySelectBorderShell sc uv_comp with
        | [] => collect_shells sc rest processed_uvs all_uv_shells
        | first :: others =>
            collect_shells sc rest
              (processed_uvs ∪ list_to_set (first :: others))
              (all_uv_shells ++ [first])
        end
  end.

(** [get_selected_uv_shells]: one representative UV per selected shell, or
    [None]. *)
Definition get_selected_uv_shells (sc : Scene) (selection : list component)
    : option (list UVComp) :=
  match selection with
  | [] => None
  | _ =>
      match filterExpand_uv selection with
      | [] => None
      | uv_components =>
          match collect_shells sc uv_components ∅ [] with
          | [] => None
          | all_uv_shells => Some all_uv_shells
          end
      end
  end.

(** [get_uv_to_vertex_mapping] *)
Definition get_uv_to_vertex_mapping (sc : Scene) (uv_components : list UVComp)
    : gmap Z Z :=
  foldl (fun m uv => <[uv.2 := anchor sc uv]> m) ∅ uv_components.

(** The coordinate loop of [get_uv_shell_data] (lines 138-149).  The query is
    not guarded: when it raises, so does [get_uv_shell_data]. *)
Fixpoint read_coords (sc : Scene) (uv_components : list UVComp)
    (uv_ids : list Z) (uv_data : odict (float * float))
    : result (list Z * odict (float * float)) :=
  match uv_components with
  | [] => Ok (uv_ids, uv_data)
  | uv :: rest =>
      let uv_id := uv.2 in
      match polyEditUV_query sc uv with
      | None => Raise RuntimeError
      | Some (u :: v :: _) =>
          read_coords sc rest (uv_ids ++ [uv_id]) (od_set uv_id (u, v) uv_data)
      | Some _ => read_coords sc rest (uv_ids ++ [uv_id]) uv_data
      end
  end.

(** [{orig_id: idx for idx, orig_id in enumerate(sorted_ids)}] *)
Definition enumerate_map (sorted_ids : list Z) : gmap Z nat :=
  foldl (fun m p => <[p.2 := p.1]> m) ∅ (imap (fun idx orig_id => (idx, orig_id)) sorted_ids).

(** [get_uv_shell_data] *)
Definition get_uv_shell_data (sc : Scene) (uv_component : UVComp)
    : result (option shell_data) :=
  match polySelectBorderShell sc uv_component with
  | [] => Ok None
  | uv_components =>
      let obj_name := uv_component.1 in
      '(ids, data) ← read_coords sc uv_components [] [];
      let mapping := get_uv_to_vertex_mapping sc uv_components in
      let sorted_ids := sorted (anchor_key mapping) ids in
      Ok (Some {|
        object := obj_name;
        uv_count := Z.of_nat (length ids);
        uv_ids := ids;
        uv_data := data;
        id_map := enumerate_map sorted_ids;
        sorted_ids := sorted_ids;
        uv_to_vertex := mapping;
        center := None;
        relative_coords := None
      |})
  end.

(** The centre of a coordinate table (lines 191-196 and 290-295): the mean of
    its values, in the order of the table. *)
Definition centroid (uv_positions : odict (float * float)) : result (float * float) :=
  let sum_u := sum ((od_values uv_positions).*1) in
  let sum_v := sum ((od_values uv_positions).*2) in
  let count := length uv_positions in
  center_u ← div_len sum_u count;
  center_v ← div_len sum_v count;
  Ok (center_u, center_v).

(** The offsets from the centre (lines 200-206). *)
Definition relative_to (c : float * float) (uv_positions : odict (float * float))
    : gmap Z (float * float) :=
  foldl (fun m item =>
           <[item.1 := (PrimFloat.sub item.2.1 c.1, PrimFloat.sub item.2.2 c.2)]> m)
        ∅ uv_positions.

Inductive copy_outcome :=
  | Copied                  (* returns [True] *)
  | WarnNothingSelected     (* warning "请在UV编辑器中选择UV！", returns [False] *)
  | WarnNoData.             (* warning "获取UV数据失败！", returns [False] *)

(** [copy_uv_shell]: the new value of [self.uv_data], and what the call did.
    [self.uv_data] is assigned as soon as the shell has been read, before the
    centre is computed. *)
Definition copy_uv_shell (sc : Scene) (clipboard : option shell_data)
    (selection : list component) : option shell_data * result copy_outcome :=
  match get_selected_uv_shells sc selection with
  | None | Some [] => (clipboard, Ok WarnNothingSelected)
  | Some (uv_shell :: _) =>
      match get_uv_shell_data sc uv_shell with
      | Raise e => (clipboard, Raise e)
      | Ok None => (None, Ok WarnNoData)
      | Ok (Some d) =>
          match centroid (uv_data d) with
          | Raise e => (Some d, Raise e)
          | Ok c =>
              (Some {|
                 object := object d;
                 uv_count := uv_count d;
                 uv_ids := uv_ids d;
                 uv_data := uv_data d;
                 id_map := id_map d;
                 sorted_ids := sorted_ids d;
                 uv_to_vertex := uv_to_vertex d;
                 center := Some c;
                 relative_coords := Some (relative_to c (uv_data d))
               |}, Ok Copied)
          end
      end
  end.

(** The count check of [paste_uv_shell] (lines 273-286): [None] when the
    target passes. *)
Definition check_uv_count (match_topology : bool) (target_uv_count source_uv_count : Z)
    : option reason :=
  if match_topology && negb (target_uv_count =? source_uv_count)%Z
  then Some (Mismatch UVCount target_uv_count source_uv_count)
  else None.

(** What one target's write loop leaves behind: the scene, [apply_count], and
    the UV points of the printed ["设置UV失败"] lines. *)
Record applied := {
  scene_after : Scene;
  apply_count : nat;
  write_failures : list UVComp
}.

(** The write loop of [paste_uv_shell] (lines 306-327): the i-th target id is
    paired with the i-th source id, up to the shorter of the two lists. *)
Fixpoint apply_coords (source : shell_data) (obj_name : string)
    (target_center : float * float) (target_sorted_ids source_sorted_ids : list Z)
    (st : applied) : result applied :=
  match target_sorted_ids, source_sorted_ids with
  | target_uv_id :: targets, source_uv_id :: sources =>
      match relative_coords source with
      | None => Raise KeyError
      | Some rel =>
          match rel !! source_uv_id with
          | None =>
              apply_coords source obj_name target_center targets sources st
          | Some rel_coords =>
              let new_u := PrimFloat.add target_center.1 rel_coords.1 in
              let new_v := PrimFloat.add target_center.2 rel_coords.2 in
              let uv_point := (obj_name, target_uv_id) in
              match polyEditUV_set (scene_after st) uv_point new_u new_v with
              | Some sc' =>
                  apply_coords source obj_name target_center targets sources
                    {| scene_after := sc';
                       apply_count := S (apply_count st);
                       write_failures := write_failures st |}
              | None =>
                  apply_coords source obj_name target_center targets sources
                    {| scene_after := scene_after st;
                       apply_count := apply_count st;
                       write_failures := write_failures st ++ [uv_point] |}
              end
          end
      end
  | _, _ => Ok st
  end.

(** An entry of [failed_list]: ["UV壳#idx - ..."], with the target's object
    name when the entry has it. *)
Record failure := {
  failed_index : nat;
  failed_object : option string;
  failed_reason : reason
}.

(** The running state of a paste: the scene, [success_count], [failed_list],
    and per pasted shell its number and what its write loop printed. *)
Record batch := {
  scene : Scene;
  success_count : nat;
  failed_list : list failure;
  pasted : list (nat * nat * list UVComp)
}.

(** One iteration of the batch loop of [paste_uv_shell] (lines 262-330). *)
Definition paste_one (source : shell_data) (match_topology : bool)
    (idx : nat) (uv_shell : UVComp) (b : batch) : result batch :=
  target_data ← get_uv_shell_data (scene b) uv_shell;
  match target_data with
  | None =>
      Ok {| scene := scene b;
            success_count := success_count b;
            failed_list := failed_list b ++ [{| failed_index := idx;
                                                failed_object := None;
                                                failed_reason := NoData |}];
            pasted := pasted b |}
  | Some target_data =>
      match check_uv_count match_topology (uv_count target_data) (uv_count source) with
      | Some why =>
          Ok {| scene := scene b;
                success_count := success_count b;
                failed_list := failed_list b ++ [{| failed_index := idx;
                                                    failed_object := Some (object target_data);
                                                    failed_reason := why |}];
                pasted := pasted b |}
      | None =>
          target_center ← centroid (uv_data target_data);
          a ← apply_coords source (object target_data) target_center
                 (sorted_ids target_data) (sorted_ids source)
                 {| scene_after := scene b; apply_count := 0; write_failures := [] |};
          Ok {| scene := scene_after a;
                success_count := S (success_count b);
                failed_list := failed_list b;
                pasted := pasted b ++ [(idx, apply_count a, write_failures a)] |}
      end
  end.

(** [for idx, uv_shell in enumerate(uv_shells, 1)] *)
Fixpoint paste_loop (source : shell_data) (match_topology : bool)
    (idx : nat) (uv_shells : list UVComp) (b : batch) : result batch :=
  match uv_shells with
  | [] => Ok b
  | uv_shell :: rest =>
      b' ← paste_one source match_topology idx uv_shell b;
      paste_loop source match_topology (S idx) rest b'
  end.

Inductive paste_outcome :=
  | WarnNoClipboard         (* warning "请先复制UV壳！", returns [False] *)
  | WarnNoTarget            (* warning "请在UV编辑器中选择目标UV！", returns [False] *)
  | Pasted (total_shells : nat) (b : batch).
      (* returns [True] when [success_count > 0] and [False] otherwise *)

(** [paste_uv_shell] *)
Definition paste_uv_shell (sc : Scene) (clipboard : option shell_data)
    (selection : list component) (match_topology : bool) : result paste_outcome :=
  match clipboard with
  | None => Ok WarnNoClipboard
  | Some source =>
      match get_selected_uv_shells sc selection with
      | None | Some [] => Ok WarnNoTarget
      | Some uv_shells =>
          b ← paste_loop source match_topology 1 uv_shells
                 {| scene := sc; success_count := 0; failed_list := []; pasted := [] |};
          Ok (Pasted (length uv_shells) b)
      end
  end.

End UVShellCopyPasteTool.

(** ** [UV_Transfer_Tool.py]: transfer of UVs between whole meshes *)

Module UVTransferTool.

(** The dict [get_mesh_uv_data] returns. *)
Record mesh_data := {
  mesh : string;
  vertex_count : Z;
  face_count : Z;
  uv_count : Z;
  uv_data : odict (float * float);
  uv_to_vertex : gmap Z Z;
  sorted_uv_ids : list Z
}.

(** What the script reads of the selection: [cmds.ls(selection=True,
    type='transform', long=True)] and [cmds.ls(selection=True, type='mesh',
    long=True)]. *)
Record selection := {
  transforms : list string;
  meshes : list string
}.

(** [get_mesh_from_selection] *)
Definition get_mesh_from_selection (sc : Scene) (sel : selection) : option string :=
  match transforms sel with
  | [] => head (meshes sel)
  | first :: _ => head (listRelatives_shapes sc first)
  end.

(** [get_uv_to_vertex_mapping] *)
Definition get_uv_to_vertex_mapping (sc : Scene) (mesh : string) : gmap Z Z :=
  let uv_count := polyEvaluate_uvcoord sc mesh in
  foldl (fun m uv_id => <[uv_id := anchor sc (mesh, uv_id)]> m) ∅ (range uv_count).

(** The coordinate loop of [get_mesh_uv_data] (lines 105-119): a query that
    raises records [(0.0, 0.0)], one that returns fewer than two numbers
    records nothing. *)
Definition read_coord (sc : Scene) (mesh : string)
    (uv_data : odict (float * float)) (uv_id : Z) : odict (float * float) :=
  match polyEditUV_query sc (mesh, uv_id) with
  | Some (u :: v :: _) => od_set uv_id (u, v) uv_data
  | Some _ => uv_data
  | None => od_set uv_id (PrimFloat.zero, PrimFloat.zero) uv_data
  end.

(** [get_mesh_uv_data] *)
Definition get_mesh_uv_data (sc : Scene) (mesh : string) : mesh_data :=
  let vertex_count := polyEvaluate_vertex sc mesh in
  let face_count := polyEvaluate_face sc mesh in
  let uv_count := polyEvaluate_uvcoord sc mesh in
  let uv_data := foldl (read_coord sc mesh) [] (range uv_count) in
  let uv_to_vertex := get_uv_to_vertex_mapping sc mesh in
  let sorted_uv_ids := sorted (anchor_key uv_to_vertex) (od_keys uv_data) in
  {| mesh := mesh;
     vertex_count := vertex_count;
     face_count := face_count;
     uv_count := uv_count;
     uv_data := uv_data;
     uv_to_vertex := uv_to_vertex;
     sorted_uv_ids := sorted_uv_ids |}.

(** [copy_uv_from_mesh]: the new value of [self.uv_data] and the returned
    boolean. *)
Definition copy_uv_from_mesh (sc : Scene) (clipboard : option mesh_data)
    (sel : selection) : option mesh_data * bool :=
  match get_mesh_from_selection sc sel with
  | None => (clipboard, false)
  | Some mesh => (Some (get_mesh_uv_data sc mesh), true)
  end.

(** The topology check of [paste_uv_to_mesh] (lines 243-265): [None] when the
    target passes. *)
Definition check_topology (source : mesh_data)
    (target_vertex_count target_face_count target_uv_count : Z) : option reason :=
  if negb (target_vertex_count =? vertex_count source)%Z
  then Some (Mismatch VertexCount target_vertex_count (vertex_count source))
  else if negb (target_face_count =? face_count source)%Z
  then Some (Mismatch FaceCount target_face_count (face_count source))
  else if negb (target_uv_count =? uv_count source)%Z
  then Some (Mismatch UVCount target_uv_count (uv_count source))
  else None.

(** What one target's write loop leaves behind: the scene, [apply_count] and
    [error_count]. *)
Record applied := {
  scene_after : Scene;
  apply_count : nat;
  error_count : nat
}.

(** The write loop of [paste_uv_to_mesh] (lines 278-300): the i-th target id
    is paired with the i-th source id, up to the shorter of the two lists. *)
Fixpoint apply_coords (source : mesh_data) (target_mesh : string)
    (target_sorted_uv_ids source_sorted_uv_ids : list Z) (st : applied) : applied :=
  match target_sorted_uv_ids, source_sorted_uv_ids with
  | target_uv_id :: targets, source_uv_id :: sources =>
      match od_get source_uv_id (uv_data source) with
      | None => apply_coords source target_mesh targets sources st
      | Some uv_coords =>
          let uv_component := (target_mesh, target_uv_id) in
          match polyEditUV_set (scene_after st) uv_component uv_coords.1 uv_coords.2 with
          | Some sc' =>
              apply_coords source target_mesh targets sources
                {| scene_after := sc';
                   apply_count := S (apply_count st);
                   error_count := error_count st |}
          | None =>
              apply_coords source target_mesh targets sources
                {| scene_after := scene_after st;
                   apply_count := apply_count st;
                   error_count := S (error_count st) |}
          end
      end
  | _, _ => st
  end.

(** An entry of [failed_list]: ["short_name - ..."]. *)
Record failure := {
  failed_name : string;
  failed_reason : reason
}.

(** The running state of a paste: the scene, [success_count], [failed_list],
    and per pasted mesh its short name, [apply_count] and [error_count]. *)
Record batch := {
  scene : Scene;
  success_count : nat;
  failed_list : list failure;
  pasted : list (string * nat * nat)
}.

Definition fail (b : batch) (obj_short_name : string) (why : reason) : batch :=
  {| scene := scene b;
     success_count := success_count b;
     failed_list := failed_list b ++ [{| failed_name := obj_short_name;
                                         failed_reason := why |}];
     pasted := pasted b |}.

(** Lines 220-228: the mesh node of a selected object. *)
Definition target_mesh_of (sc : Scene) (obj : string) : option string :=
  if nodeType_is_mesh sc obj then Some obj
  else head (listRelatives_shapes sc obj).

(** One iteration of the batch loop of [paste_uv_to_mesh] (lines 213-305). *)
Definition paste_one (source : mesh_data) (obj : string) (b : batch) : batch :=
  let obj_short_name := short_name obj in
  match target_mesh_of (scene b) obj with
  | None => fail b obj_short_name NotAMesh
  | Some target_mesh =>
      let target_vertex_count := polyEvaluate_vertex (scene b) target_mesh in
      let target_face_count := polyEvaluate_face (scene b) target_mesh in
      let target_uv_count := polyEvaluate_uvcoord (scene b) target_mesh in
      match check_topology source target_vertex_count target_face_count target_uv_count with
      | Some why => fail b obj_short_name why
      | None =>
          let target_uv_to_vertex := get_uv_to_vertex_mapping (scene b) target_mesh in
          let target_sorted_uv_ids :=
            sorted (anchor_key target_uv_to_vertex) (range target_uv_count) in
          let a := apply_coords source target_mesh
                     target_sorted_uv_ids (sorted_uv_ids source)
                     {| scene_after := scene b; apply_count := 0; error_count := 0 |} in
          {| scene := scene_after a;
             success_count := S (success_count b);
             failed_list := failed_list b;
             pasted := pasted b ++ [(obj_short_name, apply_count a, error_count a)] |}
      end
  end.

Inductive paste_outcome :=
  | WarnNoClipboard         (* warning "请先复制UV数据！", returns [False] *)
  | WarnNoTarget            (* warning "请选择要粘贴UV的模型！", returns [False] *)
  | Pasted (total_count : nat) (b : batch).
      (* returns [True] when [success_count > 0] and [False] otherwise *)

(** [paste_uv_to_mesh] *)
Definition paste_uv_to_mesh (sc : Scene) (clipboard : option mesh_data)
    (sel : selection) : paste_outcome :=
  match clipboard with
  | None => WarnNoClipboard
  | Some source =>
      let selection := match transforms sel with [] => meshes sel | ts => ts end in
      match selection with
      | [] => WarnNoTarget
      | _ =>
          Pasted (length selection)
            (foldl (fun b obj => paste_one source obj b)
                   {| scene := sc; success_count := 0; failed_list := []; pasted := [] |}
                   selection)
      end
  end.

End UVTransferTool.

(** ** [Maya_UV_Snap.py]: snapping UV points to the nearest point of a shell *)

Module Maya_UV_Snap.

(** What lines 27-41 make of [cmds.undoInfo(query=True, undoName=True)]. *)
Inductive undo_info :=
  | NoSelect                 (* empty, or without "select" *)
  | SelectOther              (* a selection command without "select -tgl" *)
  | SelectToggle (target_uv : option UVComp).
      (* "select -tgl ... target_uv;", [None] when [cmds.objExists] denies it *)

Inductive warning :=
  | WarnNoSelection          (* "请先选择一些UV点" *)
  | WarnTooFew               (* "需要选择至少2个UV点..." *)
  | WarnNoHistory            (* "无法确定最后选择的UV点" *)
  | WarnTargetMissing        (* "无法找到目标UV点: ..." *)
  | WarnNotToggle            (* "请最后使用select -tgl单独选择目标UV点" *)
  | WarnNoSource             (* "请先选择要移动的源UV点" *)
  | WarnNoTargetShell        (* "无法确定目标UV块" *)
  | WarnCommon (n : nat).    (* "源UV块和目标UV块有 n 个共同UV点..." *)

(** The two lines the loop prints. *)
Inductive event :=
  | Snapped (uv : UVComp) (nearest_point : float * float) (min_dist : float)
  | TooFar (uv : UVComp) (min_dist : float) (snap_threshold : float).

(** [u, v = cmds.polyEditUV(uv, q=True)] *)
Definition query_pair (sc : Scene) (uv : UVComp) : result (float * float) :=
  match polyEditUV_query sc uv with
  | None => Raise RuntimeError
  | Some [u; v] => Ok (u, v)
  | Some _ => Raise UnpackError
  end.

(** Lines 87-90: the coordinates of the target shell. *)
Fixpoint collect_points (sc : Scene) (target_uvs : list UVComp)
    : result (list (float * float)) :=
  match target_uvs with
  | [] => Ok []
  | uv :: rest =>
      p ← query_pair sc uv;
      ps ← collect_points sc rest;
      Ok (p :: ps)
  end.

Inductive outcome :=
  | Warned (w : warning)
  | Done (sc : Scene) (log : list event).

Section platform.

(** [x ** 2] for a float [x], as the platform computes it: the result of the
    C library's [pow(x, 2.0)], or the exception CPython raises when that call
    reports an error ([OverflowError] when the square is out of range). *)
Variable float_pow2 : float → result float.

(** [math.sqrt((u - target_u)**2 + (v - target_v)**2)] *)
Definition distance (u v target_u target_v : float) : result float :=
  du2 ← float_pow2 (PrimFloat.sub u target_u);
  dv2 ← float_pow2 (PrimFloat.sub v target_v);
  math_sqrt (PrimFloat.add du2 dv2).

(** Lines 104-108: the scan for the nearest target point. *)
Fixpoint scan (u v : float) (target_points : list (float * float))
    (min_dist : float) (nearest_point : option (float * float))
    : result (float * option (float * float)) :=
  match target_points with
  | [] => Ok (min_dist, nearest_point)
  | (target_u, target_v) :: rest =>
      dist ← distance u v target_u target_v;
      if PrimFloat.ltb dist min_dist
      then scan u v rest dist (Some (target_u, target_v))
      else scan u v rest min_dist nearest_point
  end.

(** The body of the loop over the source points (lines 95-116). *)
Definition snap_one (target_uvs : list UVComp) (target_points : list (float * float))
    (snap_threshold : float) (uv : UVComp) (st : Scene * list event)
    : result (Scene * list event) :=
  let '(sc, log) := st in
  if decide (uv ∈ target_uvs) then Ok st
  else
    '(u, v) ← query_pair sc uv;
    '(min_dist, nearest_point) ← scan u v target_points PrimFloat.infinity None;
    match nearest_point with
    | Some p =>
        if PrimFloat.leb min_dist snap_threshold
        then
          match polyEditUV_set sc uv p.1 p.2 with
          | Some sc' => Ok (sc', log ++ [Snapped uv p min_dist])
          | None => Raise RuntimeError
          end
        else Ok (sc, log ++ [TooFar uv min_dist snap_threshold])
    | None => Ok st
    end.

Fixpoint snap_loop (target_uvs : list UVComp) (target_points : list (float * float))
    (snap_threshold : float) (source_uvs : list UVComp) (st : Scene * list event)
    : result (Scene * list event) :=
  match source_uvs with
  | [] => Ok st
  | uv :: rest =>
      st' ← snap_one target_uvs target_points snap_threshold uv st;
      snap_loop target_uvs target_points snap_threshold rest st'
  end.

(** [snap_uv_to_nearest], for the selected UV points [selected_uvs], the name
    of the last undoable command and the global [snap_threshold]. *)
Definition snap_uv_to_nearest (sc : Scene) (selected_uvs : list UVComp)
    (selection_history : undo_info) (snap_threshold : float) : result outcome :=
  match selected_uvs with
  | [] => Ok (Warned WarnNoSelection)
  | [_] => Ok (Warned WarnTooFew)
  | _ =>
      match selection_history with
      | NoSelect => Ok (Warned WarnNoHistory)
      | SelectOther => Ok (Warned WarnNotToggle)
      | SelectToggle None => Ok (Warned WarnTargetMissing)
      | SelectToggle (Some target_uv) =>
          let source_uvs := filter (fun uv => uv ≠ target_uv) selected_uvs in
          match source_uvs with
          | [] => Ok (Warned WarnNoSource)
          | first_source :: _ =>
              let target_uvs := polySelectBorderShell sc target_uv in
              match target_uvs with
              | [] => Ok (Warned WarnNoTargetShell)
              | _ =>
                  let source_uvs_shell := polySelectBorderShell sc first_source in
                  let common_uvs : gset UVComp :=
                    list_to_set target_uvs ∩ list_to_set source_uvs_shell in
                  if decide (common_uvs = ∅)
                  then
                    target_points ← collect_points sc target_uvs;
                    '(sc', log) ← snap_loop target_uvs target_points snap_threshold
                                    source_uvs (sc, []);
                    Ok (Done sc' log)
                  else Ok (Warned (WarnCommon (size common_uvs)))
              end
          end
      end
  end.

End platform.

End Maya_UV_Snap.

(** * Specification predicates *)

(** Ascending in the key. *)
Definition key_le {A} (key : A → Z) (a b : A) : Prop := (key a ≤ key b)%Z.

(** Ties broken by the UV index: of two points of [out] with the same key, the
    one with the smaller index stands first. *)
Definition smaller_index_first (key : Z → Z) (out : list Z) : Prop :=
  ∀ (i j : nat) (a b : Z),
    out !! i = Some a → out !! j = Some b →
    key a = key b → (a < b)%Z → i < j.

(** Ascending in the key, and in the index among equal keys. *)
Definition key_index_lt (key : Z → Z) (a b : Z) : Prop :=
  (key a < key b)%Z ∨ (key a = key b ∧ (a < b)%Z).

(** The counts of a mesh, and of a shell, as a table over the metrics. *)
Definition mesh_counts (vertex_count face_count uv_count : Z) (m : metric) : Z :=
  match m with
  | VertexCount => vertex_count
  | FaceCount => face_count
  | UVCount => uv_count
  end.

Definition shell_counts (uv_count : Z) (m : metric) : Z := uv_count.

(** The first metric of [order] on which [target] and [source] differ, with
    both values; [None] when they agree on all of [order]. *)
Fixpoint first_mismatch (order : list metric) (target source : metric → Z)
    : option reason :=
  match order with
  | [] => None
  | m :: rest =>
      if decide (target m = source m) then first_mismatch rest target source
      else Some (Mismatch m (target m) (source m))
  end.

(** The elements of [l] in the order of their first occurrence, leaving out
    those already in [seen]. *)
Fixpoint first_occurrences {A} `{EqDecision A} (seen l : list A) : list A :=
  match l with
  | [] => []
  | x :: l' =>
      if decide (x ∈ seen) then first_occurrences seen l'
      else x :: first_occurrences (x :: seen) l'
  end.

(** The host's shells are the classes of an equivalence: every UV point lies
    in its own shell, and the points of a shell all have that shell. *)
Definition shells_partition (sc : Scene) : Prop :=
  (∀ uv, uv ∈ polySelectBorderShell sc uv)
  ∧ (∀ uv uv', uv' ∈ polySelectBorderShell sc uv →
               polySelectBorderShell sc uv' = polySelectBorderShell sc uv).

(** The UV point a printed line of the snap loop is about. *)
Definition event_uv (e : Maya_UV_Snap.event) : UVComp :=
  match e with
  | Maya_UV_Snap.Snapped uv _ _ => uv
  | Maya_UV_Snap.TooFar uv _ _ => uv
  end.

(** A sequence of absolute writes, each inside its own [try]/[except]: the
    scene they leave, the number of writes the host accepted, and the UV
    points of those it refused. *)
Record written := {
  w_scene : Scene;
  w_applied : nat;
  w_refused : list UVComp
}.

Fixpoint write_all (writes : list (UVComp * (float * float))) (st : written) : written :=
  match writes with
  | [] => st
  | (uv, (u, v)) :: rest =>
      match polyEditUV_set (w_scene st) uv u v with
      | Some sc' =>
          write_all rest {| w_scene := sc';
                            w_applied := S (w_applied st);
                            w_refused := w_refused st |}
      | None =>
          write_all rest {| w_scene := w_scene st;
                            w_applied := w_applied st;
                            w_refused := w_refused st ++ [uv] |}
      end
  end.

(** The writes of a positional pairing: the i-th target point of [obj]
    receives the value of the i-th source point, for every position at which
    both exist and the source point has a value. *)
Definition paired_writes (value : Z → option (float * float)) (obj : string)
    (targets sources : list Z) : list (UVComp * (float * float)) :=
  omap (fun '(target_uv_id, source_uv_id) =>
          (fun c => ((obj, target_uv_id), c)) <$> value source_uv_id)
       (zip targets sources).

(** The target points of the pairs for which a write is attempted: those of
    the positions at which both a target and a source point exist and the
    source point has a value. *)
Definition attempted {V} (value : Z → option V) (obj : string)
    (targets sources : list Z) : list UVComp :=
  omap (fun '(target_uv_id, source_uv_id) =>
          (fun _ => (obj, target_uv_id)) <$> value source_uv_id)
       (zip targets sources).

(** The writes a shell paste is to make: the target centre plus the offset of
    the paired source point. *)
Definition shell_writes (rel : gmap Z (float * float)) (obj_name : string)
    (target_center : float * float) (target_sorted_ids source_sorted_ids : list Z)
    : list (UVComp * (float * float)) :=
  paired_writes
    (fun source_uv_id =>
       (fun r => (PrimFloat.add target_center.1 r.1, PrimFloat.add target_center.2 r.2))
       <$> rel !! source_uv_id)
    obj_name target_sorted_ids source_sorted_ids.

(** The writes a mesh paste is to make: the coordinate of the paired source
    point. *)
Definition mesh_writes (uv_data : odict (float * float)) (target_mesh : string)
    (target_sorted_uv_ids source_sorted_uv_ids : list Z)
    : list (UVComp * (float * float)) :=
  paired_writes (fun source_uv_id => od_get source_uv_id uv_data)
    target_mesh target_sorted_uv_ids source_sorted_uv_ids.

(** Two scenes that differ in UV coordinates at most. *)
Definition same_topology (sc sc' : Scene) : Prop :=
  polyEditUV_locked sc' = polyEditUV_locked sc
  ∧ polySelectBorderShell sc' = polySelectBorderShell sc
  ∧ polyListComponentConversion sc' = polyListComponentConversion sc
  ∧ nodeType_is_mesh sc' = nodeType_is_mesh sc
  ∧ listRelatives_shapes sc' = listRelatives_shapes sc
  ∧ polyEvaluate_vertex sc' = polyEvaluate_vertex sc
  ∧ polyEvaluate_face sc' = polyEvaluate_face sc
  ∧ polyEvaluate_uvcoord sc' = polyEvaluate_uvcoord sc.

(** The arithmetic mean of a coordinate table: the sum of its values, in the
    order of the table, divided by their number. *)
Definition mean (uv_positions : odict (float * float)) : float * float :=
  (PrimFloat.div (sum ((od_values uv_positions).*1)) (float_of_nat (length uv_positions)),
   PrimFloat.div (sum ((od_values uv_positions).*2)) (float_of_nat (length uv_positions))).

(** The host answers every coordinate query with (at least) two numbers. *)
Definition coordinates_answered (sc : Scene) : Prop :=
  ∀ uv, ∃ u v rest, polyEditUV_query sc uv = Some (u :: v :: rest).

(** What a whole-mesh copy records for one UV index: the coordinate read, the
    origin when the read raises, nothing when the read comes back short. *)
Definition recorded (sc : Scene) (mesh : string) (uv_id : Z) : option (float * float) :=
  match polyEditUV_query sc (mesh, uv_id) with
  | Some (u :: v :: _) => Some (u, v)
  | Some _ => None
  | None => Some (PrimFloat.zero, PrimFloat.zero)
  end.

(** Why the mesh paste turns an object down, judged on the scene alone:
    [None] when the object is pasted. *)
Definition mesh_verdict (sc : Scene) (source : UVTransferTool.mesh_data) (obj : string)
    : option reason :=
  match UVTransferTool.target_mesh_of sc obj with
  | None => Some NotAMesh
  | Some target_mesh =>
      UVTransferTool.check_topology source
        (polyEvaluate_vertex sc target_mesh)
        (polyEvaluate_face sc target_mesh)
        (polyEvaluate_uvcoord sc target_mesh)
  end.

(** The [failed_list] a mesh paste is to end with: one entry per object that
    is turned down, in the order of the selection. *)
Definition mesh_failures (sc : Scene) (source : UVTransferTool.mesh_data)
    (selection : list string) : list UVTransferTool.failure :=
  omap (fun obj => UVTransferTool.Build_failure (short_name obj)
                   <$> mesh_verdict sc source obj) selection.

(** Why the shell paste turns a shell down, judged on the scene alone. *)
Definition shell_verdict (sc : Scene) (source : UVShellCopyPasteTool.shell_data)
    (match_topology : bool) (uv_shell : UVComp) : option (option string * reason) :=
  match polySelectBorderShell sc uv_shell with
  | [] => Some (None, NoData)
  | shell =>
      (fun why => (Some uv_shell.1, why))
      <$> UVShellCopyPasteTool.check_uv_count match_topology
            (Z.of_nat (length shell)) (UVShellCopyPasteTool.uv_count source)
  end.

(** The [failed_list] a shell paste is to end with: one entry per shell that
    is turned down, in the order of the selection, numbered from [idx]. *)
Fixpoint shell_failures (sc : Scene) (source : UVShellCopyPasteTool.shell_data)
    (match_topology : bool) (idx : nat) (uv_shells : list UVComp)
    : list UVShellCopyPasteTool.failure :=
  match uv_shells with
  | [] => []
  | uv_shell :: rest =>
      match shell_verdict sc source match_topology uv_shell with
      | Some (obj, why) =>
          UVShellCopyPasteTool.Build_failure idx obj why
          :: shell_failures sc source match_topology (S idx) rest
      | None => shell_failures sc source match_topology (S idx) rest
      end
  end.

(** * Further specification predicates *)

(** The canonical order of a target mesh, as [paste_uv_to_mesh] computes it
    (lines 268-272): its UV indices sorted by their anchors. *)
Definition target_order (sc : Scene) (target_mesh : string) : list Z :=
  sorted (anchor_key (UVTransferTool.get_uv_to_vertex_mapping sc target_mesh))
         (range (polyEvaluate_uvcoord sc target_mesh)).


(** The status line a paste ends with (lines 347-359 of
    [UV_Copy_Paste_Tool.py], lines 323-335 of [UV_Transfer_Tool.py]). *)
Inductive status :=
  | StatusPasted (success_count : nat)
      (* "成功粘贴UV到 n 个UV壳", "成功传递UV到 n 个模型" *)
  | StatusPartial (success_count failed : nat)
      (* "粘贴完成: 成功n个, 失败m个", "传递完成: 成功n个, 失败m个" *)
  | StatusAllFailed.
      (* "粘贴失败: 所有UV壳都不匹配", "传递失败: 所有模型拓扑都不匹配" *)

(** The end of both pastes: the returned boolean and the status line, from
    [success_count] and [failed_list]. *)
Definition paste_summary {F} (success_count : nat) (failed_list : list F) : bool * status :=
  if (0 <? success_count)%nat
  then (true,
        match failed_list with
        | [] => StatusPasted success_count
        | _ => StatusPartial success_count (length failed_list)
        end)
  else (false, StatusAllFailed).

(** What [paste_uv_shell] returns and the status line it sets, if any. *)
Definition shell_paste_returns (r : UVShellCopyPasteTool.paste_outcome)
    : bool * option status :=
  match r with
  | UVShellCopyPasteTool.Pasted _ b =>
      let s := paste_summary (UVShellCopyPasteTool.success_count b)
                 (UVShellCopyPasteTool.failed_list b) in
      (s.1, Some s.2)
  | _ => (false, None)
  end.

(** What [paste_uv_to_mesh] returns and the status line it sets, if any. *)
Definition mesh_paste_returns (r : UVTransferTool.paste_outcome) : bool * option status :=
  match r with
  | UVTransferTool.Pasted _ b =>
      let s := paste_summary (UVTransferTool.success_count b)
                 (UVTransferTool.failed_list b) in
      (s.1, Some s.2)
  | _ => (false, None)
  end.
(** * Scenes used in the examples *)

#[local] Set Warnings "-inexact-float".

Module Scenes.

(** A shell along a UV seam: the UV points 5 and 3 of ["plane"] both sit on
    vertex 7, and the host lists point 5 first. *)
Definition seam : Scene := {|
  polyEditUV_query := fun uv =>
    if decide (uv.2 = 5%Z) then Some [0.25%float; 0.5%float]
    else Some [0.75%float; 0.5%float];
  polyEditUV_locked := fun _ => false;
  polySelectBorderShell := fun _ => [("plane", 5%Z); ("plane", 3%Z)];
  polyListComponentConversion := fun _ => Some [7%Z];
  nodeType_is_mesh := fun _ => false;
  listRelatives_shapes := fun _ => [];
  polyEvaluate_vertex := fun _ => 0%Z;
  polyEvaluate_face := fun _ => 0%Z;
  polyEvaluate_uvcoord := fun _ => 0%Z
|}.

End Scenes.

Module Shells.

(** A mesh ["m"] with two UV shells, the points 0, 1, 2 and the points 3, 4,
    and a selection that takes points of both, shell by shell interleaved,
    and one vertex. *)
Definition shell_of (uv : UVComp) : list UVComp :=
  if decide (uv.2 < 3)%Z then [("m", 0%Z); ("m", 1%Z); ("m", 2%Z)]
  else [("m", 3%Z); ("m", 4%Z)].

Definition two_shells : Scene := {|
  polyEditUV_query := fun _ => Some [0.5%float; 0.5%float];
  polyEditUV_locked := fun _ => false;
  polySelectBorderShell := fun uv =>
    if decide (uv.1 = "m" ∧ (0 ≤ uv.2 < 5)%Z) then shell_of uv else [uv];
  polyListComponentConversion := fun _ => Some [];
  nodeType_is_mesh := fun _ => false;
  listRelatives_shapes := fun _ => [];
  polyEvaluate_vertex := fun _ => 0%Z;
  polyEvaluate_face := fun _ => 0%Z;
  polyEvaluate_uvcoord := fun _ => 0%Z
|}.

Definition selection : list component :=
  [UV ("m", 4%Z); NonUV "m.vtx[0]"; UV ("m", 1%Z); UV ("m", 3%Z); UV ("m", 0%Z)].

End Shells.

Module Platform.

(** A platform on which [x ** 2] is the correctly rounded square, and raises
    [OverflowError] where the square of a finite number is out of range.
    CPython on glibc squares the numbers that occur in the examples so
    (0, 0.005 and 0.5, of either sign, exactly as the product; 1e200 with
    [OverflowError]); it does not square every float so. *)
Definition float_pow2 (x : float) : result float :=
  let y := PrimFloat.mul x x in
  if PrimFloat.is_infinity y && negb (PrimFloat.is_infinity x)
  then Raise OverflowError
  else Ok y.

End Platform.

Module Snap.

(** A source point [a] at (0, 0) on a shell of its own, and a target shell of
    two points: [b] at (0.005, 0) and [t] at (0.5, 0.5). *)
Definition a : UVComp := ("src", 0%Z).
Definition b : UVComp := ("dst", 0%Z).
Definition t : UVComp := ("dst", 1%Z).

Definition scene : Scene := {|
  polyEditUV_query := fun uv =>
    if decide (uv = a) then Some [0%float; 0%float]
    else if decide (uv = b) then Some [0.005%float; 0%float]
    else if decide (uv = t) then Some [0.5%float; 0.5%float]
    else Some [];
  polyEditUV_locked := fun _ => false;
  polySelectBorderShell := fun uv => if decide (uv.1 = "dst") then [b; t] else [uv];
  polyListComponentConversion := fun _ => Some [];
  nodeType_is_mesh := fun _ => false;
  listRelatives_shapes := fun _ => [];
  polyEvaluate_vertex := fun _ => 0%Z;
  polyEvaluate_face := fun _ => 0%Z;
  polyEvaluate_uvcoord := fun _ => 0%Z
|}.

End Snap.

Module Batch.

(** A mesh ["m"] with four UV shells: the source shell 0, 1 and the target
    shells 2, 3 and 4, 5, 6 and 7, 8.  The second target has one UV point too
    many.  In the first target the vertex order is the reverse of the index
    order. *)
Definition coordinates : list (float * float) :=
  [(0.25, 0.25); (0.75, 0.25);
   (2, 2); (3, 2);
   (1, 1); (1, 1.5); (1.5, 1);
   (4, 1); (5, 3)]%float.

Definition vertices : list Z := [10; 11; 21; 20; 40; 41; 42; 30; 31]%Z.

Definition shell_of (i : Z) : list Z :=
  if decide (i < 0)%Z then []
  else if decide (i < 2)%Z then [0; 1]%Z
  else if decide (i < 4)%Z then [2; 3]%Z
  else if decide (i < 7)%Z then [4; 5; 6]%Z
  else if decide (i < 9)%Z then [7; 8]%Z
  else [].

Definition scene_with (locked : UVComp → bool) : Scene := {|
  polyEditUV_query := fun uv =>
    match coordinates !! Z.to_nat uv.2 with
    | Some (u, v) => Some [u; v]
    | None => Some [0%float; 0%float]
    end;
  polyEditUV_locked := locked;
  polySelectBorderShell := fun uv => (fun i => (uv.1, i)) <$> shell_of uv.2;
  polyListComponentConversion := fun uv =>
    match vertices !! Z.to_nat uv.2 with
    | Some vertex_id => Some [vertex_id]
    | None => Some []
    end;
  nodeType_is_mesh := fun _ => false;
  listRelatives_shapes := fun _ => [];
  polyEvaluate_vertex := fun _ => 0%Z;
  polyEvaluate_face := fun _ => 0%Z;
  polyEvaluate_uvcoord := fun _ => 0%Z
|}.

Definition scene : Scene := scene_with (fun _ => false).

(** The same scene, with the UV point 3 locked against writes. *)
Definition scene_locked : Scene :=
  scene_with (fun uv => bool_decide (uv = ("m", 3%Z))).

Definition source_selection : list component := [UV ("m", 1%Z)].

Definition target_selection : list component :=
  [UV ("m", 2%Z); UV ("m", 4%Z); UV ("m", 8%Z)].

Definition no_data : UVShellCopyPasteTool.shell_data := {|
  UVShellCopyPasteTool.object := "";
  UVShellCopyPasteTool.uv_count := 0;
  UVShellCopyPasteTool.uv_ids := [];
  UVShellCopyPasteTool.uv_data := [];
  UVShellCopyPasteTool.id_map := ∅;
  UVShellCopyPasteTool.sorted_ids := [];
  UVShellCopyPasteTool.uv_to_vertex := ∅;
  UVShellCopyPasteTool.center := None;
  UVShellCopyPasteTool.relative_coords := None
|}.

(** The clipboard after copying the source shell, and the snapshot on it. *)
Definition clipboard : option UVShellCopyPasteTool.shell_data :=
  (UVShellCopyPasteTool.copy_uv_shell scene None source_selection).1.

Definition source : UVShellCopyPasteTool.shell_data := default no_data clipboard.

(** The first target shell as [paste_uv_shell] reads it. *)
Definition target : UVShellCopyPasteTool.shell_data :=
  match UVShellCopyPasteTool.get_uv_shell_data scene ("m", 2%Z) with
  | Ok (Some d) => d
  | _ => no_data
  end.

(** The state of a paste before its first target. *)
Definition start (sc : Scene) : UVShellCopyPasteTool.batch := {|
  UVShellCopyPasteTool.scene := sc;
  UVShellCopyPasteTool.success_count := 0;
  UVShellCopyPasteTool.failed_list := [];
  UVShellCopyPasteTool.pasted := []
|}.

End Batch.

Module Meshes.

(** A source mesh and three selected objects.  All four meshes are quads with
    four UV points, except the second target, which has six.  The coordinate
    query of the source's UV point 2 raises; the UV point 1 of the third
    target is locked; the first target numbers its UV points against the
    vertex order. *)
Definition shape_of (obj : string) : list string :=
  if decide (obj = "|src") then ["|src|srcShape"]
  else if decide (obj = "|t1") then ["|t1|t1Shape"]
  else if decide (obj = "|t2") then ["|t2|t2Shape"]
  else if decide (obj = "|t3") then ["|t3|t3Shape"]
  else [].

Definition source_coordinates : list (float * float) :=
  [(0.125, 0.25); (1, 0.25); (1, 1); (0.125, 1)]%float.

Definition scene : Scene := {|
  polyEditUV_query := fun uv =>
    if decide (uv.1 = "|src|srcShape") then
      if decide (uv.2 = 2%Z) then None
      else match source_coordinates !! Z.to_nat uv.2 with
           | Some (u, v) => Some [u; v]
           | None => Some []
           end
    else Some [0.5%float; 0.5%float];
  polyEditUV_locked := fun uv => bool_decide (uv = ("|t3|t3Shape", 1%Z));
  polySelectBorderShell := fun _ => [];
  polyListComponentConversion := fun uv =>
    if decide (uv.1 = "|t1|t1Shape") then Some [(3 - uv.2)%Z] else Some [uv.2];
  nodeType_is_mesh := fun _ => false;
  listRelatives_shapes := shape_of;
  polyEvaluate_vertex := fun _ => 4%Z;
  polyEvaluate_face := fun _ => 1%Z;
  polyEvaluate_uvcoord := fun mesh => if decide (mesh = "|t2|t2Shape") then 6%Z else 4%Z
|}.

Definition source : UVTransferTool.mesh_data :=
  UVTransferTool.get_mesh_uv_data scene "|src|srcShape".

Definition targets : UVTransferTool.selection := {|
  UVTransferTool.transforms := ["|t1"; "|t2"; "|t3"];
  UVTransferTool.meshes := []
|}.

End Meshes.

(** * Further scenes *)

Module Short.

(** A mesh with five UV points of which the query of point 1 comes back with
    one number only and the query of point 3 raises. *)
Definition scene : Scene := {|
  polyEditUV_query := fun uv =>
    if decide (uv.2 = 1%Z) then Some [0.5%float]
    else if decide (uv.2 = 3%Z) then None
    else Some [0.25%float; 0.75%float; 0%float];
  polyEditUV_locked := fun _ => false;
  polySelectBorderShell := fun _ => [];
  polyListComponentConversion := fun uv => Some [(10 - uv.2)%Z];
  nodeType_is_mesh := fun _ => true;
  listRelatives_shapes := fun _ => [];
  polyEvaluate_vertex := fun _ => 5%Z;
  polyEvaluate_face := fun _ => 2%Z;
  polyEvaluate_uvcoord := fun _ => 5%Z
|}.

End Short.


Module Listing.

(** The scene of the batch example with every shell listed from its last UV
    point to its first. *)
Definition reversed : Scene := {|
  polyEditUV_query := polyEditUV_query Batch.scene;
  polyEditUV_locked := polyEditUV_locked Batch.scene;
  polySelectBorderShell := fun uv => reverse (polySelectBorderShell Batch.scene uv);
  polyListComponentConversion := polyListComponentConversion Batch.scene;
  nodeType_is_mesh := nodeType_is_mesh Batch.scene;
  listRelatives_shapes := listRelatives_shapes Batch.scene;
  polyEvaluate_vertex := polyEvaluate_vertex Batch.scene;
  polyEvaluate_face := polyEvaluate_face Batch.scene;
  polyEvaluate_uvcoord := polyEvaluate_uvcoord Batch.scene
|}.

End Listing.

Module Edge.

(** A mesh ["m"] with five shells of two UV points each: 0, 1 and 6, 7 have
    coordinates; the coordinate query raises on point 3 of the shell 2, 3; on
    both points of the shell 4, 5 it comes back empty; on point 9 of the shell
    8, 9 it comes back with one number. *)
Definition shell_of (i : Z) : list Z :=
  if decide (i < 0)%Z then []
  else if decide (i < 2)%Z then [0; 1]%Z
  else if decide (i < 4)%Z then [2; 3]%Z
  else if decide (i < 6)%Z then [4; 5]%Z
  else if decide (i < 8)%Z then [6; 7]%Z
  else if decide (i < 10)%Z then [8; 9]%Z
  else [].

Definition scene : Scene := {|
  polyEditUV_query := fun uv =>
    if decide (uv.2 = 3)%Z then None
    else if decide (4 ≤ uv.2 < 6)%Z then Some []
    else if decide (uv.2 = 9)%Z then Some [0.75%float]
    else if decide (uv.2 = 0)%Z then Some [0%float; 0%float]
    else if decide (uv.2 = 1)%Z then Some [1%float; 1%float]
    else Some [0.5%float; 0.25%float];
  polyEditUV_locked := fun _ => false;
  polySelectBorderShell := fun uv => (fun i => (uv.1, i)) <$> shell_of uv.2;
  polyListComponentConversion := fun uv => Some [uv.2];
  nodeType_is_mesh := fun _ => false;
  listRelatives_shapes := fun _ => [];
  polyEvaluate_vertex := fun _ => 0%Z;
  polyEvaluate_face := fun _ => 0%Z;
  polyEvaluate_uvcoord := fun _ => 0%Z
|}.

(** The clipboard after copying the shell 6, 7. *)
Definition clipboard : option UVShellCopyPasteTool.shell_data :=
  (UVShellCopyPasteTool.copy_uv_shell scene None [UV ("m", 6%Z)]).1.

Definition source : UVShellCopyPasteTool.shell_data := default Batch.no_data clipboard.

(** The snapshot of the shell 8, 9. *)
Definition partial : UVShellCopyPasteTool.shell_data :=
  default Batch.no_data (UVShellCopyPasteTool.copy_uv_shell scene None [UV ("m", 8%Z)]).1.

End Edge.

Module Tie.

(** A source point [a] at (0, 0) and a target shell of three points, listed
    as [far] at (0.5, 0.5), [east] at (0.005, 0) and [north] at (0, 0.005):
    [east] and [north] are at the same distance from [a]. *)
Definition a : UVComp := ("src", 0%Z).
Definition far : UVComp := ("dst", 0%Z).
Definition east : UVComp := ("dst", 1%Z).
Definition north : UVComp := ("dst", 2%Z).

Definition scene : Scene := {|
  polyEditUV_query := fun uv =>
    if decide (uv = a) then Some [0%float; 0%float]
    else if decide (uv = far) then Some [0.5%float; 0.5%float]
    else if decide (uv = east) then Some [0.005%float; 0%float]
    else if decide (uv = north) then Some [0%float; 0.005%float]
    else Some [];
  polyEditUV_locked := fun _ => false;
  polySelectBorderShell := fun uv =>
    if decide (uv.1 = "dst") then [far; east; north] else [uv];
  polyListComponentConversion := fun _ => Some [];
  nodeType_is_mesh := fun _ => false;
  listRelatives_shapes := fun _ => [];
  polyEvaluate_vertex := fun _ => 0%Z;
  polyEvaluate_face := fun _ => 0%Z;
  polyEvaluate_uvcoord := fun _ => 0%Z
|}.

End Tie.

Module Refusing.

(** The scene of the snap example, with the source point [a] locked against
    writes, a further source point [c] whose coordinate query raises, and a
    source point [e] at (1e200, 0). *)
Definition c : UVComp := ("src", 1%Z).
Definition e : UVComp := ("src", 2%Z).

Definition scene : Scene := {|
  polyEditUV_query := fun uv =>
    if decide (uv = c) then None
    else if decide (uv = e) then Some [1e200%float; 0%float]
    else polyEditUV_query Snap.scene uv;
  polyEditUV_locked := fun uv => bool_decide (uv = Snap.a);
  polySelectBorderShell := polySelectBorderShell Snap.scene;
  polyListComponentConversion := polyListComponentConversion Snap.scene;
  nodeType_is_mesh := nodeType_is_mesh Snap.scene;
  listRelatives_shapes := listRelatives_shapes Snap.scene;
  polyEvaluate_vertex := polyEvaluate_vertex Snap.scene;
  polyEvaluate_face := polyEvaluate_face Snap.scene;
  polyEvaluate_uvcoord := polyEvaluate_uvcoord Snap.scene
|}.

End Refusing.
(** * Auxiliary lemmas *)

(** ** [sorted] *)

Section sorted_facts.
Context {A : Type} (key : A → Z).

Lemma insert_by_key_perm x l : insert_by_key key x l ≡ₚ x :: l.
Proof.
  induction l as [|y l IH]; simpl; [done|].
  destruct (key y <? key x)%Z; [|done].
  rewrite IH. apply Permutation_swap.
Qed.

Lemma sorted_perm l : sorted key l ≡ₚ l.
Proof.
  induction l as [|x l IH]; simpl; [done|].
  unfold sorted in IH. by rewrite insert_by_key_perm, IH.
Qed.

Lemma sorted_cons x l : sorted key (x :: l) = insert_by_key key x (sorted key l).
Proof. reflexivity. Qed.

Lemma insert_by_key_sorted x l :
  StronglySorted (key_le key) l → StronglySorted (key_le key) (insert_by_key key x l).
Proof.
  induction 1 as [|y l Hl IH Hy]; simpl.
  - repeat constructor.
  - destruct (Z.ltb_spec (key y) (key x)) as [Hlt|Hge].
    + constructor; [done|].
      rewrite insert_by_key_perm. constructor; [unfold key_le; lia|done].
    + constructor; [by constructor|].
      constructor; [done|].
      eapply Forall_impl; [exact Hy|]. unfold key_le. intros; lia.
Qed.

Lemma sorted_sorted l : StronglySorted (key_le key) (sorted key l).
Proof.
  induction l as [|x l IH]; [constructor|].
  rewrite sorted_cons. by apply insert_by_key_sorted.
Qed.

(** A list that is already ascending is returned as it is. *)
Lemma sorted_fixed l : StronglySorted (key_le key) l → sorted key l = l.
Proof.
  induction 1 as [|x l Hl IH Hx]; [done|].
  rewrite sorted_cons, IH.
  destruct l as [|y l]; [done|]. simpl.
  apply Forall_cons in Hx as [Hxy _]. unfold key_le in Hxy.
  destruct (Z.ltb_spec (key y) (key x)); [lia|done].
Qed.

(** Stability: the elements with any one key keep their input order. *)
Lemma insert_by_key_filter (c : Z) x l :
  filter (fun a => key a = c) (insert_by_key key x l)
  = filter (fun a => key a = c) (x :: l).
Proof.
  induction l as [|y l IH]; simpl; [done|].
  destruct (Z.ltb_spec (key y) (key x)) as [Hlt|Hge]; [|done].
  rewrite filter_cons, IH, !filter_cons.
  destruct (decide (key y = c)), (decide (key x = c)); try done; lia.
Qed.

Lemma sorted_stable (c : Z) l :
  filter (fun a => key a = c) (sorted key l) = filter (fun a => key a = c) l.
Proof.
  induction l as [|x l IH]; [done|].
  rewrite sorted_cons, insert_by_key_filter, !filter_cons, IH. done.
Qed.

End sorted_facts.


Lemma StronglySorted_lookup_lt {A} (R : relation A) (l : list A) (i j : nat) (a b : A) :
  StronglySorted R l → l !! i = Some a → l !! j = Some b → i < j → R a b.
Proof.
  intros Hl. revert i j.
  induction Hl as [|x l Hl IH Hx]; intros i j Hi Hj Hij; [done|].
  destruct j as [|j]; [lia|]. simpl in Hj.
  destruct i as [|i]; simpl in Hi.
  - injection Hi as ->. rewrite Forall_forall in Hx.
    apply Hx. eapply list_elem_of_lookup_2; eauto.
  - eapply IH; eauto. lia.
Qed.

(** On an input in ascending index order, ties end up in index order. *)
Lemma insert_by_key_index (key : Z → Z) (x : Z) (s : list Z) :
  StronglySorted (key_index_lt key) s →
  Forall (fun y => (x < y)%Z) s →
  StronglySorted (key_index_lt key) (insert_by_key key x s).
Proof.
  induction 1 as [|y s Hs IH Hy]; intros Hx; simpl.
  - repeat constructor.
  - apply Forall_cons in Hx as [Hxy Hxs].
    destruct (Z.ltb_spec (key y) (key x)) as [Hlt|Hge].
    + constructor; [by apply IH|].
      rewrite insert_by_key_perm. constructor; [by left|done].
    + constructor; [by constructor|].
      assert (key_index_lt key x y) as Hxy'.
      { unfold key_index_lt. lia. }
      constructor; [done|].
      rewrite Forall_forall in Hy, Hxs. apply Forall_forall. intros z Hz.
      specialize (Hy z Hz). specialize (Hxs z Hz).
      unfold key_index_lt in *. lia.
Qed.

Lemma sorted_ascending_index (key : Z → Z) (l : list Z) :
  StronglySorted Z.lt l → StronglySorted (key_index_lt key) (sorted key l).
Proof.
  induction 1 as [|x l Hl IH Hx]; [constructor|].
  rewrite sorted_cons. apply insert_by_key_index; [done|].
  by rewrite sorted_perm.
Qed.

Lemma seqZ_ascending (m n : Z) : StronglySorted Z.lt (seqZ m n).
Proof.
  destruct (decide (0 ≤ n)%Z) as [Hn|Hn]; [|rewrite seqZ_nil by lia; constructor].
  rewrite <- (Z2Nat.id n) by done. generalize (Z.to_nat n) as k. clear. intros k.
  revert m. induction k as [|k IH]; intros m.
  - rewrite seqZ_nil by lia. constructor.
  - rewrite seqZ_cons by lia. replace (Z.pred (Z.of_nat (S k))) with (Z.of_nat k) by lia.
    constructor; [apply IH|].
    apply Forall_forall. intros y Hy. apply elem_of_seqZ in Hy. lia.
Qed.

Lemma key_index_lt_smaller_first (key : Z → Z) (out : list Z) :
  StronglySorted (key_index_lt key) out → smaller_index_first key out.
Proof.
  intros Hs i j a b Hi Hj Hk Hab.
  destruct (decide (i < j)) as [|Hge]; [done|]. exfalso.
  destruct (decide (i = j)) as [->|Hne].
  - rewrite Hi in Hj. injection Hj as ->. lia.
  - assert (key_index_lt key b a) as Hba.
    { eapply (StronglySorted_lookup_lt _ out j i); eauto. lia. }
    unfold key_index_lt in Hba. lia.
Qed.

(** ** Shell extraction *)

Lemma first_occurrences_NoDup {A} `{EqDecision A} (seen l : list A) :
  NoDup (first_occurrences seen l)
  ∧ (∀ x, x ∈ first_occurrences seen l → (x ∉ seen) ∧ (x ∈ l)).
Proof.
  revert seen. induction l as [|x l IH]; intros seen; simpl.
  - split; [constructor|]. intros x Hx. by apply elem_of_nil in Hx.
  - case_decide as Hx.
    + destruct (IH seen) as [Hnd Hin]. split; [done|].
      intros y Hy. destruct (Hin y Hy). split; [done|]. by right.
    + destruct (IH (x :: seen)) as [Hnd Hin]. split.
      * constructor; [|done]. intros Hx'. apply Hin in Hx' as [Hx' _].
        apply Hx'. by left.
      * intros y Hy. apply elem_of_cons in Hy as [->|Hy]; [split; [done|by left]|].
        destruct (Hin y Hy) as [Hns Hyl]. split; [|by right].
        intros Hs. apply Hns. by right.
Qed.

Lemma collect_shells_regions (sc : Scene) :
  shells_partition sc →
  ∀ (uv_components : list UVComp) (processed_uvs : gset UVComp)
    (all_uv_shells : list UVComp) (seen : list (list UVComp)),
    (∀ uv, uv ∈ processed_uvs ↔ polySelectBorderShell sc uv ∈ seen) →
    polySelectBorderShell sc
      <$> UVShellCopyPasteTool.collect_shells sc uv_components processed_uvs all_uv_shells
    = (polySelectBorderShell sc <$> all_uv_shells)
      ++ first_occurrences seen (polySelectBorderShell sc <$> uv_components).
Proof.
  intros [Hrefl Hclass].
  induction uv_components as [|uv rest IH]; intros processed all seen Hinv; simpl.
  - by rewrite app_nil_r.
  - destruct (decide (uv ∈ processed)) as [Hin|Hnin].
    + rewrite decide_True by (by apply Hinv). by apply IH.
    + rewrite decide_False by (by rewrite <- Hinv).
      destruct (polySelectBorderShell sc uv) as [|first others] eqn:Hshell.
      { specialize (Hrefl uv). rewrite Hshell in Hrefl. by apply elem_of_nil in Hrefl. }
      rewrite (IH _ _ (polySelectBorderShell sc uv :: seen)); rewrite ?Hshell.
      * rewrite fmap_app, <- app_assoc. simpl. do 3 f_equal.
        rewrite <- Hshell. apply Hclass. rewrite Hshell. by left.
      * intros uv'.
        assert (uv' ∈ ({[first]} ∪ list_to_set others : gset UVComp)
                ↔ uv' ∈ polySelectBorderShell sc uv) as Hset.
        { rewrite Hshell. set_solver. }
        rewrite elem_of_union, Hset, elem_of_cons, Hinv.
        split; intros [H|H].
        -- by right.
        -- left. rewrite <- Hshell. by apply Hclass.
        -- right. rewrite Hshell, <- H. apply Hrefl.
        -- by left.
Qed.

(** ** Float comparison *)

Lemma SFltb_irrefl (x : SpecFloat.spec_float) : SpecFloat.SFltb x x = false.
Proof.
  unfold SpecFloat.SFltb.
  destruct x as [s| s | |s m e]; simpl; try done.
  - by destruct s.
  - destruct s; rewrite Z.compare_refl, Pos.compare_cont_refl; done.
Qed.

Lemma SFltb_trans (x y z : SpecFloat.spec_float) :
  SpecFloat.SFltb x y = true → SpecFloat.SFltb y z = true → SpecFloat.SFltb x z = true.
Proof.
  unfold SpecFloat.SFltb.
  destruct x as [sx|sx| |sx mx ex], y as [sy|sy| |sy my ey], z as [sz|sz| |sz mz ez];
    simpl; try done;
    try (destruct sx; try done); try (destruct sy; try done); try (destruct sz; try done).
  all: destruct (Z.compare_spec ex ey), (Z.compare_spec ey ez), (Z.compare_spec ex ez);
    try done; try lia; subst.
  all: fold (Pos.compare mx my); fold (Pos.compare my mz); fold (Pos.compare mx mz).
  all: destruct (Pos.compare_spec mx my), (Pos.compare_spec my mz), (Pos.compare_spec mx mz);
    simpl; try done; try lia.
Qed.

Lemma float_ltb_irrefl (x : float) : PrimFloat.ltb x x = false.
Proof. rewrite FloatAxioms.ltb_spec. apply SFltb_irrefl. Qed.

Lemma float_ltb_trans (x y z : float) :
  PrimFloat.ltb x y = true → PrimFloat.ltb y z = true → PrimFloat.ltb x z = true.
Proof. rewrite !FloatAxioms.ltb_spec. apply SFltb_trans. Qed.

(** ** The exception monad *)

Lemma bind_Ok {A B} (a : A) (f : A → result B) : Ok a ≫= f = f a.
Proof. reflexivity. Qed.

Lemma bind_Raise {A B} (e : exn) (f : A → result B) : Raise e ≫= f = Raise e.
Proof. reflexivity. Qed.

Lemma filter_all {A} (P : A → Prop) `{!∀ x, Decision (P x)} (l : list A) :
  (∀ x, x ∈ l → P x) → filter P l = l.
Proof.
  induction l as [|x l IH]; intros Hall; [done|].
  rewrite filter_cons, decide_True by (apply Hall; by left).
  f_equal. apply IH. intros y Hy. apply Hall. by right.
Qed.

Lemma filter_none {A} (P : A → Prop) `{!∀ x, Decision (P x)} (l : list A) :
  (∀ x, x ∈ l → ¬ P x) → filter P l = [].
Proof.
  induction l as [|x l IH]; intros Hnone; [done|].
  rewrite filter_cons_False by (apply Hnone; by left).
  apply IH. intros y Hy. apply Hnone. by right.
Qed.

(** ** Snapping *)

(** A write leaves every other UV point as it is. *)
Lemma polyEditUV_set_query (sc sc' : Scene) (uv : UVComp) (u v : float) :
  polyEditUV_set sc uv u v = Some sc' →
  polyEditUV_query sc' uv = Some [u; v]
  ∧ (∀ uv', uv' ≠ uv → polyEditUV_query sc' uv' = polyEditUV_query sc uv')
  ∧ polyEditUV_locked sc' = polyEditUV_locked sc
  ∧ polySelectBorderShell sc' = polySelectBorderShell sc
  ∧ polyListComponentConversion sc' = polyListComponentConversion sc.
Proof.
  unfold polyEditUV_set. destruct (polyEditUV_locked sc uv); [done|].
  intros [= <-]. simpl. split_and!; try done.
  - by rewrite decide_True.
  - intros uv' Hne. by rewrite decide_False.
Qed.

Section snap_facts.
Import Maya_UV_Snap.
Context (float_pow2 : float → result float).

(** What [scan] returns when every distance is computed: either nothing
    beats the running minimum, or the nearest point, to which no target point
    is strictly closer. *)
Lemma scan_spec (u v : float) (target_points : list (float * float))
    (d : float * float → float) :
  (∀ q, q ∈ target_points → distance float_pow2 u v q.1 q.2 = Ok (d q)) →
  ∀ (min0 : float) (near0 : option (float * float)),
    ∃ min_dist nearest_point,
      scan float_pow2 u v target_points min0 near0 = Ok (min_dist, nearest_point)
      ∧ ((min_dist = min0 ∧ nearest_point = near0
          ∧ ∀ q, q ∈ target_points → PrimFloat.ltb (d q) min0 = false)
         ∨ (∃ p, p ∈ target_points ∧ nearest_point = Some p
                 ∧ min_dist = d p
                 ∧ PrimFloat.ltb min_dist min0 = true
                 ∧ ∀ q, q ∈ target_points → PrimFloat.ltb (d q) min_dist = false)).
Proof.
  induction target_points as [|[tu tv] rest IH]; intros Hd min0 near0.
  { eexists _, _. split; [done|]. left. split_and!; [done..|].
    intros q Hq. by apply elem_of_nil in Hq. }
  assert (∀ q, q ∈ rest → distance float_pow2 u v q.1 q.2 = Ok (d q)) as Hrest'
    by (intros q Hq; apply Hd; by right).
  pose proof (Hd (tu, tv) ltac:(by left)) as Hhead. simpl in Hhead.
  cbn [scan]. rewrite Hhead, bind_Ok.
  destruct (PrimFloat.ltb (d (tu, tv)) min0) eqn:Hlt.
  - destruct (IH Hrest' (d (tu, tv)) (Some (tu, tv))) as (m & n & -> & Hcases).
    eexists _, _. split; [done|]. right.
    destruct Hcases as [(-> & -> & Hrest)|(p & Hp & -> & -> & Hpm & Hrest)].
    + exists (tu, tv). split_and!; [by left|done..|].
      intros q [->|Hq]%elem_of_cons; [apply float_ltb_irrefl|by apply Hrest].
    + exists p. split_and!; [by right|done|done|by eapply float_ltb_trans|].
      intros q [->|Hq]%elem_of_cons; [|by apply Hrest].
      destruct (PrimFloat.ltb (d (tu, tv)) (d p)) eqn:Hrev; [|done].
      pose proof (float_ltb_trans _ _ _ Hpm Hrev) as Hbad.
      by rewrite float_ltb_irrefl in Hbad.
  - destruct (IH Hrest' min0 near0) as (m & n & -> & Hcases).
    eexists _, _. split; [done|].
    destruct Hcases as [(-> & -> & Hrest)|(p & Hp & -> & -> & Hpm & Hrest)].
    + left. split_and!; [done..|].
      intros q [->|Hq]%elem_of_cons; [done|by apply Hrest].
    + right. exists p. split_and!; [by right|done..|].
      intros q [->|Hq]%elem_of_cons; [|by apply Hrest].
      destruct (PrimFloat.ltb (d (tu, tv)) (d p)) eqn:Hrev; [|done].
      pose proof (float_ltb_trans _ _ _ Hrev Hpm) as Hbad. congruence.
Qed.

(** One pass of the loop body touches the coordinate of its own point only,
    and reports on that point only. *)
Lemma snap_one_step (target_uvs : list UVComp) (target_points : list (float * float))
    (thr : float) (uv : UVComp) (sc sc' : Scene) (log log' : list event) :
  snap_one float_pow2 target_uvs target_points thr uv (sc, log) = Ok (sc', log') →
  polyEditUV_locked sc' = polyEditUV_locked sc
  ∧ (∀ x, x ≠ uv → polyEditUV_query sc' x = polyEditUV_query sc x)
  ∧ (uv ∈ target_uvs → sc' = sc ∧ log' = log)
  ∧ ∃ new, log' = log ++ new ∧ ∀ e, e ∈ new → event_uv e = uv ∧ uv ∉ target_uvs.
Proof.
  unfold snap_one. case_decide as Hin.
  { intros [= <- <-]. split_and!; [done..|]. exists []. rewrite app_nil_r. split; [done|].
    intros e He. by apply elem_of_nil in He. }
  destruct (query_pair sc uv) as [[u v]|e]; [rewrite bind_Ok|by rewrite bind_Raise].
  destruct (scan float_pow2 u v target_points infinity None) as [[min_dist [p|]]|e];
    [rewrite bind_Ok|rewrite bind_Ok|by rewrite bind_Raise].
  - destruct (PrimFloat.leb min_dist thr).
    + destruct (polyEditUV_set sc uv p.1 p.2) as [sc1|] eqn:Hset; [|done].
      intros [= <- <-]. apply polyEditUV_set_query in Hset as (_ & Hother & Hlock & _).
      split_and!; [done..|].
      eexists. split; [done|]. by intros e ->%list_elem_of_singleton.
    + intros [= <- <-]. split_and!; [done..|].
      eexists. split; [done|]. by intros e ->%list_elem_of_singleton.
  - intros [= <- <-]. split_and!; [done..|]. exists []. rewrite app_nil_r. split; [done|].
    intros e He. by apply elem_of_nil in He.
Qed.

(** The loop never writes to, and never reports, a point of the target
    shell. *)
Lemma snap_one_frame (target_uvs : list UVComp) (target_points : list (float * float))
    (thr : float) (uv : UVComp) (sc sc' : Scene) (log log' : list event) :
  snap_one float_pow2 target_uvs target_points thr uv (sc, log) = Ok (sc', log') →
  (∀ uv', uv' ∈ target_uvs → polyEditUV_query sc' uv' = polyEditUV_query sc uv')
  ∧ ∃ new, log' = log ++ new ∧ ∀ e, e ∈ new → event_uv e ∉ target_uvs.
Proof.
  intros Hone. apply snap_one_step in Hone as (_ & Hother & Hskip & new & -> & Hnew).
  split.
  - intros uv' Huv'. destruct (decide (uv' = uv)) as [->|Hne]; [|by apply Hother].
    by destruct (Hskip Huv') as [-> _].
  - exists new. split; [done|]. intros e He. destruct (Hnew e He) as [-> ?]. done.
Qed.

Lemma snap_loop_cons (target_uvs : list UVComp) (target_points : list (float * float))
    (thr : float) (uv : UVComp) (rest : list UVComp) (st : Scene * list event) :
  snap_loop float_pow2 target_uvs target_points thr (uv :: rest) st
  = snap_one float_pow2 target_uvs target_points thr uv st
    ≫= snap_loop float_pow2 target_uvs target_points thr rest.
Proof. reflexivity. Qed.

Lemma snap_loop_frame (target_uvs : list UVComp) (target_points : list (float * float))
    (thr : float) (source_uvs : list UVComp) :
  ∀ (sc sc' : Scene) (log log' : list event),
    snap_loop float_pow2 target_uvs target_points thr source_uvs (sc, log) = Ok (sc', log') →
    (∀ uv', uv' ∈ target_uvs → polyEditUV_query sc' uv' = polyEditUV_query sc uv')
    ∧ ∃ new, log' = log ++ new ∧ ∀ e, e ∈ new → event_uv e ∉ target_uvs.
Proof.
  induction source_uvs as [|uv rest IH]; intros sc sc' log log'.
  - intros [= <- <-]. split; [done|]. exists []. rewrite app_nil_r. split; [done|].
    intros e He. by apply elem_of_nil in He.
  - rewrite snap_loop_cons.
    destruct (snap_one float_pow2 target_uvs target_points thr uv (sc, log))
      as [[sc1 log1]|e] eqn:Hone; [rewrite bind_Ok|by rewrite bind_Raise].
    intros Hrest. apply snap_one_frame in Hone as (Hq1 & new1 & -> & Hn1).
    apply IH in Hrest as (Hq2 & new2 & -> & Hn2). split.
    + intros uv' Huv'. rewrite Hq2, Hq1; done.
    + exists (new1 ++ new2). rewrite app_assoc. split; [done|].
      intros e [He|He]%elem_of_app; auto.
Qed.

(** The loop body reads of the scene the coordinate of its own point and
    whether the host lets it move: on two scenes that agree on both it does
    the same. *)
Lemma snap_one_local (target_uvs : list UVComp) (target_points : list (float * float))
    (thr : float) (uv : UVComp) (sc1 sc2 : Scene) (log1 log2 : list event) :
  polyEditUV_query sc2 uv = polyEditUV_query sc1 uv →
  polyEditUV_locked sc2 uv = polyEditUV_locked sc1 uv →
  match snap_one float_pow2 target_uvs target_points thr uv (sc1, log1) with
  | Ok (sc1', log1') =>
      ∃ sc2' new,
        log1' = log1 ++ new
        ∧ snap_one float_pow2 target_uvs target_points thr uv (sc2, log2)
          = Ok (sc2', log2 ++ new)
        ∧ polyEditUV_query sc2' uv = polyEditUV_query sc1' uv
  | Raise e => snap_one float_pow2 target_uvs target_points thr uv (sc2, log2) = Raise e
  end.
Proof.
  intros Hq Hl. unfold snap_one, query_pair. rewrite Hq.
  case_decide as Hin.
  { exists sc2, []. by rewrite !app_nil_r. }
  destruct (polyEditUV_query sc1 uv) as [[|u [|v [|? ?]]]|] eqn:Hq1;
    try (by rewrite !bind_Raise).
  rewrite !bind_Ok.
  destruct (scan float_pow2 u v target_points infinity None) as [[min_dist [p|]]|e];
    rewrite ?bind_Ok, ?bind_Raise; [| |done].
  - destruct (PrimFloat.leb min_dist thr).
    + unfold polyEditUV_set. rewrite Hl.
      destruct (polyEditUV_locked sc1 uv); [done|].
      eexists _, _. split; [done|]. split; [done|]. simpl. by rewrite !decide_True.
    + eexists _, _. split; [done|]. split; [done|]. by rewrite Hq, Hq1.
  - exists sc2, []. rewrite !app_nil_r. split_and!; [done..|by rewrite Hq, Hq1].
Qed.

(** Every source point of a list without repetitions is processed as if it
    were processed alone on the scene the loop starts from. *)
Lemma snap_loop_processed (target_uvs : list UVComp) (target_points : list (float * float))
    (thr : float) (source_uvs : list UVComp) :
  NoDup source_uvs →
  ∀ (sc sc' : Scene) (log log' : list event),
    snap_loop float_pow2 target_uvs target_points thr source_uvs (sc, log) = Ok (sc', log') →
    polyEditUV_locked sc' = polyEditUV_locked sc
    ∧ (∀ x, x ∉ source_uvs → polyEditUV_query sc' x = polyEditUV_query sc x)
    ∧ ∃ new,
        log' = log ++ new
        ∧ (∀ e, e ∈ new → event_uv e ∈ source_uvs)
        ∧ ∀ uv, uv ∈ source_uvs →
            ∃ sc_uv log_uv,
              snap_one float_pow2 target_uvs target_points thr uv (sc, []) = Ok (sc_uv, log_uv)
              ∧ polyEditUV_query sc' uv = polyEditUV_query sc_uv uv
              ∧ filter (fun e => event_uv e = uv) new = log_uv.
Proof.
  induction source_uvs as [|uv0 rest IH]; intros Hnd sc sc' log log'.
  { intros [= <- <-]. split_and!; [done..|]. exists []. rewrite app_nil_r.
    split_and!; [done| |]; by intros ? ?%elem_of_nil. }
  apply NoDup_cons in Hnd as [Hfresh Hnd].
  rewrite snap_loop_cons.
  destruct (snap_one float_pow2 target_uvs target_points thr uv0 (sc, log))
    as [[sc1 log1]|e] eqn:Hone; [rewrite bind_Ok|by rewrite bind_Raise].
  intros Hrest.
  pose proof (snap_one_step _ _ _ _ _ _ _ _ Hone) as (Hlock1 & Hother1 & _ & new1 & -> & Hnew1).
  destruct (IH Hnd _ _ _ _ Hrest) as (Hlock2 & Hother2 & new2 & -> & Hnew2 & Heach).
  split; [by rewrite Hlock2|]. split.
  { intros x Hx. apply not_elem_of_cons in Hx as [Hne Hx]. by rewrite Hother2, Hother1. }
  exists (new1 ++ new2). split; [by rewrite app_assoc|]. split.
  { intros e [He|He]%elem_of_app.
    - destruct (Hnew1 e He) as [-> _]. by left.
    - right. by apply Hnew2. }
  assert (∀ uv, uv ≠ uv0 → filter (fun e => event_uv e = uv) new1 = []) as Hnone1.
  { intros uv Hne. apply filter_none.
    intros e He Heq. destruct (Hnew1 e He) as [Huv0 _]. congruence. }
  assert (filter (fun e => event_uv e = uv0) new2 = []) as Hnone2.
  { apply filter_none.
    intros e He Heq. apply Hfresh. rewrite <- Heq. by apply Hnew2. }
  intros uv [->|Huv]%elem_of_cons.
  - pose proof (snap_one_local target_uvs target_points thr uv0 sc sc log []
                  eq_refl eq_refl) as Hlocal.
    rewrite Hone in Hlocal. destruct Hlocal as (sc2 & new & Hnew & Halone & Hq).
    apply app_inv_head in Hnew as <-.
    exists sc2, new1. split; [done|]. split.
    + by rewrite Hother2, Hq.
    + rewrite filter_app, Hnone2, app_nil_r. apply filter_all.
      intros e He. by destruct (Hnew1 e He).
  - assert (uv ≠ uv0) as Hne by (by intros ->).
    destruct (Heach uv Huv) as (sc_uv & log_uv & Halone1 & Hq & Hfilter).
    pose proof (snap_one_local target_uvs target_points thr uv sc1 sc [] []
                  (eq_sym (Hother1 uv Hne))
                  (eq_sym (f_equal (fun f => f uv) Hlock1))) as Hlocal.
    rewrite Halone1 in Hlocal. destruct Hlocal as (sc2 & new & Hnew & Halone & Hq').
    simpl in Hnew, Halone. subst new.
    exists sc2, log_uv. split; [done|]. split.
    + by rewrite Hq, Hq'.
    + by rewrite filter_app, (Hnone1 uv Hne).
Qed.

End snap_facts.

(** ** Writes *)

Lemma same_topology_refl (sc : Scene) : same_topology sc sc.
Proof. by repeat split. Qed.

Lemma same_topology_trans (sc1 sc2 sc3 : Scene) :
  same_topology sc1 sc2 → same_topology sc2 sc3 → same_topology sc1 sc3.
Proof.
  unfold same_topology. intros (?&?&?&?&?&?&?&?) (?&?&?&?&?&?&?&?).
  split_and!; congruence.
Qed.

Lemma polyEditUV_set_same (sc sc' : Scene) (uv : UVComp) (u v : float) :
  polyEditUV_set sc uv u v = Some sc' → same_topology sc sc'.
Proof.
  unfold polyEditUV_set. destruct (polyEditUV_locked sc uv); [done|].
  intros [= <-]. by repeat split.
Qed.

Lemma write_all_static (writes : list (UVComp * (float * float))) (st : written) :
  same_topology (w_scene st) (w_scene (write_all writes st)).
Proof.
  revert st. induction writes as [|[uv [u v]] rest IH]; intros st; simpl.
  - apply same_topology_refl.
  - destruct (polyEditUV_set (w_scene st) uv u v) as [sc'|] eqn:Hset.
    + eapply same_topology_trans; [by eapply polyEditUV_set_same|]. apply (IH (Build_written _ _ _)).
    + apply (IH (Build_written _ _ _)).
Qed.

(** Every write is attempted: the host's refusal of one does not stop the
    rest, and each is counted once, as applied or as refused. *)
Lemma write_all_counts (writes : list (UVComp * (float * float))) (st : written) :
  w_applied (write_all writes st)
  = w_applied st
    + length (filter (fun w => polyEditUV_locked (w_scene st) w.1 = false) writes)
  ∧ w_refused (write_all writes st)
    = w_refused st
      ++ (filter (fun w => polyEditUV_locked (w_scene st) w.1 = true) writes).*1.
Proof.
  revert st. induction writes as [|[uv [u v]] rest IH]; intros st; simpl.
  - by rewrite Nat.add_0_r, app_nil_r.
  - rewrite !filter_cons. simpl. unfold polyEditUV_set.
    destruct (polyEditUV_locked (w_scene st) uv) eqn:Hlock.
    + rewrite decide_False by done. rewrite decide_True by done.
      match goal with |- context [write_all rest ?s] => destruct (IH s) as [-> ->] end.
      simpl. by rewrite <- app_assoc.
    + rewrite decide_True by done. rewrite decide_False by done.
      match goal with |- context [write_all rest ?s] => destruct (IH s) as [-> ->] end.
      simpl. split; [lia|done].
Qed.

Lemma write_all_total (writes : list (UVComp * (float * float))) (st : written) :
  w_applied (write_all writes st) + length (w_refused (write_all writes st))
  = w_applied st + length (w_refused st) + length writes.
Proof.
  revert st. induction writes as [|[uv [u v]] rest IH]; intros st; simpl; [lia|].
  destruct (polyEditUV_set (w_scene st) uv u v); rewrite IH; simpl;
    rewrite ?length_app; simpl; lia.
Qed.

(** A UV point that no write names keeps its coordinate. *)
Lemma write_all_frame (writes : list (UVComp * (float * float))) (st : written) (uv : UVComp) :
  uv ∉ writes.*1 →
  polyEditUV_query (w_scene (write_all writes st)) uv = polyEditUV_query (w_scene st) uv.
Proof.
  revert st. induction writes as [|[uv' [u v]] rest IH]; intros st Hnot; simpl; [done|].
  simpl in Hnot. apply not_elem_of_cons in Hnot as [Hne Hnot].
  destruct (polyEditUV_set (w_scene st) uv' u v) as [sc'|] eqn:Hset.
  - rewrite IH by done. simpl.
    apply polyEditUV_set_query in Hset as (_ & Hother & _). by apply Hother.
  - by rewrite IH.
Qed.

(** A UV point that is written once, and not locked, ends with the written
    coordinate. *)
Lemma write_all_written (writes : list (UVComp * (float * float))) (st : written)
    (uv : UVComp) (u v : float) :
  NoDup writes.*1 →
  (uv, (u, v)) ∈ writes →
  polyEditUV_locked (w_scene st) uv = false →
  polyEditUV_query (w_scene (write_all writes st)) uv = Some [u; v].
Proof.
  revert st. induction writes as [|[uv' [u' v']] rest IH]; intros st Hnd Hin Hlock; simpl.
  { by apply elem_of_nil in Hin. }
  simpl in Hnd. apply NoDup_cons in Hnd as [Hfresh Hnd].
  apply elem_of_cons in Hin as [[= <- <- <-]|Hin].
  - unfold polyEditUV_set. rewrite Hlock.
    rewrite write_all_frame by done. simpl. by rewrite decide_True.
  - destruct (polyEditUV_set (w_scene st) uv' u' v') as [sc'|] eqn:Hset.
    + apply IH; [done..|]. simpl.
      apply polyEditUV_set_same in Hset as (-> & _). done.
    + by apply IH.
Qed.

(** The write loop of the shell paste makes the writes of [shell_writes]. *)
Lemma shell_apply_coords_writes (source : UVShellCopyPasteTool.shell_data)
    (rel : gmap Z (float * float)) (obj_name : string) (target_center : float * float) :
  UVShellCopyPasteTool.relative_coords source = Some rel →
  ∀ (targets sources : list Z) (st : UVShellCopyPasteTool.applied),
    let w := write_all (shell_writes rel obj_name target_center targets sources)
               {| w_scene := UVShellCopyPasteTool.scene_after st;
                  w_applied := UVShellCopyPasteTool.apply_count st;
                  w_refused := UVShellCopyPasteTool.write_failures st |} in
    UVShellCopyPasteTool.apply_coords source obj_name target_center targets sources st
    = Ok {| UVShellCopyPasteTool.scene_after := w_scene w;
            UVShellCopyPasteTool.apply_count := w_applied w;
            UVShellCopyPasteTool.write_failures := w_refused w |}.
Proof.
  intros Hrel. induction targets as [|t targets IH]; intros sources st; simpl.
  { by destruct st. }
  destruct sources as [|s sources]; simpl.
  { by destruct st. }
  rewrite Hrel. unfold shell_writes, paired_writes. simpl.
  destruct (rel !! s) as [r|]; simpl.
  - destruct (polyEditUV_set (UVShellCopyPasteTool.scene_after st) (obj_name, t) _ _); apply IH.
  - apply IH.
Qed.

(** The write loop of the mesh paste makes the writes of [mesh_writes]. *)
Lemma mesh_apply_coords_writes (source : UVTransferTool.mesh_data) (target_mesh : string) :
  ∀ (targets sources : list Z) (st : UVTransferTool.applied) (refused : list UVComp),
    length refused = UVTransferTool.error_count st →
    let w := write_all (mesh_writes (UVTransferTool.uv_data source) target_mesh targets sources)
               {| w_scene := UVTransferTool.scene_after st;
                  w_applied := UVTransferTool.apply_count st;
                  w_refused := refused |} in
    UVTransferTool.apply_coords source target_mesh targets sources st
    = {| UVTransferTool.scene_after := w_scene w;
         UVTransferTool.apply_count := w_applied w;
         UVTransferTool.error_count := length (w_refused w) |}.
Proof.
  induction targets as [|t targets IH]; intros sources st refused Hlen; simpl.
  { rewrite Hlen. by destruct st. }
  destruct sources as [|s sources]; simpl.
  { rewrite Hlen. by destruct st. }
  unfold mesh_writes, paired_writes. simpl.
  destruct (od_get s (UVTransferTool.uv_data source)) as [[u v]|]; simpl.
  - destruct (polyEditUV_set (UVTransferTool.scene_after st) (target_mesh, t) u v).
    + by rewrite (IH _ _ refused).
    + by rewrite (IH _ _ (refused ++ [(target_mesh, t)]))
        by (simpl; rewrite length_app; simpl; lia).
  - by rewrite (IH _ _ refused).
Qed.

(** ** Positional pairing *)

Section paired.
Context (value : Z → option (float * float)) (obj : string).

Lemma paired_writes_cons (t s : Z) (targets sources : list Z) :
  paired_writes value obj (t :: targets) (s :: sources)
  = match value s with
    | Some c => ((obj, t), c) :: paired_writes value obj targets sources
    | None => paired_writes value obj targets sources
    end.
Proof. unfold paired_writes. simpl. by destruct (value s). Qed.

Lemma paired_writes_targets (targets sources : list Z) (w : UVComp * (float * float)) :
  w ∈ paired_writes value obj targets sources → w.1.1 = obj ∧ w.1.2 ∈ targets.
Proof.
  revert sources. induction targets as [|t targets IH]; intros [|s sources] Hw;
    try by apply elem_of_nil in Hw.
  rewrite paired_writes_cons in Hw.
  destruct (value s) as [c|].
  - apply elem_of_cons in Hw as [->|Hw]; [split; [done|by left]|].
    destruct (IH _ Hw). split; [done|by right].
  - destruct (IH _ Hw). split; [done|by right].
Qed.

Lemma paired_writes_NoDup (targets sources : list Z) :
  NoDup targets → NoDup (paired_writes value obj targets sources).*1.
Proof.
  revert sources. induction targets as [|t targets IH]; intros [|s sources] Hnd;
    try by constructor.
  apply NoDup_cons in Hnd as [Hfresh Hnd].
  rewrite paired_writes_cons. destruct (value s) as [c|]; [|by apply IH].
  simpl. constructor; [|by apply IH].
  intros (w & Hw1 & Hw2)%list_elem_of_fmap.
  apply paired_writes_targets in Hw2 as [_ Hin]. rewrite <- Hw1 in Hin. done.
Qed.

Lemma paired_writes_lookup (targets sources : list Z) (i : nat) (t s : Z) (c : float * float) :
  targets !! i = Some t → sources !! i = Some s → value s = Some c →
  ((obj, t), c) ∈ paired_writes value obj targets sources.
Proof.
  revert sources i. induction targets as [|t' targets IH]; intros [|s' sources] i Ht Hs Hv;
    try done.
  rewrite paired_writes_cons. destruct i as [|i]; simpl in Ht, Hs.
  - injection Ht as ->. injection Hs as ->. rewrite Hv. by left.
  - destruct (value s'); [right|]; by eapply IH.
Qed.

Lemma paired_writes_targets_fst (targets sources : list Z) :
  (∀ s, s ∈ sources → is_Some (value s)) →
  (paired_writes value obj targets sources).*1
  = (fun t => (obj, t)) <$> take (length sources) targets.
Proof.
  revert sources. induction targets as [|t targets IH]; intros [|s sources] Hall; try done.
  rewrite paired_writes_cons.
  destruct (Hall s) as [c ->]; [by left|]. simpl. rewrite IH; [done|].
  intros s' Hs'. apply Hall. by right.
Qed.

End paired.

(** ** Insertion-ordered dicts *)

Section odict_facts.
Context {V : Type}.
Implicit Types (d : odict V) (k : Z) (v : V).

Lemma od_get_set k k' v d :
  od_get k' (od_set k v d) = if decide (k' = k) then Some v else od_get k' d.
Proof.
  induction d as [|[k0 v0] d IH]; simpl.
  - repeat case_decide; congruence.
  - destruct (decide (k = k0)) as [->|Hne]; simpl.
    + repeat case_decide; congruence.
    + rewrite IH. repeat case_decide; congruence.
Qed.

Lemma od_keys_set k k' v d : k' ∈ od_keys (od_set k v d) ↔ k' = k ∨ k' ∈ od_keys d.
Proof.
  unfold od_keys. induction d as [|[k0 v0] d IH]; simpl.
  - set_solver.
  - destruct (decide (k = k0)) as [->|Hne]; simpl; [set_solver|].
    rewrite !elem_of_cons, IH. naive_solver.
Qed.

Lemma od_set_NoDup k v d : NoDup (od_keys d) → NoDup (od_keys (od_set k v d)).
Proof.
  unfold od_keys. induction d as [|[k0 v0] d IH]; simpl; intros Hnd.
  - repeat constructor. set_solver.
  - apply NoDup_cons in Hnd as [Hfresh Hnd].
    destruct (decide (k = k0)) as [->|Hne]; simpl; [by constructor|].
    constructor; [|by apply IH].
    intros Hin. apply (od_keys_set k k0 v d) in Hin as [?|?]; done.
Qed.

Lemma od_set_nonempty k v d : od_set k v d ≠ [].
Proof. destruct d as [|[k0 v0] d]; simpl; [done|]. by case_decide. Qed.

Lemma od_get_keys k d : is_Some (od_get k d) ↔ k ∈ od_keys d.
Proof.
  unfold od_keys. induction d as [|[k0 v0] d IH]; simpl.
  - split; [by intros [? ?]|by intros ?%elem_of_nil].
  - rewrite elem_of_cons. case_decide; [naive_solver|].
    rewrite IH. naive_solver.
Qed.

(** A gmap filled from the items of a dict with distinct keys. *)
Lemma foldl_insert_lookup {W} (f : V → W) (m0 : gmap Z W) d k :
  NoDup (od_keys d) →
  foldl (fun m item => <[item.1 := f item.2]> m) m0 d !! k
  = match od_get k d with
    | Some v => Some (f v)
    | None => m0 !! k
    end.
Proof.
  unfold od_keys. revert m0. induction d as [|[k0 v0] d IH]; intros m0 Hnd; simpl; [done|].
  apply NoDup_cons in Hnd as [Hfresh Hnd]. rewrite IH by done.
  destruct (decide (k = k0)) as [->|Hne].
  - destruct (od_get k0 d) eqn:Hget.
    + exfalso. apply Hfresh. apply (od_get_keys k0 d). rewrite Hget. eauto.
    + simpl. by rewrite lookup_insert_eq.
  - simpl. by rewrite lookup_insert_ne.
Qed.

End odict_facts.

(** ** Shell snapshots *)

Section shell_facts.
Import UVShellCopyPasteTool.

Lemma centroid_mean (uv_positions : odict (float * float)) :
  uv_positions ≠ [] → centroid uv_positions = Ok (mean uv_positions).
Proof. unfold centroid, mean. by destruct uv_positions. Qed.

Lemma centroid_Ok (uv_positions : odict (float * float)) (c : float * float) :
  centroid uv_positions = Ok c → uv_positions ≠ [] ∧ c = mean uv_positions.
Proof.
  destruct uv_positions as [|item d]; [done|].
  rewrite centroid_mean by done. by intros [= <-].
Qed.

Lemma read_coords_Ok (sc : Scene) (uv_components : list UVComp) :
  ∀ (ids : list Z) (data : odict (float * float)) ids' data',
    read_coords sc uv_components ids data = Ok (ids', data') →
    ids' = ids ++ uv_components.*2
    ∧ (NoDup (od_keys data) → NoDup (od_keys data')).
Proof.
  induction uv_components as [|uv rest IH]; intros ids data ids' data'; simpl.
  - intros [= <- <-]. by rewrite app_nil_r.
  - destruct (polyEditUV_query sc uv) as [[|u [|v coords]]|]; try done;
      intros [-> Hnd]%IH; rewrite <- app_assoc; (split; [done|]); try done.
    intros Hd. by apply Hnd, od_set_NoDup.
Qed.

Lemma read_coords_answered (sc : Scene) (uv_components : list UVComp) :
  coordinates_answered sc →
  ∀ (ids : list Z) (data : odict (float * float)),
    ∃ data', read_coords sc uv_components ids data = Ok (ids ++ uv_components.*2, data')
             ∧ (data ≠ [] ∨ uv_components ≠ [] → data' ≠ []).
Proof.
  intros Hans. induction uv_components as [|uv rest IH]; intros ids data; simpl.
  - exists data. rewrite app_nil_r. split; [done|]. by intros [?|?].
  - destruct (Hans uv) as (u & v & coords & ->).
    destruct (IH (ids ++ [uv.2]) (od_set uv.2 (u, v) data)) as (data' & -> & Hne).
    exists data'. rewrite <- app_assoc. split; [done|].
    intros _. apply Hne. left. apply od_set_nonempty.
Qed.

Lemma get_uv_shell_data_Some (sc : Scene) (uv_component : UVComp) (d : shell_data) :
  get_uv_shell_data sc uv_component = Ok (Some d) →
  polySelectBorderShell sc uv_component ≠ []
  ∧ object d = uv_component.1
  ∧ uv_ids d = (polySelectBorderShell sc uv_component).*2
  ∧ uv_count d = Z.of_nat (length (polySelectBorderShell sc uv_component))
  ∧ sorted_ids d = sorted (anchor_key (uv_to_vertex d)) (uv_ids d)
  ∧ NoDup (od_keys (uv_data d)).
Proof.
  unfold get_uv_shell_data.
  destruct (polySelectBorderShell sc uv_component) as [|uv0 uvs] eqn:Hshell; [done|].
  destruct (read_coords sc (uv0 :: uvs) [] []) as [[ids data]|e] eqn:Hread;
    [rewrite bind_Ok|by rewrite bind_Raise].
  apply read_coords_Ok in Hread as [-> Hnd]. intros [= <-]. simpl.
  split_and!; try done.
  - by rewrite length_fmap.
  - apply Hnd. constructor.
Qed.

Lemma get_uv_shell_data_None (sc : Scene) (uv_component : UVComp) :
  get_uv_shell_data sc uv_component = Ok None ↔ polySelectBorderShell sc uv_component = [].
Proof.
  unfold get_uv_shell_data.
  destruct (polySelectBorderShell sc uv_component) as [|uv0 uvs] eqn:Hshell; [done|].
  destruct (read_coords sc (uv0 :: uvs) [] []) as [[ids data]|e]; done.
Qed.

Lemma get_uv_shell_data_answered (sc : Scene) (uv_component : UVComp) :
  coordinates_answered sc →
  polySelectBorderShell sc uv_component ≠ [] →
  ∃ d, get_uv_shell_data sc uv_component = Ok (Some d) ∧ uv_data d ≠ [].
Proof.
  intros Hans Hne. unfold get_uv_shell_data.
  destruct (polySelectBorderShell sc uv_component) as [|uv0 uvs] eqn:Hshell; [done|].
  destruct (read_coords_answered sc (uv0 :: uvs) Hans [] []) as (data & -> & Hdata).
  rewrite bind_Ok. eexists. split; [done|]. simpl. apply Hdata. by right.
Qed.

(** What a successful copy leaves on the clipboard. *)
Lemma copy_uv_shell_Copied (sc : Scene) (clipboard : option shell_data)
    (selection : list component) (source : shell_data) :
  copy_uv_shell sc clipboard selection = (Some source, Ok Copied) →
  uv_data source ≠ []
  ∧ center source = Some (mean (uv_data source))
  ∧ relative_coords source = Some (relative_to (mean (uv_data source)) (uv_data source))
  ∧ NoDup (od_keys (uv_data source))
  ∧ sorted_ids source = sorted (anchor_key (uv_to_vertex source)) (uv_ids source)
  ∧ uv_count source = Z.of_nat (length (uv_ids source)).
Proof.
  unfold copy_uv_shell.
  destruct (get_selected_uv_shells sc selection) as [[|uv_shell rest]|]; try done.
  destruct (get_uv_shell_data sc uv_shell) as [[d|]|e] eqn:Hget; try done.
  apply get_uv_shell_data_Some in Hget as (_ & _ & Hids & Hcount & Hsorted & Hnd).
  destruct (centroid (uv_data d)) as [c|e] eqn:Hc; [|done].
  apply centroid_Ok in Hc as [Hne ->]. intros [= <-]. simpl.
  split_and!; try done. by rewrite Hids, length_fmap.
Qed.

Lemma relative_to_lookup (c : float * float) (uv_positions : odict (float * float)) (k : Z) :
  NoDup (od_keys uv_positions) →
  relative_to c uv_positions !! k
  = (fun p => (PrimFloat.sub p.1 c.1, PrimFloat.sub p.2 c.2)) <$> od_get k uv_positions.
Proof.
  intros Hnd. unfold relative_to.
  rewrite (foldl_insert_lookup (fun p => (PrimFloat.sub p.1 c.1, PrimFloat.sub p.2 c.2))) by done.
  by destruct (od_get k uv_positions).
Qed.

End shell_facts.

Lemma filter_fmap_comm {A B} (f : A → B) (P : B → Prop) `{!∀ y, Decision (P y)}
    (l : list A) :
  filter P (f <$> l) = f <$> filter (fun x => P (f x)) l.
Proof.
  induction l as [|x l IH]; [done|].
  rewrite fmap_cons, !filter_cons, IH. by case_decide.
Qed.

Lemma write_all_counts_fst (writes : list (UVComp * (float * float))) (st : written) :
  w_applied (write_all writes st)
  = w_applied st
    + length (filter (fun uv => polyEditUV_locked (w_scene st) uv = false) writes.*1)
  ∧ w_refused (write_all writes st)
    = w_refused st
      ++ filter (fun uv => polyEditUV_locked (w_scene st) uv = true) writes.*1.
Proof.
  destruct (write_all_counts writes st) as [-> ->].
  rewrite !filter_fmap_comm, length_fmap. done.
Qed.

(** ** Mesh snapshots *)

Section mesh_facts.
Import UVTransferTool.

Lemma read_coord_recorded (sc : Scene) (mesh : string) (d : odict (float * float)) (uv_id : Z) :
  read_coord sc mesh d uv_id
  = match recorded sc mesh uv_id with
    | Some c => od_set uv_id c d
    | None => d
    end.
Proof.
  unfold read_coord, recorded.
  by destruct (polyEditUV_query sc (mesh, uv_id)) as [[|u [|v coords]]|].
Qed.

Lemma foldl_read_coord_get (sc : Scene) (mesh : string) (uv_ids : list Z) :
  ∀ (d : odict (float * float)) (k : Z),
    od_get k (foldl (read_coord sc mesh) d uv_ids)
    = match (if decide (k ∈ uv_ids) then recorded sc mesh k else None) with
      | Some c => Some c
      | None => od_get k d
      end.
Proof.
  induction uv_ids as [|k0 uv_ids IH]; intros d k.
  - done.
  - change (foldl (read_coord sc mesh) d (k0 :: uv_ids))
      with (foldl (read_coord sc mesh) (read_coord sc mesh d k0) uv_ids).
    rewrite IH, read_coord_recorded.
    assert (od_get k (match recorded sc mesh k0 with
                      | Some c => od_set k0 c d
                      | None => d
                      end)
            = match (if decide (k = k0) then recorded sc mesh k0 else None) with
              | Some c => Some c
              | None => od_get k d
              end) as ->.
    { destruct (recorded sc mesh k0) as [c|]; [|by case_decide].
      rewrite od_get_set. by case_decide. }
    destruct (decide (k ∈ uv_ids)) as [Hin|Hnin].
    + rewrite (decide_True (P := k ∈ k0 :: uv_ids)) by (by right).
      destruct (recorded sc mesh k) eqn:Hrec; [done|].
      case_decide as Hk; [|done]. subst k0. by rewrite Hrec.
    + destruct (decide (k = k0)) as [->|Hne].
      * by rewrite (decide_True (P := k0 ∈ k0 :: uv_ids)) by (by left).
      * by rewrite (decide_False (P := k ∈ k0 :: uv_ids)) by (by intros [?|?]%elem_of_cons).
Qed.

(** Every identifier of the canonical order has a coordinate in the
    snapshot. *)
Lemma get_mesh_uv_data_sorted (sc : Scene) (mesh0 : string) (s : Z) :
  s ∈ sorted_uv_ids (get_mesh_uv_data sc mesh0) →
  is_Some (od_get s (uv_data (get_mesh_uv_data sc mesh0))).
Proof.
  simpl. rewrite sorted_perm. apply od_get_keys.
Qed.

End mesh_facts.

(** ** Batches *)

Lemma write_all_answered (writes : list (UVComp * (float * float))) (st : written) :
  coordinates_answered (w_scene st) → coordinates_answered (w_scene (write_all writes st)).
Proof.
  revert st. induction writes as [|[uv [u v]] rest IH]; intros st Hans; simpl; [done|].
  destruct (polyEditUV_set (w_scene st) uv u v) as [sc'|] eqn:Hset; apply IH; [|done].
  simpl. intros uv'. apply polyEditUV_set_query in Hset as (Hhere & Hother & _).
  destruct (decide (uv' = uv)) as [->|Hne]; [by eexists _, _, _|].
  rewrite Hother by done. apply Hans.
Qed.

Lemma mesh_verdict_same (sc sc' : Scene) (source : UVTransferTool.mesh_data) (obj : string) :
  same_topology sc sc' → mesh_verdict sc' source obj = mesh_verdict sc source obj.
Proof.
  intros (_ & _ & _ & Hn & Hl & Hv & Hf & Hu).
  unfold mesh_verdict, UVTransferTool.target_mesh_of. by rewrite Hn, Hl, Hv, Hf, Hu.
Qed.

Lemma shell_verdict_same (sc sc' : Scene) (source : UVShellCopyPasteTool.shell_data)
    (match_topology : bool) (uv_shell : UVComp) :
  same_topology sc sc' →
  shell_verdict sc' source match_topology uv_shell
  = shell_verdict sc source match_topology uv_shell.
Proof. intros (_ & Hs & _). unfold shell_verdict. by rewrite Hs. Qed.

(** One object of a mesh paste: turned down and recorded, or pasted. *)
Lemma mesh_paste_one_spec (source : UVTransferTool.mesh_data) (obj : string)
    (b : UVTransferTool.batch) :
  let b' := UVTransferTool.paste_one source obj b in
  same_topology (UVTransferTool.scene b) (UVTransferTool.scene b')
  ∧ match mesh_verdict (UVTransferTool.scene b) source obj with
    | Some why =>
        b' = UVTransferTool.fail b (short_name obj) why
    | None =>
        UVTransferTool.success_count b' = S (UVTransferTool.success_count b)
        ∧ UVTransferTool.failed_list b' = UVTransferTool.failed_list b
    end.
Proof.
  unfold UVTransferTool.paste_one, mesh_verdict.
  destruct (UVTransferTool.target_mesh_of (UVTransferTool.scene b) obj) as [target_mesh|];
    [|split; [apply same_topology_refl|done]].
  destruct (UVTransferTool.check_topology _ _ _ _) as [why|];
    [split; [apply same_topology_refl|done]|].
  simpl. split; [|done].
  set (st := {| UVTransferTool.scene_after := UVTransferTool.scene b;
                UVTransferTool.apply_count := 0; UVTransferTool.error_count := 0 |}).
  rewrite (mesh_apply_coords_writes source target_mesh _ _ st []) by done. simpl.
  apply (write_all_static _ (Build_written _ _ _)).
Qed.

Lemma mesh_paste_loop_spec (sc : Scene) (source : UVTransferTool.mesh_data)
    (selection : list string) :
  ∀ b : UVTransferTool.batch,
    same_topology sc (UVTransferTool.scene b) →
    let b' := foldl (fun b obj => UVTransferTool.paste_one source obj b) b selection in
    UVTransferTool.failed_list b'
    = UVTransferTool.failed_list b ++ mesh_failures sc source selection
    ∧ UVTransferTool.success_count b'
      = UVTransferTool.success_count b
        + length (filter (fun obj => mesh_verdict sc source obj = None) selection).
Proof.
  induction selection as [|obj rest IH]; intros b Hsame; simpl.
  - by rewrite app_nil_r, Nat.add_0_r.
  - destruct (mesh_paste_one_spec source obj b) as [Hstep Hone]. simpl in Hstep, Hone.
    rewrite (mesh_verdict_same sc) in Hone by done.
    destruct (IH (UVTransferTool.paste_one source obj b)) as [-> ->];
      [by eapply same_topology_trans|].
    unfold mesh_failures. simpl. rewrite filter_cons.
    destruct (mesh_verdict sc source obj) as [why|] eqn:Hv; simpl.
    + rewrite Hone. simpl. by rewrite <- app_assoc.
    + destruct Hone as [-> ->]. simpl. split; [done|lia].
Qed.

Lemma mesh_failures_cons (sc : Scene) (source : UVTransferTool.mesh_data)
    (obj : string) (rest : list string) :
  mesh_failures sc source (obj :: rest)
  = match mesh_verdict sc source obj with
    | Some why => UVTransferTool.Build_failure (short_name obj) why
                  :: mesh_failures sc source rest
    | None => mesh_failures sc source rest
    end.
Proof. unfold mesh_failures. simpl. by destruct (mesh_verdict sc source obj). Qed.

Lemma mesh_failures_length (sc : Scene) (source : UVTransferTool.mesh_data)
    (selection : list string) :
  length (filter (fun obj => mesh_verdict sc source obj = None) selection)
  + length (mesh_failures sc source selection) = length selection.
Proof.
  induction selection as [|obj rest IH]; [done|].
  rewrite filter_cons, mesh_failures_cons.
  destruct (mesh_verdict sc source obj); simpl; lia.
Qed.

Section shell_batch.
Import UVShellCopyPasteTool.

Lemma shell_apply_coords_scene (source : shell_data) (obj_name : string)
    (target_center : float * float) (targets sources : list Z) (st a : applied) :
  apply_coords source obj_name target_center targets sources st = Ok a →
  same_topology (scene_after st) (scene_after a)
  ∧ (coordinates_answered (scene_after st) → coordinates_answered (scene_after a)).
Proof.
  destruct (relative_coords source) as [rel|] eqn:Hrel.
  - rewrite (shell_apply_coords_writes source rel _ _ Hrel). intros [= <-]. simpl. split.
    + apply (write_all_static _ (Build_written _ _ _)).
    + apply (write_all_answered _ (Build_written _ _ _)).
  - destruct targets as [|t targets], sources as [|s sources]; simpl; rewrite ?Hrel;
      try done; intros [= <-]; (split; [apply same_topology_refl|done]).
Qed.

(** One shell of a shell paste: turned down and recorded, or pasted. *)
Lemma shell_paste_one_spec (source : shell_data) (match_topology : bool)
    (idx : nat) (uv_shell : UVComp) (b b' : batch) :
  paste_one source match_topology idx uv_shell b = Ok b' →
  same_topology (scene b) (scene b')
  ∧ (coordinates_answered (scene b) → coordinates_answered (scene b'))
  ∧ match shell_verdict (scene b) source match_topology uv_shell with
    | Some (obj, why) =>
        scene b' = scene b
        ∧ success_count b' = success_count b
        ∧ failed_list b' = failed_list b ++ [Build_failure idx obj why]
    | None =>
        success_count b' = S (success_count b)
        ∧ failed_list b' = failed_list b
    end.
Proof.
  unfold paste_one, shell_verdict.
  destruct (get_uv_shell_data (scene b) uv_shell) as [[target|]|e] eqn:Hget;
    [rewrite bind_Ok| rewrite bind_Ok |by rewrite bind_Raise].
  - apply get_uv_shell_data_Some in Hget as (Hne & Hobj & _ & Hcount & _ & _).
    destruct (polySelectBorderShell (scene b) uv_shell) as [|uv0 uvs] eqn:Hshell; [done|].
    rewrite <- Hcount, <- Hobj.
    destruct (check_uv_count match_topology (uv_count target) (uv_count source)) as [why|].
    + intros [= <-]. simpl. split; [apply same_topology_refl|done].
    + destruct (centroid (uv_data target)) as [c|e]; [rewrite bind_Ok|by rewrite bind_Raise].
      destruct (apply_coords _ _ _ _ _ _) as [a|e] eqn:Happly;
        [rewrite bind_Ok|by rewrite bind_Raise].
      intros [= <-]. simpl.
      apply shell_apply_coords_scene in Happly as [Hsame Hans]. done.
  - apply get_uv_shell_data_None in Hget. rewrite Hget.
    intros [= <-]. simpl. split; [apply same_topology_refl|done].
Qed.

Lemma shell_paste_one_total (source : shell_data) (match_topology : bool)
    (idx : nat) (uv_shell : UVComp) (b : batch) :
  coordinates_answered (scene b) →
  is_Some (relative_coords source) →
  ∃ b', paste_one source match_topology idx uv_shell b = Ok b'.
Proof.
  intros Hans [rel Hrel]. unfold paste_one.
  destruct (polySelectBorderShell (scene b) uv_shell) as [|uv0 uvs] eqn:Hshell.
  - apply get_uv_shell_data_None in Hshell as ->. rewrite bind_Ok. by eexists.
  - destruct (get_uv_shell_data_answered (scene b) uv_shell Hans) as (target & -> & Hdata);
      [by rewrite Hshell|].
    rewrite bind_Ok.
    destruct (check_uv_count _ _ _); [by eexists|].
    rewrite centroid_mean, bind_Ok by done.
    rewrite (shell_apply_coords_writes source rel _ _ Hrel), bind_Ok. by eexists.
Qed.

Lemma paste_loop_cons (source : shell_data) (match_topology : bool) (idx : nat)
    (uv_shell : UVComp) (rest : list UVComp) (b : batch) :
  paste_loop source match_topology idx (uv_shell :: rest) b
  = paste_one source match_topology idx uv_shell b
    ≫= paste_loop source match_topology (S idx) rest.
Proof. reflexivity. Qed.

Lemma shell_paste_loop_spec (sc : Scene) (source : shell_data) (match_topology : bool)
    (uv_shells : list UVComp) :
  ∀ (idx : nat) (b b' : batch),
    same_topology sc (scene b) →
    paste_loop source match_topology idx uv_shells b = Ok b' →
    failed_list b'
    = failed_list b ++ shell_failures sc source match_topology idx uv_shells
    ∧ success_count b'
      = success_count b
        + length (filter (fun uv => shell_verdict sc source match_topology uv = None)
                         uv_shells).
Proof.
  induction uv_shells as [|uv rest IH]; intros idx b b' Hsame.
  - intros [= <-]. simpl. by rewrite app_nil_r, Nat.add_0_r.
  - rewrite paste_loop_cons.
    destruct (paste_one source match_topology idx uv b) as [b1|e] eqn:Hone;
      [rewrite bind_Ok|by rewrite bind_Raise].
    apply shell_paste_one_spec in Hone as (Hstep & _ & Hone).
    rewrite (shell_verdict_same sc) in Hone by done.
    intros Hrest. apply IH in Hrest as [-> ->]; [|by eapply same_topology_trans].
    simpl. rewrite filter_cons.
    destruct (shell_verdict sc source match_topology uv) as [[obj why]|] eqn:Hv; simpl.
    + destruct Hone as (_ & -> & ->). by rewrite <- app_assoc.
    + destruct Hone as [-> ->]. split; [done|lia].
Qed.

Lemma shell_paste_loop_total (source : shell_data) (match_topology : bool)
    (uv_shells : list UVComp) :
  is_Some (relative_coords source) →
  ∀ (idx : nat) (b : batch),
    coordinates_answered (scene b) →
    ∃ b', paste_loop source match_topology idx uv_shells b = Ok b'.
Proof.
  intros Hrel. induction uv_shells as [|uv rest IH]; intros idx b Hans.
  - by eexists.
  - rewrite paste_loop_cons.
    destruct (shell_paste_one_total source match_topology idx uv b Hans Hrel) as [b1 Hone].
    rewrite Hone, bind_Ok. apply IH.
    by apply shell_paste_one_spec in Hone as (_ & Hans1 & _); apply Hans1.
Qed.

Lemma shell_failures_length (sc : Scene) (source : shell_data) (match_topology : bool)
    (uv_shells : list UVComp) (idx : nat) :
  length (filter (fun uv => shell_verdict sc source match_topology uv = None) uv_shells)
  + length (shell_failures sc source match_topology idx uv_shells) = length uv_shells.
Proof.
  revert idx. induction uv_shells as [|uv rest IH]; intros idx; [done|].
  simpl. rewrite filter_cons. specialize (IH (S idx)).
  destruct (shell_verdict sc source match_topology uv) as [[obj why]|]; simpl; lia.
Qed.

End shell_batch.

(** ** The pairs a write loop attempts *)

Lemma attempted_cons {V} (value : Z → option V) (obj : string) (t s : Z)
    (targets sources : list Z) :
  attempted value obj (t :: targets) (s :: sources)
  = match value s with
    | Some _ => (obj, t) :: attempted value obj targets sources
    | None => attempted value obj targets sources
    end.
Proof. unfold attempted. simpl. by destruct (value s). Qed.

Lemma paired_writes_attempted (value : Z → option (float * float)) (obj : string)
    (targets : list Z) :
  ∀ sources, (paired_writes value obj targets sources).*1 = attempted value obj targets sources.
Proof.
  induction targets as [|t targets IH]; intros [|s sources]; try done.
  rewrite paired_writes_cons, attempted_cons.
  destruct (value s); simpl; by rewrite IH.
Qed.

Lemma attempted_ext {V W} (value : Z → option V) (value' : Z → option W) (obj : string)
    (targets : list Z) :
  ∀ sources,
    (∀ s, s ∈ sources → is_Some (value s) ↔ is_Some (value' s)) →
    attempted value obj targets sources = attempted value' obj targets sources.
Proof.
  induction targets as [|t targets IH]; intros [|s sources] Hsame; try done.
  rewrite !attempted_cons.
  rewrite (IH sources) by (intros s' Hs'; apply Hsame; by right).
  destruct (Hsame s ltac:(by left)) as [H1 H2].
  destruct (value s) as [c|], (value' s) as [c'|]; try done.
  - by destruct (H1 ltac:(by eexists)).
  - by destruct (H2 ltac:(by eexists)).
Qed.

Lemma attempted_all {V} (value : Z → option V) (obj : string) (targets : list Z) :
  ∀ sources,
    (∀ s, s ∈ sources → is_Some (value s)) →
    attempted value obj targets sources
    = (fun t => (obj, t)) <$> take (length sources) targets.
Proof.
  induction targets as [|t targets IH]; intros [|s sources] Hall; try done.
  rewrite attempted_cons.
  destruct (Hall s) as [c ->]; [by left|]. simpl. rewrite IH; [done|].
  intros s' Hs'. apply Hall. by right.
Qed.

Lemma attempted_lookup {V} (value : Z → option V) (obj : string) (targets : list Z) :
  ∀ (sources : list Z) (i : nat) (t s : Z),
    NoDup targets →
    targets !! i = Some t → sources !! i = Some s →
    (obj, t) ∈ attempted value obj targets sources ↔ is_Some (value s).
Proof.
  induction targets as [|t0 targets IH]; intros [|s0 sources] i t s Hnd Ht Hs; try done.
  apply NoDup_cons in Hnd as [Hfresh Hnd].
  assert (∀ sources' t', (obj, t') ∈ attempted value obj targets sources' → t' ∈ targets)
    as Hsub.
  { clear. induction targets as [|t1 targets IH]; intros [|s1 sources'] t'; simpl;
      try (by intros ?%elem_of_nil).
    rewrite attempted_cons. destruct (value s1).
    - intros [[= ->]|Hin]%elem_of_cons; [by left|right; by eapply IH].
    - intros Hin. right. by eapply IH. }
  rewrite attempted_cons.
  destruct i as [|i]; simpl in Ht, Hs.
  - injection Ht as ->. injection Hs as ->.
    destruct (value s) as [c|].
    + split; [by eexists|]. intros _. by left.
    + split; [|by intros [? ?]]. intros Hin. exfalso. apply Hfresh. by eapply Hsub.
  - assert (t ≠ t0) as Hne.
    { intros ->. apply Hfresh. by eapply list_elem_of_lookup_2. }
    rewrite <- (IH sources i t s Hnd Ht Hs).
    destruct (value s0); [|done].
    rewrite elem_of_cons. split; [|by right]. intros [[= ->]|?]; done.
Qed.

(** A write the host refuses changes nothing. *)
Lemma write_all_locked (writes : list (UVComp * (float * float))) (uv : UVComp) :
  ∀ st : written,
    polyEditUV_locked (w_scene st) uv = true →
    polyEditUV_query (w_scene (write_all writes st)) uv = polyEditUV_query (w_scene st) uv.
Proof.
  induction writes as [|[uv' [u' v']] rest IH]; intros st Hlock; simpl; [done|].
  destruct (polyEditUV_set (w_scene st) uv' u' v') as [sc'|] eqn:Hset.
  - pose proof (polyEditUV_set_query _ _ _ _ _ Hset) as (_ & Hother & Hl & _).
    rewrite IH by (simpl; by rewrite Hl). simpl. apply Hother.
    intros ->. unfold polyEditUV_set in Hset. by rewrite Hlock in Hset.
  - by rewrite IH.
Qed.

(** * Further lemmas *)

(** ** Maps filled key by key *)

Lemma foldl_insert_keys_lookup {W} (f : Z → W) (ks : list Z) :
  ∀ (m0 : gmap Z W) (k : Z),
    foldl (fun m k => <[k := f k]> m) m0 ks !! k
    = if decide (k ∈ ks) then Some (f k) else m0 !! k.
Proof.
  induction ks as [|k0 ks IH]; intros m0 k; simpl.
  - done.
  - rewrite IH. destruct (decide (k ∈ ks)) as [Hin|Hnin].
    + by rewrite (decide_True (P := k ∈ k0 :: ks)) by (by right).
    + destruct (decide (k = k0)) as [->|Hne].
      * rewrite (decide_True (P := k0 ∈ k0 :: ks)) by (by left).
        by rewrite lookup_insert_eq.
      * rewrite (decide_False (P := k ∈ k0 :: ks)) by (by intros [?|?]%elem_of_cons).
        by rewrite lookup_insert_ne.
Qed.

Lemma mesh_mapping_lookup (sc : Scene) (mesh : string) (i : Z) :
  UVTransferTool.get_uv_to_vertex_mapping sc mesh !! i
  = if decide (0 ≤ i < polyEvaluate_uvcoord sc mesh)%Z
    then Some (anchor sc (mesh, i)) else None.
Proof.
  unfold UVTransferTool.get_uv_to_vertex_mapping.
  rewrite (foldl_insert_keys_lookup (fun uv_id => anchor sc (mesh, uv_id))).
  unfold range. destruct (decide (i ∈ seqZ 0 (polyEvaluate_uvcoord sc mesh))) as [Hin|Hnin].
  - apply elem_of_seqZ in Hin. by rewrite decide_True by lia.
  - rewrite elem_of_seqZ in Hnin. by rewrite decide_False by lia.
Qed.

(** ** Keys of a dict filled in order *)

Lemma od_keys_set_fresh {V} (k : Z) (v : V) (d : odict V) :
  k ∉ od_keys d → od_keys (od_set k v d) = od_keys d ++ [k].
Proof.
  unfold od_keys. induction d as [|[k0 v0] d IH]; simpl; intros Hk; [done|].
  apply not_elem_of_cons in Hk as [Hne Hk].
  rewrite decide_False by done. simpl. f_equal. by apply IH.
Qed.

Lemma foldl_read_coord_keys (sc : Scene) (mesh : string) (uv_ids : list Z) :
  ∀ d : odict (float * float),
    NoDup uv_ids →
    (∀ k, k ∈ uv_ids → k ∉ od_keys d) →
    od_keys (foldl (UVTransferTool.read_coord sc mesh) d uv_ids)
    = od_keys d ++ filter (fun k => is_Some (recorded sc mesh k)) uv_ids.
Proof.
  induction uv_ids as [|k0 ks IH]; intros d Hnd Hfresh.
  - simpl. by rewrite app_nil_r.
  - apply NoDup_cons in Hnd as [Hk0 Hnd].
    change (foldl (UVTransferTool.read_coord sc mesh) d (k0 :: ks))
      with (foldl (UVTransferTool.read_coord sc mesh)
              (UVTransferTool.read_coord sc mesh d k0) ks).
    rewrite read_coord_recorded, filter_cons.
    destruct (recorded sc mesh k0) as [c|] eqn:Hrec.
    + rewrite decide_True by eauto. rewrite IH; [|done|].
      * rewrite od_keys_set_fresh by (apply Hfresh; by left). by rewrite <- app_assoc.
      * intros k Hk [->|Hin]%od_keys_set; [done|].
        by apply (Hfresh k); [right|].
    + rewrite decide_False by (by intros [? ?]). apply IH; [done|].
      intros k Hk. apply Hfresh. by right.
Qed.

Lemma get_mesh_uv_data_keys (sc : Scene) (mesh : string) :
  od_keys (UVTransferTool.uv_data (UVTransferTool.get_mesh_uv_data sc mesh))
  = filter (fun k => is_Some (recorded sc mesh k)) (range (polyEvaluate_uvcoord sc mesh)).
Proof.
  simpl. rewrite foldl_read_coord_keys; [done|apply NoDup_seqZ|].
  intros k _. apply not_elem_of_nil.
Qed.

Lemma get_mesh_uv_data_get (sc : Scene) (mesh : string) (k : Z) :
  od_get k (UVTransferTool.uv_data (UVTransferTool.get_mesh_uv_data sc mesh))
  = if decide (0 ≤ k < polyEvaluate_uvcoord sc mesh)%Z then recorded sc mesh k else None.
Proof.
  simpl. rewrite foldl_read_coord_get. unfold range.
  destruct (decide (k ∈ seqZ 0 (polyEvaluate_uvcoord sc mesh))) as [Hin|Hnin].
  - apply elem_of_seqZ in Hin. rewrite decide_True by lia. by destruct (recorded sc mesh k).
  - rewrite elem_of_seqZ in Hnin. by rewrite decide_False by lia.
Qed.

(** ** One pasted mesh *)

Lemma mesh_paste_one_pass (source : UVTransferTool.mesh_data) (obj target_mesh : string)
    (b : UVTransferTool.batch) :
  UVTransferTool.target_mesh_of (UVTransferTool.scene b) obj = Some target_mesh →
  UVTransferTool.check_topology source
    (polyEvaluate_vertex (UVTransferTool.scene b) target_mesh)
    (polyEvaluate_face (UVTransferTool.scene b) target_mesh)
    (polyEvaluate_uvcoord (UVTransferTool.scene b) target_mesh) = None →
  UVTransferTool.scene (UVTransferTool.paste_one source obj b)
  = w_scene (write_all
               (mesh_writes (UVTransferTool.uv_data source) target_mesh
                  (target_order (UVTransferTool.scene b) target_mesh)
                  (UVTransferTool.sorted_uv_ids source))
               {| w_scene := UVTransferTool.scene b; w_applied := 0; w_refused := [] |})
  ∧ UVTransferTool.success_count (UVTransferTool.paste_one source obj b)
    = S (UVTransferTool.success_count b)
  ∧ UVTransferTool.failed_list (UVTransferTool.paste_one source obj b)
    = UVTransferTool.failed_list b.
Proof.
  intros Hmesh Hcheck. unfold UVTransferTool.paste_one. rewrite Hmesh, Hcheck. simpl.
  set (st := {| UVTransferTool.scene_after := UVTransferTool.scene b;
                UVTransferTool.apply_count := 0; UVTransferTool.error_count := 0 |}).
  fold (target_order (UVTransferTool.scene b) target_mesh).
  by rewrite (mesh_apply_coords_writes source target_mesh _ _ st []).
Qed.

Lemma target_order_NoDup (sc : Scene) (target_mesh : string) :
  NoDup (target_order sc target_mesh).
Proof. unfold target_order. rewrite sorted_perm. apply NoDup_seqZ. Qed.

(** A write of the value a point already has changes no coordinate. *)
Lemma write_all_same (writes : list (UVComp * (float * float))) :
  ∀ st : written,
    (∀ w, w ∈ writes → polyEditUV_query (w_scene st) w.1 = Some [w.2.1; w.2.2]) →
    ∀ uv, polyEditUV_query (w_scene (write_all writes st)) uv
          = polyEditUV_query (w_scene st) uv.
Proof.
  induction writes as [|[uv0 [u v]] rest IH]; intros st Hsame uv; simpl; [done|].
  assert (polyEditUV_query (w_scene st) uv0 = Some [u; v]) as H0
    by (apply (Hsame (uv0, (u, v))); by left).
  destruct (polyEditUV_set (w_scene st) uv0 u v) as [sc'|] eqn:Hset.
  - apply polyEditUV_set_query in Hset as (Hhere & Hother & _).
    assert (∀ x, polyEditUV_query sc' x = polyEditUV_query (w_scene st) x) as Heq.
    { intros x. destruct (decide (x = uv0)) as [->|Hne]; [by rewrite Hhere|by apply Hother]. }
    rewrite IH; simpl; [apply Heq|].
    intros w Hw. rewrite Heq. apply Hsame. by right.
  - rewrite IH; simpl; [done|]. intros w Hw. apply Hsame. by right.
Qed.

Lemma paired_writes_diag (value : Z → option (float * float)) (obj : string)
    (ids : list Z) (w : UVComp * (float * float)) :
  w ∈ paired_writes value obj ids ids →
  ∃ t, t ∈ ids ∧ w.1 = (obj, t) ∧ value t = Some w.2.
Proof.
  induction ids as [|t ids IH]; intros Hw; [by apply elem_of_nil in Hw|].
  rewrite paired_writes_cons in Hw.
  destruct (value t) as [c|] eqn:Hv.
  - apply elem_of_cons in Hw as [->|Hw].
    + exists t. split; [by left|done].
    + destruct (IH Hw) as (t' & ? & ? & ?). exists t'. split; [by right|done].
  - destruct (IH Hw) as (t' & ? & ? & ?). exists t'. split; [by right|done].
Qed.

Lemma target_mesh_of_same (sc sc' : Scene) (obj : string) :
  same_topology sc sc' →
  UVTransferTool.target_mesh_of sc' obj = UVTransferTool.target_mesh_of sc obj.
Proof.
  intros (_ & _ & _ & Hn & Hl & _). unfold UVTransferTool.target_mesh_of. by rewrite Hn, Hl.
Qed.

Lemma mesh_verdict_None (sc : Scene) (source : UVTransferTool.mesh_data) (obj : string) :
  mesh_verdict sc source obj = None →
  ∃ target_mesh,
    UVTransferTool.target_mesh_of sc obj = Some target_mesh
    ∧ UVTransferTool.check_topology source
        (polyEvaluate_vertex sc target_mesh) (polyEvaluate_face sc target_mesh)
        (polyEvaluate_uvcoord sc target_mesh) = None.
Proof.
  unfold mesh_verdict. destruct (UVTransferTool.target_mesh_of sc obj) as [tm|]; [|done].
  intros Hc. by exists tm.
Qed.

(** One object of a mesh paste writes to the UV points of its own mesh node
    only, and to none when it is turned down. *)
Lemma mesh_paste_one_frame (source : UVTransferTool.mesh_data) (obj : string)
    (b : UVTransferTool.batch) (uv : UVComp) :
  (mesh_verdict (UVTransferTool.scene b) source obj = None →
   UVTransferTool.target_mesh_of (UVTransferTool.scene b) obj ≠ Some uv.1) →
  polyEditUV_query (UVTransferTool.scene (UVTransferTool.paste_one source obj b)) uv
  = polyEditUV_query (UVTransferTool.scene b) uv.
Proof.
  intros Hother.
  destruct (mesh_paste_one_spec source obj b) as [_ Hone]. simpl in Hone.
  destruct (mesh_verdict (UVTransferTool.scene b) source obj) as [why|] eqn:Hv.
  - by rewrite Hone.
  - destruct (mesh_verdict_None _ _ _ Hv) as (tm & Htm & Hcheck).
    destruct (mesh_paste_one_pass source obj tm b Htm Hcheck) as (-> & _ & _).
    rewrite write_all_frame; [done|].
    intros (w & Hw1 & Hw2)%list_elem_of_fmap.
    apply paired_writes_targets in Hw2 as [Hobj _].
    apply Hother; [done|]. rewrite Htm. f_equal. by rewrite Hw1, Hobj.
Qed.

Lemma mesh_paste_loop_frame (sc : Scene) (source : UVTransferTool.mesh_data)
    (uv : UVComp) (selection : list string) :
  (∀ obj, obj ∈ selection → mesh_verdict sc source obj = None →
          UVTransferTool.target_mesh_of sc obj ≠ Some uv.1) →
  ∀ b : UVTransferTool.batch,
    same_topology sc (UVTransferTool.scene b) →
    polyEditUV_query
      (UVTransferTool.scene
         (foldl (fun b obj => UVTransferTool.paste_one source obj b) b selection)) uv
    = polyEditUV_query (UVTransferTool.scene b) uv.
Proof.
  induction selection as [|obj rest IH]; intros Hother b Hsame; simpl; [done|].
  destruct (mesh_paste_one_spec source obj b) as [Hstep _]. simpl in Hstep.
  rewrite IH.
  - apply mesh_paste_one_frame.
    rewrite (mesh_verdict_same sc), (target_mesh_of_same sc) by done.
    apply Hother. by left.
  - intros obj' Hin. apply Hother. by right.
  - by eapply same_topology_trans.
Qed.

Lemma recorded_is_Some (sc : Scene) (mesh : string) (i : Z) :
  is_Some (recorded sc mesh i)
  ↔ polyEditUV_query sc (mesh, i) = None
    ∨ ∃ u v coords, polyEditUV_query sc (mesh, i) = Some (u :: v :: coords).
Proof.
  unfold recorded.
  destruct (polyEditUV_query sc (mesh, i)) as [[|u [|v coords]]|]; split;
    try (by intros [? ?]); try (intros _; by eauto);
    try (intros [?|(? & ? & ? & ?)]; done);
    try (intros _; right; by eexists _, _, _).
Qed.

Lemma sorted_uv_ids_elem (sc : Scene) (mesh : string) (i : Z) :
  i ∈ UVTransferTool.sorted_uv_ids (UVTransferTool.get_mesh_uv_data sc mesh)
  ↔ (0 ≤ i < polyEvaluate_uvcoord sc mesh)%Z ∧ is_Some (recorded sc mesh i).
Proof.
  change (UVTransferTool.sorted_uv_ids (UVTransferTool.get_mesh_uv_data sc mesh))
    with (sorted (anchor_key (UVTransferTool.get_uv_to_vertex_mapping sc mesh))
            (od_keys (UVTransferTool.uv_data (UVTransferTool.get_mesh_uv_data sc mesh)))).
  rewrite sorted_perm, get_mesh_uv_data_keys, list_elem_of_filter.
  unfold range. rewrite elem_of_seqZ. split; intros [? ?]; (split; [done|lia]) || (split; [lia|done]).
Qed.

(** ** [sorted], once more *)

Lemma insert_by_key_ext {A} (key key' : A → Z) (x : A) (l : list A) :
  key x = key' x → (∀ y, y ∈ l → key y = key' y) →
  insert_by_key key x l = insert_by_key key' x l.
Proof.
  intros Hx. induction l as [|y l IH]; intros Hl; simpl; [done|].
  rewrite <- Hx, <- (Hl y) by (by left).
  destruct (key y <? key x)%Z; [|done]. f_equal. apply IH.
  intros z Hz. apply Hl. by right.
Qed.

Lemma sorted_ext {A} (key key' : A → Z) (l : list A) :
  (∀ x, x ∈ l → key x = key' x) → sorted key l = sorted key' l.
Proof.
  induction l as [|x l IH]; intros Hl; [done|].
  rewrite !sorted_cons, IH by (intros y Hy; apply Hl; by right).
  apply insert_by_key_ext; [apply Hl; by left|].
  intros y Hy. rewrite sorted_perm in Hy. apply Hl. by right.
Qed.

(** Where the keys tell the elements apart, the order of the input does not
    matter. *)
Lemma sorted_perm_unique {A} (key : A → Z) (l l' : list A) :
  l ≡ₚ l' →
  (∀ x y, x ∈ l → y ∈ l → key x = key y → x = y) →
  sorted key l = sorted key l'.
Proof.
  intros Hperm Hinj.
  apply (StronglySorted_unique_strong (key_le key)).
  - intros x y Hx Hy Hxy Hyx. rewrite sorted_perm in Hx. rewrite sorted_perm, <- Hperm in Hy.
    apply Hinj; [done..|]. unfold key_le in *. lia.
  - apply sorted_sorted.
  - apply sorted_sorted.
  - by rewrite !sorted_perm.
Qed.

(** ** The shell tool's anchors *)

Lemma shell_mapping_fold (sc : Scene) (obj : string) (uv_components : list UVComp) :
  (∀ uv, uv ∈ uv_components → uv.1 = obj) →
  ∀ m0 : gmap Z Z,
    foldl (fun m uv => <[uv.2 := anchor sc uv]> m) m0 uv_components
    = foldl (fun m k => <[k := anchor sc (obj, k)]> m) m0 (uv_components.*2).
Proof.
  induction uv_components as [|[o i] rest IH]; intros Hobj m0; simpl; [done|].
  rewrite IH by (intros uv' Huv'; apply Hobj; by right).
  by rewrite <- (Hobj (o, i)) by (by left).
Qed.

Lemma shell_mapping_lookup (sc : Scene) (obj : string) (uv_components : list UVComp) (k : Z) :
  (∀ uv, uv ∈ uv_components → uv.1 = obj) →
  UVShellCopyPasteTool.get_uv_to_vertex_mapping sc uv_components !! k
  = if decide (k ∈ uv_components.*2) then Some (anchor sc (obj, k)) else None.
Proof.
  intros Hobj. unfold UVShellCopyPasteTool.get_uv_to_vertex_mapping.
  rewrite (shell_mapping_fold sc obj) by done.
  by rewrite foldl_insert_keys_lookup, lookup_empty.
Qed.

Lemma get_uv_shell_data_mapping (sc : Scene) (uv_component : UVComp)
    (d : UVShellCopyPasteTool.shell_data) :
  UVShellCopyPasteTool.get_uv_shell_data sc uv_component = Ok (Some d) →
  UVShellCopyPasteTool.uv_to_vertex d
  = UVShellCopyPasteTool.get_uv_to_vertex_mapping sc (polySelectBorderShell sc uv_component).
Proof.
  unfold UVShellCopyPasteTool.get_uv_shell_data.
  destruct (polySelectBorderShell sc uv_component) as [|uv0 uvs] eqn:Hshell; [done|].
  destruct (UVShellCopyPasteTool.read_coords sc (uv0 :: uvs) [] []) as [[ids data]|e];
    [rewrite bind_Ok|by rewrite bind_Raise].
  by intros [= <-].
Qed.

(** On the points of a shell that lies on one object, the sort key is the
    anchor. *)
Lemma shell_anchor_key (sc : Scene) (uv_component : UVComp)
    (d : UVShellCopyPasteTool.shell_data) (k : Z) :
  UVShellCopyPasteTool.get_uv_shell_data sc uv_component = Ok (Some d) →
  (∀ uv, uv ∈ polySelectBorderShell sc uv_component → uv.1 = uv_component.1) →
  k ∈ UVShellCopyPasteTool.uv_ids d →
  anchor_key (UVShellCopyPasteTool.uv_to_vertex d) k = anchor sc (uv_component.1, k).
Proof.
  intros Hget Hobj Hk.
  rewrite (get_uv_shell_data_mapping _ _ _ Hget).
  apply get_uv_shell_data_Some in Hget as (_ & _ & Hids & _).
  unfold anchor_key. rewrite (shell_mapping_lookup sc uv_component.1) by done.
  rewrite Hids in Hk. by rewrite decide_True.
Qed.

(** ** What a shell paste leaves alone *)

Lemma shell_apply_coords_frame (source : UVShellCopyPasteTool.shell_data) (obj_name : string)
    (target_center : float * float) (uv : UVComp) (targets : list Z) :
  ∀ (sources : list Z) (st a : UVShellCopyPasteTool.applied),
    UVShellCopyPasteTool.apply_coords source obj_name target_center targets sources st = Ok a →
    uv.1 ≠ obj_name ∨ uv.2 ∉ targets →
    polyEditUV_query (UVShellCopyPasteTool.scene_after a) uv
    = polyEditUV_query (UVShellCopyPasteTool.scene_after st) uv.
Proof.
  induction targets as [|t targets IH]; intros sources st a Happly Hout.
  { simpl in Happly. by injection Happly as <-. }
  destruct sources as [|s sources].
  { simpl in Happly. by injection Happly as <-. }
  assert (uv ≠ (obj_name, t)) as Hne.
  { intros ->. destruct Hout as [Hout|Hout]; [done|]. apply Hout. by left. }
  assert (uv.1 ≠ obj_name ∨ uv.2 ∉ targets) as Hout'.
  { destruct Hout as [Hout|Hout]; [by left|]. right. intros Hin. apply Hout. by right. }
  simpl in Happly.
  destruct (UVShellCopyPasteTool.relative_coords source) as [rel|]; [|done].
  destruct (rel !! s) as [rel_coords|]; [|by eapply IH].
  destruct (polyEditUV_set _ _ _ _) as [sc'|] eqn:Hset.
  - rewrite (IH _ _ _ Happly Hout'). simpl.
    apply polyEditUV_set_query in Hset as (_ & Hother & _). by apply Hother.
  - by rewrite (IH _ _ _ Happly Hout').
Qed.

Lemma shell_verdict_data (sc : Scene) (source : UVShellCopyPasteTool.shell_data)
    (match_topology : bool) (uv_shell : UVComp) (target : UVShellCopyPasteTool.shell_data) :
  UVShellCopyPasteTool.get_uv_shell_data sc uv_shell = Ok (Some target) →
  shell_verdict sc source match_topology uv_shell
  = (fun why => (Some uv_shell.1, why))
    <$> UVShellCopyPasteTool.check_uv_count match_topology
          (UVShellCopyPasteTool.uv_count target) (UVShellCopyPasteTool.uv_count source).
Proof.
  intros Hget. apply get_uv_shell_data_Some in Hget as (Hne & _ & _ & Hcount & _).
  unfold shell_verdict. rewrite Hcount.
  by destruct (polySelectBorderShell sc uv_shell).
Qed.

Lemma shell_paste_one_frame (source : UVShellCopyPasteTool.shell_data) (match_topology : bool)
    (idx : nat) (uv_shell : UVComp) (b b' : UVShellCopyPasteTool.batch) (uv : UVComp) :
  UVShellCopyPasteTool.paste_one source match_topology idx uv_shell b = Ok b' →
  (shell_verdict (UVShellCopyPasteTool.scene b) source match_topology uv_shell = None →
   uv.1 ≠ uv_shell.1
   ∨ uv.2 ∉ (polySelectBorderShell (UVShellCopyPasteTool.scene b) uv_shell).*2) →
  polyEditUV_query (UVShellCopyPasteTool.scene b') uv
  = polyEditUV_query (UVShellCopyPasteTool.scene b) uv.
Proof.
  unfold UVShellCopyPasteTool.paste_one.
  destruct (UVShellCopyPasteTool.get_uv_shell_data (UVShellCopyPasteTool.scene b) uv_shell)
    as [[target|]|e] eqn:Hget; [rewrite bind_Ok| |by rewrite bind_Raise].
  - rewrite (shell_verdict_data _ source match_topology _ _ Hget).
    destruct (UVShellCopyPasteTool.check_uv_count _ _ _) as [why|].
    { by intros [= <-] _. }
    destruct (UVShellCopyPasteTool.centroid _) as [c|e]; [rewrite bind_Ok|by rewrite bind_Raise].
    destruct (UVShellCopyPasteTool.apply_coords _ _ _ _ _ _) as [a|e] eqn:Happly;
      [rewrite bind_Ok|by rewrite bind_Raise].
    intros [= <-] Hout. simpl.
    rewrite (shell_apply_coords_frame _ _ _ uv _ _ _ _ Happly); [done|].
    apply get_uv_shell_data_Some in Hget as (_ & Hobj & Hids & _ & Hsorted & _).
    rewrite Hobj, Hsorted, sorted_perm, Hids. by apply Hout.
  - rewrite bind_Ok. by intros [= <-] _.
Qed.

Lemma shell_paste_loop_frame (sc : Scene) (source : UVShellCopyPasteTool.shell_data)
    (match_topology : bool) (uv : UVComp) (uv_shells : list UVComp) :
  (∀ uv_shell, uv_shell ∈ uv_shells →
     shell_verdict sc source match_topology uv_shell = None →
     uv.1 ≠ uv_shell.1 ∨ uv.2 ∉ (polySelectBorderShell sc uv_shell).*2) →
  ∀ (idx : nat) (b b' : UVShellCopyPasteTool.batch),
    same_topology sc (UVShellCopyPasteTool.scene b) →
    UVShellCopyPasteTool.paste_loop source match_topology idx uv_shells b = Ok b' →
    polyEditUV_query (UVShellCopyPasteTool.scene b') uv
    = polyEditUV_query (UVShellCopyPasteTool.scene b) uv.
Proof.
  induction uv_shells as [|uv_shell rest IH]; intros Hout idx b b' Hsame.
  { simpl. by intros [= <-]. }
  rewrite paste_loop_cons.
  destruct (UVShellCopyPasteTool.paste_one source match_topology idx uv_shell b)
    as [b1|e] eqn:Hone; [rewrite bind_Ok|by rewrite bind_Raise].
  intros Hloop.
  pose proof (shell_paste_one_spec _ _ _ _ _ _ Hone) as (Hsame1 & _ & _).
  rewrite (IH (fun s Hs => Hout s (proj2 (elem_of_cons _ _ _) (or_intror Hs))) _ _ _
              (same_topology_trans _ _ _ Hsame Hsame1) Hloop).
  apply (shell_paste_one_frame _ _ _ _ _ _ _ Hone).
  rewrite (shell_verdict_same _ _ _ _ _ Hsame).
  destruct Hsame as (_ & -> & _).
  apply Hout. by left.
Qed.

(** ** The representatives [get_selected_uv_shells] collects *)

Lemma collect_shells_acc (sc : Scene) (uv_components : list UVComp) :
  ∀ (processed_uvs : gset UVComp) (all_uv_shells : list UVComp),
    UVShellCopyPasteTool.collect_shells sc uv_components processed_uvs all_uv_shells
    = all_uv_shells ++ UVShellCopyPasteTool.collect_shells sc uv_components processed_uvs [].
Proof.
  induction uv_components as [|uv rest IH]; intros processed acc; simpl.
  { by rewrite app_nil_r. }
  destruct (decide (uv ∈ processed)); [apply IH|].
  destruct (polySelectBorderShell sc uv) as [|first others]; [apply IH|].
  rewrite IH, (IH _ ([] ++ [first])). by rewrite <- app_assoc.
Qed.

Lemma get_selected_uv_shells_head (sc : Scene) (selection : list component)
    (uv0 first : UVComp) (more others : list UVComp) :
  filterExpand_uv selection = uv0 :: more →
  polySelectBorderShell sc uv0 = first :: others →
  ∃ rest, UVShellCopyPasteTool.get_selected_uv_shells sc selection = Some (first :: rest).
Proof.
  intros Hsel Hshell. unfold UVShellCopyPasteTool.get_selected_uv_shells.
  destruct selection as [|c selection]; [done|]. rewrite Hsel.
  simpl. rewrite decide_False by set_solver. rewrite Hshell, collect_shells_acc.
  simpl. by eexists.
Qed.

(** ** Positions past the end of the source order *)

Lemma paired_writes_targets_take (value : Z → option (float * float)) (obj : string)
    (targets : list Z) :
  ∀ (sources : list Z) (w : UVComp * (float * float)),
    w ∈ paired_writes value obj targets sources →
    w.1.1 = obj ∧ w.1.2 ∈ take (length sources) targets.
Proof.
  induction targets as [|t targets IH]; intros [|s sources] w; try (by intros ?%elem_of_nil).
  rewrite paired_writes_cons. simpl.
  destruct (value s) as [c|].
  - intros [->|Hin]%elem_of_cons.
    + split; [done|by left].
    + destruct (IH _ _ Hin). split; [done|by right].
  - intros Hin. destruct (IH _ _ Hin). split; [done|by right].
Qed.

Lemma take_lookup_ge_NoDup {A} (l : list A) (n i : nat) (x : A) :
  NoDup l → l !! i = Some x → n ≤ i → x ∉ take n l.
Proof.
  intros Hnd Hx Hle [j Hj]%list_elem_of_lookup.
  apply lookup_take_Some in Hj as [Hj Hlt].
  pose proof (NoDup_lookup _ _ _ _ Hnd Hx Hj). lia.
Qed.

Lemma shell_apply_coords_frame_take (source : UVShellCopyPasteTool.shell_data)
    (obj_name : string) (target_center : float * float) (uv : UVComp) (targets : list Z) :
  ∀ (sources : list Z) (st a : UVShellCopyPasteTool.applied),
    UVShellCopyPasteTool.apply_coords source obj_name target_center targets sources st = Ok a →
    uv.2 ∉ take (length sources) targets →
    polyEditUV_query (UVShellCopyPasteTool.scene_after a) uv
    = polyEditUV_query (UVShellCopyPasteTool.scene_after st) uv.
Proof.
  induction targets as [|t targets IH]; intros sources st a Happly Hout.
  { simpl in Happly. by injection Happly as <-. }
  destruct sources as [|s sources].
  { simpl in Happly. by injection Happly as <-. }
  simpl in Hout.
  assert (uv ≠ (obj_name, t)) as Hne.
  { intros ->. apply Hout. by left. }
  assert (uv.2 ∉ take (length sources) targets) as Hout'.
  { intros Hin. apply Hout. by right. }
  simpl in Happly.
  destruct (UVShellCopyPasteTool.relative_coords source) as [rel|]; [|done].
  destruct (rel !! s) as [rel_coords|]; [|by eapply IH].
  destruct (polyEditUV_set _ _ _ _) as [sc'|] eqn:Hset.
  - rewrite (IH _ _ _ Happly Hout'). simpl.
    apply polyEditUV_set_query in Hset as (_ & Hother & _). by apply Hother.
  - by rewrite (IH _ _ _ Happly Hout').
Qed.

(** ** Exceptions of the shell tool *)

Lemma read_coords_unreadable (sc : Scene) (uv : UVComp) (uv_components : list UVComp) :
  uv ∈ uv_components →
  polyEditUV_query sc uv = None →
  ∀ (ids : list Z) (data : odict (float * float)),
    UVShellCopyPasteTool.read_coords sc uv_components ids data = Raise RuntimeError.
Proof.
  intros Hin Hq. induction uv_components as [|uv0 rest IH]; intros ids data.
  { by apply elem_of_nil in Hin. }
  simpl. apply elem_of_cons in Hin as [<-|Hin]; [by rewrite Hq|].
  destruct (polyEditUV_query sc uv0) as [[|u [|v coords]]|]; try done; by apply IH.
Qed.

Lemma read_coords_Raise (sc : Scene) (uv_components : list UVComp) (e : exn) :
  ∀ (ids : list Z) (data : odict (float * float)),
    UVShellCopyPasteTool.read_coords sc uv_components ids data = Raise e →
    e = RuntimeError.
Proof.
  induction uv_components as [|uv0 rest IH]; intros ids data; simpl; [done|].
  destruct (polyEditUV_query sc uv0) as [[|u [|v coords]]|]; try (by apply IH).
  by intros [= <-].
Qed.

Lemma get_uv_shell_data_unreadable (sc : Scene) (uv_component uv : UVComp) :
  uv ∈ polySelectBorderShell sc uv_component →
  polyEditUV_query sc uv = None →
  UVShellCopyPasteTool.get_uv_shell_data sc uv_component = Raise RuntimeError.
Proof.
  intros Hin Hq. unfold UVShellCopyPasteTool.get_uv_shell_data.
  destruct (polySelectBorderShell sc uv_component) as [|uv0 uvs] eqn:Hshell.
  { by apply elem_of_nil in Hin. }
  by rewrite (read_coords_unreadable sc uv (uv0 :: uvs) Hin Hq), bind_Raise.
Qed.

Lemma get_uv_shell_data_Raise (sc : Scene) (uv_component : UVComp) (e : exn) :
  UVShellCopyPasteTool.get_uv_shell_data sc uv_component = Raise e → e = RuntimeError.
Proof.
  unfold UVShellCopyPasteTool.get_uv_shell_data.
  destruct (polySelectBorderShell sc uv_component) as [|uv0 uvs]; [done|].
  destruct (UVShellCopyPasteTool.read_coords sc (uv0 :: uvs) [] []) as [[ids data]|e'] eqn:Hread;
    [by rewrite bind_Ok|rewrite bind_Raise].
  intros [= <-]. by eapply read_coords_Raise.
Qed.

Lemma paste_loop_app (source : UVShellCopyPasteTool.shell_data) (match_topology : bool)
    (pre post : list UVComp) :
  ∀ (idx : nat) (b : UVShellCopyPasteTool.batch),
    UVShellCopyPasteTool.paste_loop source match_topology idx (pre ++ post) b
    = UVShellCopyPasteTool.paste_loop source match_topology idx pre b
      ≫= UVShellCopyPasteTool.paste_loop source match_topology (idx + length pre) post.
Proof.
  induction pre as [|uv_shell pre IH]; intros idx b.
  { rewrite app_nil_l. change (UVShellCopyPasteTool.paste_loop source match_topology idx [] b)
      with (Ok b). rewrite bind_Ok. simpl. by rewrite Nat.add_0_r. }
  rewrite <- app_comm_cons, !paste_loop_cons.
  destruct (UVShellCopyPasteTool.paste_one source match_topology idx uv_shell b) as [b1|e];
    [rewrite !bind_Ok|by rewrite !bind_Raise].
  rewrite IH. simpl. by rewrite Nat.add_succ_r.
Qed.

Lemma shell_paste_loop_same (source : UVShellCopyPasteTool.shell_data) (match_topology : bool)
    (uv_shells : list UVComp) :
  ∀ (idx : nat) (b b' : UVShellCopyPasteTool.batch),
    UVShellCopyPasteTool.paste_loop source match_topology idx uv_shells b = Ok b' →
    same_topology (UVShellCopyPasteTool.scene b) (UVShellCopyPasteTool.scene b').
Proof.
  induction uv_shells as [|uv_shell rest IH]; intros idx b b'.
  { simpl. intros [= <-]. apply same_topology_refl. }
  rewrite paste_loop_cons.
  destruct (UVShellCopyPasteTool.paste_one source match_topology idx uv_shell b)
    as [b1|e] eqn:Hone; [rewrite bind_Ok|by rewrite bind_Raise].
  intros Hloop. apply shell_paste_one_spec in Hone as (Hsame & _).
  eapply same_topology_trans; [done|]. by eapply IH.
Qed.

Lemma get_uv_shell_data_fresh (sc : Scene) (uv_component : UVComp)
    (d : UVShellCopyPasteTool.shell_data) :
  UVShellCopyPasteTool.get_uv_shell_data sc uv_component = Ok (Some d) →
  UVShellCopyPasteTool.center d = None
  ∧ UVShellCopyPasteTool.relative_coords d = None
  ∧ UVShellCopyPasteTool.sorted_ids d ≠ [].
Proof.
  intros Hget.
  pose proof (get_uv_shell_data_Some _ _ _ Hget) as (Hne & _ & Hids & _ & Hsorted & _).
  assert (UVShellCopyPasteTool.sorted_ids d ≠ []) as Hnonempty.
  { intros Hnil. apply Hne, fmap_nil_inv with (f := snd). rewrite <- Hids.
    apply Permutation_nil_r.
    rewrite <- (sorted_perm (anchor_key (UVShellCopyPasteTool.uv_to_vertex d))
                  (UVShellCopyPasteTool.uv_ids d)).
    by rewrite <- Hsorted, Hnil. }
  revert Hget. unfold UVShellCopyPasteTool.get_uv_shell_data.
  destruct (polySelectBorderShell sc uv_component) as [|uv0 uvs]; [done|].
  destruct (UVShellCopyPasteTool.read_coords sc (uv0 :: uvs) [] []) as [[ids data]|e];
    [rewrite bind_Ok|by rewrite bind_Raise].
  intros [= Hd]. by rewrite <- Hd in *.
Qed.

(** ** The end of a paste *)

Lemma length_filter_0 {A} (P : A → Prop) `{!∀ x, Decision (P x)} (l : list A) :
  length (filter P l) = 0 ↔ ∀ x, x ∈ l → ¬ P x.
Proof.
  split.
  - intros Hlen%nil_length_inv x Hx HP. by eapply filter_nil_not_elem_of.
  - intros Hall. induction l as [|x l IH]; [done|].
    rewrite filter_cons_False by (apply Hall; by left).
    apply IH. intros y Hy. apply Hall. by right.
Qed.

Lemma length_filter_all {A} (P : A → Prop) `{!∀ x, Decision (P x)} (l : list A) :
  length (filter P l) = length l ↔ ∀ x, x ∈ l → P x.
Proof.
  split.
  - intros Hlen x Hx. destruct (decide (P x)) as [|Hn]; [done|].
    pose proof (length_filter_lt P l x Hx Hn). lia.
  - intros Hall. by rewrite filter_all.
Qed.

Lemma paste_summary_spec {A F} (P : A → Prop) `{!∀ x, Decision (P x)}
    (l : list A) (failed_list : list F) (success_count : nat) :
  success_count = length (filter P l) →
  success_count + length failed_list = length l →
  ((paste_summary success_count failed_list).1 = true ↔ ∃ x, x ∈ l ∧ P x)
  ∧ ((paste_summary success_count failed_list).2 = StatusAllFailed ↔ ∀ x, x ∈ l → ¬ P x)
  ∧ (∀ n, (paste_summary success_count failed_list).2 = StatusPasted n
          ↔ l ≠ [] ∧ n = length l ∧ ∀ x, x ∈ l → P x)
  ∧ (∀ n m, (paste_summary success_count failed_list).2 = StatusPartial n m
            ↔ 0 < n ∧ 0 < m ∧ n = length (filter P l) ∧ n + m = length l).
Proof.
  intros Hs Htotal. unfold paste_summary.
  pose proof (length_filter_0 P l) as H0. pose proof (length_filter_all P l) as Hall.
  rewrite <- Hs in H0, Hall.
  destruct success_count as [|k]; simpl.
  - split_and!.
    + split; [done|]. intros (x & Hx & HP). exfalso. by apply (proj1 H0 eq_refl x).
    + split; [intros _; by apply H0|done].
    + intros n. split; [done|]. intros (Hne & _ & HP). apply Hall in HP.
      destruct l; [done|]. simpl in HP. lia.
    + intros n m. split; [done|]. intros (Hn & _ & -> & _). rewrite <- Hs in Hn. lia.
  - split_and!.
    + split; [|done]. intros _.
      destruct (filter P l) as [|x xs] eqn:Hf; [done|].
      exists x. assert (x ∈ filter P l) as Hx by (rewrite Hf; by left).
      apply list_elem_of_filter in Hx as [? ?]. done.
    + split; [by destruct failed_list|]. intros Hnone%H0. lia.
    + intros n. destruct failed_list as [|f fl]; simpl in *.
      * split.
        -- intros [= <-]. split; [by intros ->|]. split; [lia|]. apply Hall. lia.
        -- intros (_ & -> & _). f_equal. lia.
      * split; [done|]. intros (_ & _ & HP%Hall). lia.
    + intros n m. destruct failed_list as [|f fl]; simpl in *.
      * split; [done|]. intros (_ & Hm & -> & Hsum). rewrite <- Hs in Hsum. lia.
      * split.
        -- intros [= <- <-]. rewrite <- Hs. simpl. lia.
        -- intros (_ & _ & -> & Hsum). rewrite <- Hs in *. f_equal; lia.
Qed.

(** ** Where a snap puts the points *)

Lemma collect_points_spec (sc : Scene) (target_uvs : list UVComp) :
  ∀ target_points,
    Maya_UV_Snap.collect_points sc target_uvs = Ok target_points →
    ∀ p, p ∈ target_points →
         ∃ t, t ∈ target_uvs ∧ polyEditUV_query sc t = Some [p.1; p.2].
Proof.
  induction target_uvs as [|t rest IH]; intros pts; simpl.
  { intros [= <-] p Hp. by apply elem_of_nil in Hp. }
  destruct (Maya_UV_Snap.query_pair sc t) as [[u v]|e] eqn:Hq;
    [rewrite bind_Ok|by rewrite bind_Raise].
  destruct (Maya_UV_Snap.collect_points sc rest) as [ps|e];
    [rewrite bind_Ok|by rewrite bind_Raise].
  intros [= <-] p [->|Hp]%elem_of_cons.
  - exists t. split; [by left|]. unfold Maya_UV_Snap.query_pair in Hq.
    destruct (polyEditUV_query sc t) as [[|u' [|v' [|? ?]]]|]; try done.
    by injection Hq as -> ->.
  - destruct (IH ps eq_refl p Hp) as (t' & Ht' & Hq'). exists t'. split; [by right|done].
Qed.

Section snap_moves.
Context (float_pow2 : float → result float).

Lemma scan_nearest_mem (u v : float) (target_points : list (float * float)) :
  ∀ (min0 min_dist : float) (near0 : option (float * float)) (p : float * float),
    Maya_UV_Snap.scan float_pow2 u v target_points min0 near0 = Ok (min_dist, Some p) →
    near0 = Some p ∨ p ∈ target_points.
Proof.
  induction target_points as [|[tu tv] rest IH]; intros min0 min_dist near0 p.
  { intros [= _ ->]. by left. }
  cbn [Maya_UV_Snap.scan].
  destruct (Maya_UV_Snap.distance float_pow2 u v tu tv) as [dist|e];
    [rewrite bind_Ok|by rewrite bind_Raise].
  destruct (PrimFloat.ltb dist min0); intros Hscan; apply IH in Hscan as [Hnear|Hin].
  - injection Hnear as <-. right. by left.
  - right. by right.
  - by left.
  - right. by right.
Qed.

Lemma snap_one_moves (target_uvs : list UVComp) (target_points : list (float * float))
    (thr : float) (uv : UVComp) (sc sc' : Scene) (log log' : list Maya_UV_Snap.event) :
  Maya_UV_Snap.snap_one float_pow2 target_uvs target_points thr uv (sc, log) = Ok (sc', log') →
  ∀ x, polyEditUV_query sc' x = polyEditUV_query sc x
       ∨ (x = uv ∧ (uv ∉ target_uvs)
          ∧ ∃ p, p ∈ target_points ∧ polyEditUV_query sc' x = Some [p.1; p.2]).
Proof.
  unfold Maya_UV_Snap.snap_one.
  destruct (decide (uv ∈ target_uvs)) as [|Hout]; [intros [= <- _]; by left|].
  destruct (Maya_UV_Snap.query_pair sc uv) as [[u v]|e];
    [rewrite bind_Ok|by rewrite bind_Raise].
  destruct (Maya_UV_Snap.scan float_pow2 u v target_points infinity None)
    as [[min_dist [p|]]|e] eqn:Hscan; rewrite ?bind_Ok, ?bind_Raise; [| |done].
  2:{ intros [= <- _]. by left. }
  apply scan_nearest_mem in Hscan as [?|Hp]; [done|].
  destruct (PrimFloat.leb min_dist thr); [|intros [= <- _]; by left].
  destruct (polyEditUV_set sc uv p.1 p.2) as [sc1|] eqn:Hset; [|done].
  intros [= <- _] x.
  apply polyEditUV_set_query in Hset as (Hself & Hother & _).
  destruct (decide (x = uv)) as [->|Hne]; [|left; by apply Hother].
  right. split; [done|]. split; [done|]. by exists p.
Qed.

Lemma snap_loop_moves (target_uvs : list UVComp) (target_points : list (float * float))
    (thr : float) (source_uvs : list UVComp) :
  ∀ (sc sc' : Scene) (log log' : list Maya_UV_Snap.event),
    Maya_UV_Snap.snap_loop float_pow2 target_uvs target_points thr source_uvs (sc, log)
    = Ok (sc', log') →
    ∀ x, polyEditUV_query sc' x = polyEditUV_query sc x
         ∨ (x ∈ source_uvs ∧ (x ∉ target_uvs)
            ∧ ∃ p, p ∈ target_points ∧ polyEditUV_query sc' x = Some [p.1; p.2]).
Proof.
  induction source_uvs as [|uv rest IH]; intros sc sc' log log'.
  { simpl. intros [= <- _] x. by left. }
  rewrite snap_loop_cons.
  destruct (Maya_UV_Snap.snap_one float_pow2 target_uvs target_points thr uv (sc, log))
    as [[sc1 log1]|e] eqn:Hone; [rewrite bind_Ok|by rewrite bind_Raise].
  intros Hloop x.
  destruct (IH _ _ _ _ Hloop x) as [Hsame|(Hin & Hout & Hp)].
  - destruct (snap_one_moves _ _ _ _ _ _ _ _ Hone x) as [Hsame1|(-> & Hout & p & Hp & Hq)].
    + left. by rewrite Hsame.
    + right. split; [by left|]. split; [done|]. exists p. split; [done|]. by rewrite Hsame.
  - right. split; [by right|]. done.
Qed.

End snap_moves.

(** ** The order of the floats, once more *)

Lemma SFltb_SFleb_false (x y : SpecFloat.spec_float) :
  SpecFloat.SFltb x y = true → SpecFloat.SFleb y x = false.
Proof.
  unfold SpecFloat.SFltb, SpecFloat.SFleb.
  destruct x as [sx|sx| |sx mx ex], y as [sy|sy| |sy my ey];
    simpl; try done;
    try (destruct sx; try done); try (destruct sy; try done).
  all: destruct (Z.compare_spec ex ey), (Z.compare_spec ey ex); try done; try lia; subst.
  all: fold (Pos.compare mx my); fold (Pos.compare my mx).
  all: destruct (Pos.compare_spec mx my), (Pos.compare_spec my mx); simpl; try done; try lia.
Qed.

Lemma SFleb_SFltb_trans (x y z : SpecFloat.spec_float) :
  SpecFloat.SFleb x y = true → SpecFloat.SFltb y z = true → SpecFloat.SFltb x z = true.
Proof.
  unfold SpecFloat.SFltb, SpecFloat.SFleb.
  destruct x as [sx|sx| |sx mx ex], y as [sy|sy| |sy my ey], z as [sz|sz| |sz mz ez];
    simpl; try done;
    try (destruct sx; try done); try (destruct sy; try done); try (destruct sz; try done).
  all: destruct (Z.compare_spec ex ey), (Z.compare_spec ey ez), (Z.compare_spec ex ez);
    try done; try lia; subst.
  all: fold (Pos.compare mx my); fold (Pos.compare my mz); fold (Pos.compare mx mz).
  all: destruct (Pos.compare_spec mx my), (Pos.compare_spec my mz), (Pos.compare_spec mx mz);
    simpl; try done; try lia.
Qed.

Lemma float_ltb_leb_false (x y : float) :
  PrimFloat.ltb x y = true → PrimFloat.leb y x = false.
Proof. rewrite FloatAxioms.ltb_spec, FloatAxioms.leb_spec. apply SFltb_SFleb_false. Qed.

Lemma float_leb_ltb_trans (x y z : float) :
  PrimFloat.leb x y = true → PrimFloat.ltb y z = true → PrimFloat.ltb x z = true.
Proof. rewrite !FloatAxioms.ltb_spec, FloatAxioms.leb_spec. apply SFleb_SFltb_trans. Qed.

(** The nearest point [scan] returns is the first of the nearest ones: every
    point listed before it is strictly farther (or at no comparable
    distance), and no point listed after it is strictly closer. *)
Lemma scan_first (float_pow2 : float → result float) (u v : float)
    (target_points : list (float * float)) :
  ∀ (min0 min_dist : float) (near0 nearest_point : option (float * float)),
    Maya_UV_Snap.scan float_pow2 u v target_points min0 near0 = Ok (min_dist, nearest_point) →
    (min_dist = min0 ∧ nearest_point = near0)
    ∨ (∃ before p after,
         target_points = before ++ p :: after
         ∧ nearest_point = Some p
         ∧ Maya_UV_Snap.distance float_pow2 u v p.1 p.2 = Ok min_dist
         ∧ PrimFloat.ltb min_dist min0 = true
         ∧ (∀ q, q ∈ before →
                 ∃ dq, Maya_UV_Snap.distance float_pow2 u v q.1 q.2 = Ok dq
                       ∧ PrimFloat.leb dq min_dist = false)
         ∧ (∀ q, q ∈ after →
                 ∃ dq, Maya_UV_Snap.distance float_pow2 u v q.1 q.2 = Ok dq
                       ∧ PrimFloat.ltb dq min_dist = false)).
Proof.
  induction target_points as [|[tu tv] rest IH]; intros min0 min_dist near0 nearest_point.
  { intros [= <- <-]. by left. }
  cbn [Maya_UV_Snap.scan].
  destruct (Maya_UV_Snap.distance float_pow2 u v tu tv) as [dist|e] eqn:Hdist;
    [rewrite bind_Ok|by rewrite bind_Raise].
  destruct (PrimFloat.ltb dist min0) eqn:Hlt; intros Hscan.
  - right.
    destruct (IH _ _ _ _ Hscan)
      as [[-> ->]|(before & p & after & -> & -> & Hp & Hpm & Hbefore & Hafter)].
    + exists [], (tu, tv), rest. split_and!; try done.
      * by intros q ?%elem_of_nil.
      * clear IH Hdist Hlt. revert Hscan. generalize (Some (tu, tv)). intros near.
        revert near. induction rest as [|[ru rv] rest IH]; intros near Hscan q Hq.
        { by apply elem_of_nil in Hq. }
        cbn [Maya_UV_Snap.scan] in Hscan.
        destruct (Maya_UV_Snap.distance float_pow2 u v ru rv) as [dr|e] eqn:Hdr;
          [rewrite bind_Ok in Hscan|by rewrite bind_Raise in Hscan].
        destruct (PrimFloat.ltb dr dist) eqn:Hrlt.
        -- exfalso. clear IH Hq.
           assert (∀ l m0 n0 m n, Maya_UV_Snap.scan float_pow2 u v l m0 n0 = Ok (m, n) →
                     m = m0 ∨ PrimFloat.ltb m m0 = true) as Hdec.
           { clear. induction l as [|[lu lv] l IHl]; intros m0 n0 m n.
             - intros [= <- _]. by left.
             - cbn [Maya_UV_Snap.scan].
               destruct (Maya_UV_Snap.distance float_pow2 u v lu lv) as [dl|e];
                 [rewrite bind_Ok|by rewrite bind_Raise].
               destruct (PrimFloat.ltb dl m0) eqn:Hl; intros Hs.
               + right. destruct (IHl _ _ _ _ Hs) as [->|Hm]; [done|].
                 by eapply float_ltb_trans.
               + by eapply IHl. }
           destruct (Hdec _ _ _ _ _ Hscan) as [Heq|Hm].
           ++ rewrite Heq in Hrlt. by rewrite float_ltb_irrefl in Hrlt.
           ++ pose proof (float_ltb_trans _ _ _ Hrlt Hm) as Hbad.
              by rewrite float_ltb_irrefl in Hbad.
        -- apply elem_of_cons in Hq as [->|Hq].
           ++ exists dr. by split.
           ++ by eapply IH.
    + exists ((tu, tv) :: before), p, after. split_and!; try done.
      * by eapply float_ltb_trans.
      * intros q [->|Hq]%elem_of_cons; [|by apply Hbefore].
        exists dist. split; [done|]. by apply float_ltb_leb_false.
  - destruct (IH _ _ _ _ Hscan)
      as [[-> ->]|(before & p & after & -> & -> & Hp & Hpm & Hbefore & Hafter)].
    + by left.
    + right. exists ((tu, tv) :: before), p, after. split_and!; try done.
      intros q [->|Hq]%elem_of_cons; [|by apply Hbefore].
      exists dist. split; [done|].
      destruct (PrimFloat.leb dist min_dist) eqn:Hle; [|done].
      by rewrite (float_leb_ltb_trans _ _ _ Hle Hpm) in Hlt.
Qed.

(** ** Short names *)

Lemma last_segment_from_plain (s : string) :
  "|"%char ∉ list_ascii_of_string s →
  ∀ acc, last_segment_from acc s = String.rev_app acc s.
Proof.
  induction s as [|c s IH]; intros Hbar acc; simpl; [done|].
  simpl in Hbar. apply not_elem_of_cons in Hbar as [Hc Hs].
  destruct (Ascii.eqb_spec c "|") as [->|_]; [done|].
  by rewrite IH.
Qed.

Lemma last_segment_from_bar (prefix s : string) :
  ∀ acc, last_segment_from acc (prefix +:+ String "|" s) = last_segment_from EmptyString s.
Proof.
  induction prefix as [|c prefix IH]; intros acc; simpl; [done|].
  destruct (Ascii.eqb c "|"); apply IH.
Qed.

(** ** Pasting twice *)

Lemma target_order_same (sc sc' : Scene) (target_mesh : string) :
  same_topology sc sc' → target_order sc' target_mesh = target_order sc target_mesh.
Proof.
  intros (_ & _ & Hconv & _ & _ & _ & _ & Huv).
  unfold target_order, UVTransferTool.get_uv_to_vertex_mapping, anchor.
  by rewrite Hconv, Huv.
Qed.

Lemma write_all_noop (writes : list (UVComp * (float * float))) :
  ∀ st : written,
    (∀ w, w ∈ writes →
          polyEditUV_locked (w_scene st) w.1 = true
          ∨ polyEditUV_query (w_scene st) w.1 = Some [w.2.1; w.2.2]) →
    ∀ uv, polyEditUV_query (w_scene (write_all writes st)) uv
          = polyEditUV_query (w_scene st) uv.
Proof.
  induction writes as [|[uv0 [u v]] rest IH]; intros st Hsame uv; simpl; [done|].
  destruct (polyEditUV_set (w_scene st) uv0 u v) as [sc'|] eqn:Hset.
  - assert (polyEditUV_locked (w_scene st) uv0 = false) as Hfree.
    { unfold polyEditUV_set in Hset. by destruct (polyEditUV_locked (w_scene st) uv0). }
    assert (polyEditUV_query (w_scene st) uv0 = Some [u; v]) as H0.
    { destruct (Hsame (uv0, (u, v))) as [Hl|Hq]; [by left| |done].
      simpl in Hl. by rewrite Hl in Hfree. }
    apply polyEditUV_set_query in Hset as (Hhere & Hother & Hlock & _).
    assert (∀ x, polyEditUV_query sc' x = polyEditUV_query (w_scene st) x) as Heq.
    { intros x. destruct (decide (x = uv0)) as [->|Hne]; [by rewrite Hhere|by apply Hother]. }
    rewrite IH; simpl; [apply Heq|].
    intros w Hw. rewrite Heq, Hlock. apply Hsame. by right.
  - rewrite IH; simpl; [done|]. intros w Hw. apply Hsame. by right.
Qed.

Lemma mesh_writes_target (uv_data : odict (float * float)) (target_mesh : string)
    (targets sources : list Z) (w : UVComp * (float * float)) :
  w ∈ mesh_writes uv_data target_mesh targets sources → w.1.1 = target_mesh.
Proof. intros Hw. by apply paired_writes_targets in Hw as [? _]. Qed.

(** The state of a scene in which the writes of a paste onto [obj] have
    landed already, as far as the host accepts them. *)
Lemma mesh_paste_one_settles (sc : Scene) (source : UVTransferTool.mesh_data)
    (obj : string) (b : UVTransferTool.batch) (target_mesh : string)
    (w : UVComp * (float * float)) :
  same_topology sc (UVTransferTool.scene b) →
  mesh_verdict sc source obj = None →
  UVTransferTool.target_mesh_of sc obj = Some target_mesh →
  w ∈ mesh_writes (UVTransferTool.uv_data source) target_mesh
        (target_order sc target_mesh) (UVTransferTool.sorted_uv_ids source) →
  polyEditUV_locked sc w.1 = false →
  polyEditUV_query (UVTransferTool.scene (UVTransferTool.paste_one source obj b)) w.1
  = Some [w.2.1; w.2.2].
Proof.
  intros Hsame Hv Hmesh Hw Hfree.
  rewrite <- (mesh_verdict_same sc _ source obj Hsame) in Hv.
  rewrite <- (target_mesh_of_same sc _ obj Hsame) in Hmesh.
  destruct (mesh_verdict_None _ _ _ Hv) as (tm & Htm & Hcheck).
  rewrite Hmesh in Htm. injection Htm as <-.
  destruct (mesh_paste_one_pass source obj target_mesh b Hmesh Hcheck) as (-> & _ & _).
  rewrite (target_order_same sc _ target_mesh Hsame).
  destruct w as [uv [u v]].
  apply write_all_written; [apply paired_writes_NoDup, target_order_NoDup|done|].
  simpl. destruct Hsame as (-> & _). done.
Qed.

Lemma mesh_paste_loop_settles (sc : Scene) (source : UVTransferTool.mesh_data)
    (selection : list string) :
  ∀ b : UVTransferTool.batch,
    same_topology sc (UVTransferTool.scene b) →
    ∀ (obj target_mesh : string) (w : UVComp * (float * float)),
      obj ∈ selection →
      mesh_verdict sc source obj = None →
      UVTransferTool.target_mesh_of sc obj = Some target_mesh →
      w ∈ mesh_writes (UVTransferTool.uv_data source) target_mesh
            (target_order sc target_mesh) (UVTransferTool.sorted_uv_ids source) →
      polyEditUV_locked sc w.1 = false →
      polyEditUV_query
        (UVTransferTool.scene
           (foldl (fun b obj => UVTransferTool.paste_one source obj b) b selection)) w.1
      = Some [w.2.1; w.2.2].
Proof.
  induction selection as [|obj0 rest IH] using rev_ind; intros b Hsame obj tm w Hin Hv Hmesh Hw Hfree.
  { by apply elem_of_nil in Hin. }
  rewrite foldl_app. simpl.
  set (b1 := foldl (fun b obj => UVTransferTool.paste_one source obj b) b rest).
  assert (same_topology sc (UVTransferTool.scene b1)) as Hsame1.
  { clear -Hsame. subst b1. revert b Hsame.
    induction rest as [|o rest IH]; intros b Hsame; simpl; [done|].
    apply IH. eapply same_topology_trans; [done|].
    by destruct (mesh_paste_one_spec source o b) as [? _]. }
  destruct (mesh_verdict sc source obj0) as [why|] eqn:Hv0.
  - assert (obj ∈ rest) as Hrest.
    { apply elem_of_app in Hin as [?|Hin]; [done|].
      apply list_elem_of_singleton in Hin as ->. by rewrite Hv in Hv0. }
    rewrite mesh_paste_one_frame; [by eapply IH|].
    by rewrite (mesh_verdict_same sc _ source obj0 Hsame1), Hv0.
  - destruct (mesh_verdict_None _ _ _ Hv0) as (tm0 & Htm0 & _).
    destruct (decide (tm0 = tm)) as [->|Hne].
    + by eapply mesh_paste_one_settles.
    + assert (obj ∈ rest) as Hrest.
      { apply elem_of_app in Hin as [?|Hin]; [done|].
        apply list_elem_of_singleton in Hin as ->. rewrite Hmesh in Htm0. by simplify_eq. }
      rewrite mesh_paste_one_frame; [by eapply IH|].
      intros _. rewrite (target_mesh_of_same sc _ obj0 Hsame1), Htm0.
      apply mesh_writes_target in Hw. rewrite Hw. by intros [= ->].
Qed.

Lemma mesh_paste_loop_noop (sc : Scene) (source : UVTransferTool.mesh_data)
    (selection : list string) :
  ∀ b : UVTransferTool.batch,
    same_topology sc (UVTransferTool.scene b) →
    (∀ (obj target_mesh : string) (w : UVComp * (float * float)),
       obj ∈ selection →
       mesh_verdict sc source obj = None →
       UVTransferTool.target_mesh_of sc obj = Some target_mesh →
       w ∈ mesh_writes (UVTransferTool.uv_data source) target_mesh
             (target_order sc target_mesh) (UVTransferTool.sorted_uv_ids source) →
       polyEditUV_locked sc w.1 = false →
       polyEditUV_query (UVTransferTool.scene b) w.1 = Some [w.2.1; w.2.2]) →
    ∀ uv,
      polyEditUV_query
        (UVTransferTool.scene
           (foldl (fun b obj => UVTransferTool.paste_one source obj b) b selection)) uv
      = polyEditUV_query (UVTransferTool.scene b) uv.
Proof.
  induction selection as [|obj rest IH]; intros b Hsame Hsettled uv; simpl; [done|].
  destruct (mesh_paste_one_spec source obj b) as [Hstep _]. simpl in Hstep.
  assert (∀ x, polyEditUV_query (UVTransferTool.scene (UVTransferTool.paste_one source obj b)) x
               = polyEditUV_query (UVTransferTool.scene b) x) as Hone.
  { intros x.
    destruct (mesh_verdict sc source obj) as [why|] eqn:Hv.
    - apply mesh_paste_one_frame. by rewrite (mesh_verdict_same sc _ source obj Hsame), Hv.
    - pose proof Hv as Hv'. rewrite <- (mesh_verdict_same sc _ source obj Hsame) in Hv'.
      destruct (mesh_verdict_None _ _ _ Hv') as (tm & Htm & Hcheck).
      destruct (mesh_paste_one_pass source obj tm b Htm Hcheck) as (-> & _ & _).
      apply write_all_noop. simpl. intros w Hw.
      rewrite (target_order_same sc _ tm Hsame) in Hw.
      rewrite (target_mesh_of_same sc _ obj Hsame) in Htm.
      destruct Hsame as (Hlock & _). rewrite Hlock.
      destruct (polyEditUV_locked sc w.1) eqn:Hl; [by left|right].
      eapply Hsettled; [by left|done..]. }
  rewrite IH; [apply Hone|by eapply same_topology_trans|].
  intros obj' tm w Hin Hv Hmesh Hw Hfree. rewrite Hone.
  eapply Hsettled; [by right|done..].
Qed.

Lemma mesh_paste_loop_same (source : UVTransferTool.mesh_data) (selection : list string) :
  ∀ b : UVTransferTool.batch,
    same_topology (UVTransferTool.scene b)
      (UVTransferTool.scene
         (foldl (fun b obj => UVTransferTool.paste_one source obj b) b selection)).
Proof.
  induction selection as [|obj rest IH]; intros b; simpl; [apply same_topology_refl|].
  eapply same_topology_trans; [|apply IH].
  by destruct (mesh_paste_one_spec source obj b) as [? _].
Qed.

(** ** Source points without a coordinate *)

Lemma paired_writes_skipped (value : Z → option (float * float)) (obj : string)
    (targets : list Z) :
  ∀ (sources : list Z) (i : nat) (t s : Z),
    NoDup targets →
    targets !! i = Some t → sources !! i = Some s → value s = None →
    (obj, t) ∉ (paired_writes value obj targets sources).*1.
Proof.
  induction targets as [|t0 targets IH]; intros [|s0 sources] i t s Hnd Ht Hs Hv; try done.
  apply NoDup_cons in Hnd as [Hfresh Hnd].
  rewrite paired_writes_cons.
  destruct i as [|i]; simpl in Ht, Hs.
  - injection Ht as ->. injection Hs as ->. rewrite Hv.
    intros (w & Hw & Hin)%list_elem_of_fmap.
    apply paired_writes_targets in Hin as [_ Hin]. rewrite <- Hw in Hin. done.
  - assert (t ≠ t0) as Hne.
    { intros ->. apply Hfresh. by eapply list_elem_of_lookup_2. }
    destruct (value s0) as [c|]; [|by eapply IH].
    rewrite fmap_cons. apply not_elem_of_cons. split; [by intros [= ->]|by eapply IH].
Qed.

(** ** Exceptions of the snap *)

Lemma SFltb_false_SFleb (x y z w : SpecFloat.spec_float) :
  SpecFloat.SFltb x z = true → SpecFloat.SFltb y w = true →
  SpecFloat.SFltb x y = false → SpecFloat.SFleb y x = true.
Proof.
  unfold SpecFloat.SFltb, SpecFloat.SFleb.
  destruct x as [sx|sx| |sx mx ex], y as [sy|sy| |sy my ey];
    destruct z as [sz|sz| |sz mz ez], w as [sw|sw| |sw mw ew];
    simpl; try done;
    try (destruct sx; try done); try (destruct sy; try done);
    try (destruct sz; try done); try (destruct sw; try done).
  all: intros _ _.
  all: destruct (Z.compare_spec ex ey), (Z.compare_spec ey ex); try done; try lia; subst.
  all: fold (Pos.compare mx my); fold (Pos.compare my mx).
  all: destruct (Pos.compare_spec mx my), (Pos.compare_spec my mx); simpl; try done; try lia.
Qed.

Lemma SFleb_trans (x y z : SpecFloat.spec_float) :
  SpecFloat.SFleb x y = true → SpecFloat.SFleb y z = true → SpecFloat.SFleb x z = true.
Proof.
  unfold SpecFloat.SFleb.
  destruct x as [sx|sx| |sx mx ex], y as [sy|sy| |sy my ey], z as [sz|sz| |sz mz ez];
    simpl; try done;
    try (destruct sx; try done); try (destruct sy; try done); try (destruct sz; try done).
  all: destruct (Z.compare_spec ex ey), (Z.compare_spec ey ez), (Z.compare_spec ex ez);
    try done; try lia; subst.
  all: fold (Pos.compare mx my); fold (Pos.compare my mz); fold (Pos.compare mx mz).
  all: destruct (Pos.compare_spec mx my), (Pos.compare_spec my mz), (Pos.compare_spec mx mz);
    simpl; try done; try lia.
Qed.

Lemma float_ltb_false_leb (x y z w : float) :
  PrimFloat.ltb x z = true → PrimFloat.ltb y w = true →
  PrimFloat.ltb x y = false → PrimFloat.leb y x = true.
Proof. rewrite !FloatAxioms.ltb_spec, FloatAxioms.leb_spec. apply SFltb_false_SFleb. Qed.

Lemma float_leb_trans (x y z : float) :
  PrimFloat.leb x y = true → PrimFloat.leb y z = true → PrimFloat.leb x z = true.
Proof. rewrite !FloatAxioms.leb_spec. apply SFleb_trans. Qed.

Section snap_exceptions.
Context (float_pow2 : float → result float).

Lemma snap_loop_app (target_uvs : list UVComp) (target_points : list (float * float))
    (thr : float) (pre post : list UVComp) :
  ∀ st : Scene * list Maya_UV_Snap.event,
    Maya_UV_Snap.snap_loop float_pow2 target_uvs target_points thr (pre ++ post) st
    = Maya_UV_Snap.snap_loop float_pow2 target_uvs target_points thr pre st
      ≫= Maya_UV_Snap.snap_loop float_pow2 target_uvs target_points thr post.
Proof.
  induction pre as [|uv pre IH]; intros st.
  { rewrite app_nil_l.
    change (Maya_UV_Snap.snap_loop float_pow2 target_uvs target_points thr [] st) with (Ok st).
    by rewrite bind_Ok. }
  rewrite <- app_comm_cons, !snap_loop_cons.
  destruct (Maya_UV_Snap.snap_one float_pow2 target_uvs target_points thr uv st) as [st1|e];
    [rewrite !bind_Ok|by rewrite !bind_Raise].
  apply IH.
Qed.

Lemma snap_loop_locked (target_uvs : list UVComp) (target_points : list (float * float))
    (thr : float) (source_uvs : list UVComp) :
  ∀ (sc sc' : Scene) (log log' : list Maya_UV_Snap.event),
    Maya_UV_Snap.snap_loop float_pow2 target_uvs target_points thr source_uvs (sc, log)
    = Ok (sc', log') →
    polyEditUV_locked sc' = polyEditUV_locked sc.
Proof.
  induction source_uvs as [|uv rest IH]; intros sc sc' log log'.
  { simpl. by intros [= <- _]. }
  rewrite snap_loop_cons.
  destruct (Maya_UV_Snap.snap_one float_pow2 target_uvs target_points thr uv (sc, log))
    as [[sc1 log1]|e] eqn:Hone; [rewrite bind_Ok|by rewrite bind_Raise].
  intros Hloop. apply snap_one_step in Hone as (Hlock & _).
  by rewrite (IH _ _ _ _ Hloop).
Qed.

(** The scan stops at the first target point whose distance cannot be
    computed. *)
Lemma scan_raises (u v : float) (before after : list (float * float))
    (q : float * float) (e : exn) :
  (∀ q', q' ∈ before → ∃ d, Maya_UV_Snap.distance float_pow2 u v q'.1 q'.2 = Ok d) →
  Maya_UV_Snap.distance float_pow2 u v q.1 q.2 = Raise e →
  ∀ (min0 : float) (near0 : option (float * float)),
    Maya_UV_Snap.scan float_pow2 u v (before ++ q :: after) min0 near0 = Raise e.
Proof.
  intros Hbefore Hq. induction before as [|[bu bv] before IH]; intros min0 near0.
  { destruct q as [qu qv]. simpl in *. by rewrite Hq, bind_Raise. }
  rewrite <- app_comm_cons. cbn [Maya_UV_Snap.scan].
  destruct (Hbefore (bu, bv)) as [d Hd]; [by left|]. simpl in Hd. rewrite Hd, bind_Ok.
  destruct (PrimFloat.ltb d min0); apply IH; intros q' Hq'; apply Hbefore; by right.
Qed.

End snap_exceptions.
(** * The claims *)

(** C1. Centroid-relative shell paste.  Let [source] be the snapshot a
    successful copy left on the clipboard, and [target] a shell with the same
    number of UV points that has a coordinate to average.  Then the paste
    takes the target's centre to be the arithmetic mean of the coordinates the
    target has at that moment, and gives the i-th target point (in vertex
    order) that centre plus the offset of the i-th source point (in vertex
    order), the offset being the source point's coordinate minus the mean of
    the source coordinates taken at copy time. *)
Theorem centroid_relative_paste
    (sc0 : Scene) (clipboard0 : option UVShellCopyPasteTool.shell_data)
    (selection0 : list component) (source : UVShellCopyPasteTool.shell_data)
    (match_topology : bool) (idx : nat) (uv_shell : UVComp)
    (b : UVShellCopyPasteTool.batch) (target : UVShellCopyPasteTool.shell_data) :
  UVShellCopyPasteTool.copy_uv_shell sc0 clipboard0 selection0
  = (Some source, Ok UVShellCopyPasteTool.Copied) →
  UVShellCopyPasteTool.get_uv_shell_data (UVShellCopyPasteTool.scene b) uv_shell
  = Ok (Some target) →
  UVShellCopyPasteTool.uv_count target = UVShellCopyPasteTool.uv_count source →
  UVShellCopyPasteTool.uv_data target ≠ [] →
  NoDup (UVShellCopyPasteTool.sorted_ids target) →
  let source_center := mean (UVShellCopyPasteTool.uv_data source) in
  let target_center := mean (UVShellCopyPasteTool.uv_data target) in
  UVShellCopyPasteTool.center source = Some source_center
  ∧ ∃ b',
      UVShellCopyPasteTool.paste_one source match_topology idx uv_shell b = Ok b'
      ∧ UVShellCopyPasteTool.success_count b' = S (UVShellCopyPasteTool.success_count b)
      ∧ ∀ (i : nat) (source_uv_id target_uv_id : Z) (u v : float),
          UVShellCopyPasteTool.sorted_ids source !! i = Some source_uv_id →
          UVShellCopyPasteTool.sorted_ids target !! i = Some target_uv_id →
          od_get source_uv_id (UVShellCopyPasteTool.uv_data source) = Some (u, v) →
          polyEditUV_locked (UVShellCopyPasteTool.scene b)
            (UVShellCopyPasteTool.object target, target_uv_id) = false →
          polyEditUV_query (UVShellCopyPasteTool.scene b')
            (UVShellCopyPasteTool.object target, target_uv_id)
          = Some [PrimFloat.add target_center.1 (PrimFloat.sub u source_center.1);
                  PrimFloat.add target_center.2 (PrimFloat.sub v source_center.2)].
Proof.
  intros Hcopy Hget Hcount Hdata Hnd source_center target_center.
  apply copy_uv_shell_Copied in Hcopy as (_ & Hcenter & Hrel & Hkeys & _ & _).
  split; [done|].
  unfold UVShellCopyPasteTool.paste_one. rewrite Hget, bind_Ok.
  unfold UVShellCopyPasteTool.check_uv_count.
  rewrite Hcount, Z.eqb_refl, andb_false_r.
  rewrite centroid_mean, bind_Ok by done. fold target_center.
  rewrite (shell_apply_coords_writes source _ _ _ Hrel), bind_Ok. simpl.
  eexists. split; [done|]. simpl. split; [done|].
  intros i s t u v Hs Ht Hsrc Hlock.
  apply write_all_written; [by apply paired_writes_NoDup| |done].
  eapply paired_writes_lookup; [done..|].
  fold source_center. rewrite relative_to_lookup, Hsrc by done. done.
Qed.

(** C1 on a source shell centred at (0.5, 0.25) and a target shell centred at
    (2.5, 2) whose vertex order is the reverse of its index order. *)
Lemma centroid_relative_paste_witness :
  mean (UVShellCopyPasteTool.uv_data Batch.source) = (0.5, 0.25)%float
  ∧ mean (UVShellCopyPasteTool.uv_data Batch.target) = (2.5, 2)%float
  ∧ UVShellCopyPasteTool.sorted_ids Batch.source = [0; 1]%Z
  ∧ UVShellCopyPasteTool.sorted_ids Batch.target = [3; 2]%Z
  ∧ ∃ b',
      UVShellCopyPasteTool.paste_one Batch.source true 1 ("m", 2%Z) (Batch.start Batch.scene)
      = Ok b'
      ∧ polyEditUV_query (UVShellCopyPasteTool.scene b') ("m", 3%Z)
        = Some [2.25; 2]%float
      ∧ polyEditUV_query (UVShellCopyPasteTool.scene b') ("m", 2%Z)
        = Some [2.75; 2]%float.
Proof.
  split; [vm_compute; reflexivity|]. split; [vm_compute; reflexivity|].
  split; [vm_compute; reflexivity|]. split; [vm_compute; reflexivity|].
  assert (UVShellCopyPasteTool.copy_uv_shell Batch.scene None Batch.source_selection
          = (Some Batch.source, Ok UVShellCopyPasteTool.Copied)) as Hcopy
    by (vm_compute; reflexivity).
  assert (UVShellCopyPasteTool.get_uv_shell_data
            (UVShellCopyPasteTool.scene (Batch.start Batch.scene)) ("m", 2%Z)
          = Ok (Some Batch.target)) as Hget by (vm_compute; reflexivity).
  assert (UVShellCopyPasteTool.uv_count Batch.target
          = UVShellCopyPasteTool.uv_count Batch.source) as Hcount by (vm_compute; reflexivity).
  assert (UVShellCopyPasteTool.uv_data Batch.target ≠ []) as Hdata by (vm_compute; discriminate).
  assert (NoDup (UVShellCopyPasteTool.sorted_ids Batch.target)) as Hnd.
  { change (UVShellCopyPasteTool.sorted_ids Batch.target) with [3; 2]%Z.
    apply NoDup_cons. split; [|apply NoDup_singleton].
    intros Hin%list_elem_of_singleton. discriminate Hin. }
  destruct (centroid_relative_paste Batch.scene None Batch.source_selection Batch.source
              true 1 ("m", 2%Z) (Batch.start Batch.scene) Batch.target
              Hcopy Hget Hcount Hdata Hnd) as (_ & b' & Hb' & _ & Hwrites).
  exists b'. split; [exact Hb'|]. split.
  - exact (Hwrites 0 0%Z 3%Z 0.25%float 0.25%float eq_refl eq_refl eq_refl eq_refl).
  - exact (Hwrites 1 1%Z 2%Z 0.75%float 0.25%float eq_refl eq_refl eq_refl eq_refl).
Defined.

(** C2. Vertex-anchored ordering: for every list of UV indices and every
    vertex-anchor map, the ordering [sorted(uv_ids, key=lambda x:
    uv_to_vertex.get(x, x))] is a permutation of its input (the same multiset
    of indices), and ordering its own output again yields the same sequence. *)
Theorem order_permutation_idempotent (uv_to_vertex : gmap Z Z) (uv_ids : list Z) :
  sorted (anchor_key uv_to_vertex) uv_ids ≡ₚ uv_ids
  ∧ sorted (anchor_key uv_to_vertex) (sorted (anchor_key uv_to_vertex) uv_ids)
    = sorted (anchor_key uv_to_vertex) uv_ids.
Proof.
  split.
  - apply sorted_perm.
  - apply sorted_fixed, sorted_sorted.
Qed.

(** C3. Topology compatibility check.  A target whose counts equal the
    source's passes.  A target whose counts differ fails, and the failure
    names one metric only: the first on which the two differ, in the order
    vertex count, face count, UV count for meshes and UV count alone for
    shells, together with the target's and the source's value.  (The check
    returns at most one [reason], and each target adds at most one entry to
    [failed_list].) *)
Theorem topology_check_first_mismatch
    (source : UVTransferTool.mesh_data) (tv tf tu : Z) (t s : Z) :
  let sv := UVTransferTool.vertex_count source in
  let sf := UVTransferTool.face_count source in
  let su := UVTransferTool.uv_count source in
  (* identical counts pass *)
  UVTransferTool.check_topology source sv sf su = None
  ∧ UVShellCopyPasteTool.check_uv_count true s s = None
  (* the check passes only on identical counts *)
  ∧ (UVTransferTool.check_topology source tv tf tu = None ↔ tv = sv ∧ tf = sf ∧ tu = su)
  ∧ (UVShellCopyPasteTool.check_uv_count true t s = None ↔ t = s)
  (* and otherwise reports the first differing metric with both values *)
  ∧ UVTransferTool.check_topology source tv tf tu
    = first_mismatch [VertexCount; FaceCount; UVCount]
        (mesh_counts tv tf tu) (mesh_counts sv sf su)
  ∧ UVShellCopyPasteTool.check_uv_count true t s
    = first_mismatch [UVCount] (shell_counts t) (shell_counts s)
  (* one entry per failed target *)
  ∧ (∀ obj b,
       length (UVTransferTool.failed_list (UVTransferTool.paste_one source obj b))
       ≤ S (length (UVTransferTool.failed_list b))).
Proof.
  intros sv sf su. unfold UVTransferTool.check_topology, UVShellCopyPasteTool.check_uv_count.
  fold sv sf su. simpl.
  split_and!.
  - rewrite !Z.eqb_refl. done.
  - rewrite Z.eqb_refl. done.
  - destruct (Z.eqb_spec tv sv), (Z.eqb_spec tf sf), (Z.eqb_spec tu su);
      simpl; split; try done; intros (? & ? & ?); done.
  - destruct (Z.eqb_spec t s); simpl; split; done.
  - destruct (Z.eqb_spec tv sv), (Z.eqb_spec tf sf), (Z.eqb_spec tu su);
      repeat case_decide; simpl; congruence.
  - unfold shell_counts. destruct (Z.eqb_spec t s); case_decide; simpl; congruence.
  - intros obj b. unfold UVTransferTool.paste_one, UVTransferTool.fail.
    repeat case_match; simpl; rewrite ?length_app; simpl; lia.
Qed.

(** C4. Batch orchestration.  A paste judges its targets one by one, in the
    order of the selection.  A target that fails the check, or that yields no
    data, adds one entry with its reason to [failed_list] and the paste goes
    on with the next target; every other target is pasted and counted.  So
    the failures are those of the targets that fail on their own account, in
    order, and the number of successes plus the number of failures is the
    number of targets.  The whole-mesh paste always completes; the shell paste
    completes whenever the host answers its coordinate queries and the
    clipboard holds the offsets of a finished copy. *)
Theorem batch_continues_past_failures
    (sc : Scene) (source : UVTransferTool.mesh_data) (sel : UVTransferTool.selection)
    (shell_source : UVShellCopyPasteTool.shell_data) (uv_selection : list component)
    (match_topology : bool) :
  let selection :=
    match UVTransferTool.transforms sel with
    | [] => UVTransferTool.meshes sel
    | ts => ts
    end in
  match UVTransferTool.paste_uv_to_mesh sc (Some source) sel with
  | UVTransferTool.Pasted total b =>
      total = length selection
      ∧ UVTransferTool.failed_list b = mesh_failures sc source selection
      ∧ UVTransferTool.success_count b
        = length (filter (fun obj => mesh_verdict sc source obj = None) selection)
      ∧ UVTransferTool.success_count b + length (UVTransferTool.failed_list b) = total
  | UVTransferTool.WarnNoTarget => selection = []
  | UVTransferTool.WarnNoClipboard => False
  end
  ∧ ∀ uv_shells,
      UVShellCopyPasteTool.get_selected_uv_shells sc uv_selection = Some uv_shells →
      (∀ total b,
         UVShellCopyPasteTool.paste_uv_shell sc (Some shell_source) uv_selection match_topology
         = Ok (UVShellCopyPasteTool.Pasted total b) →
         total = length uv_shells
         ∧ UVShellCopyPasteTool.failed_list b
           = shell_failures sc shell_source match_topology 1 uv_shells
         ∧ UVShellCopyPasteTool.success_count b
           = length (filter (fun uv => shell_verdict sc shell_source match_topology uv = None)
                            uv_shells)
         ∧ UVShellCopyPasteTool.success_count b
           + length (UVShellCopyPasteTool.failed_list b) = total)
      ∧ (coordinates_answered sc →
         is_Some (UVShellCopyPasteTool.relative_coords shell_source) →
         ∃ b,
           UVShellCopyPasteTool.paste_uv_shell sc (Some shell_source) uv_selection
             match_topology
           = Ok (UVShellCopyPasteTool.Pasted (length uv_shells) b)).
Proof.
  intros selection. split.
  - unfold UVTransferTool.paste_uv_to_mesh. fold selection.
    destruct selection as [|obj rest] eqn:Hsel; [done|]. rewrite <- Hsel.
    set (b0 := {| UVTransferTool.scene := sc; UVTransferTool.success_count := 0;
                  UVTransferTool.failed_list := []; UVTransferTool.pasted := [] |}).
    destruct (mesh_paste_loop_spec sc source selection b0 (same_topology_refl sc))
      as [Hfail Hsucc].
    simpl in Hfail, Hsucc. rewrite Hfail, Hsucc.
    split_and!; try done. apply mesh_failures_length.
  - intros uv_shells Hshells.
    unfold UVShellCopyPasteTool.paste_uv_shell. rewrite Hshells.
    assert (uv_shells ≠ []) as Hne.
    { unfold UVShellCopyPasteTool.get_selected_uv_shells in Hshells.
      repeat case_match; by simplify_eq. }
    destruct uv_shells as [|uv rest] eqn:Huv; [done|]. rewrite <- Huv in *.
    set (b0 := {| UVShellCopyPasteTool.scene := sc;
                  UVShellCopyPasteTool.success_count := 0;
                  UVShellCopyPasteTool.failed_list := [];
                  UVShellCopyPasteTool.pasted := [] |}).
    split.
    + intros total b.
      destruct (UVShellCopyPasteTool.paste_loop shell_source match_topology 1 uv_shells b0)
        as [b1|e] eqn:Hloop; [rewrite bind_Ok|by rewrite bind_Raise].
      intros [= <- <-].
      apply (shell_paste_loop_spec sc) in Hloop as [Hfail Hsucc];
        [|apply same_topology_refl].
      simpl in Hfail, Hsucc. rewrite Hfail, Hsucc.
      split_and!; try done. apply shell_failures_length.
    + intros Hans Hrel.
      destruct (shell_paste_loop_total shell_source match_topology uv_shells Hrel 1 b0 Hans)
        as [b1 ->].
      rewrite bind_Ok. by eexists.
Qed.

(** C4 on three targets of which the second has a different UV count, for
    both tools: two successes and one failure entry, that of the second
    target, naming the UV count. *)
Lemma batch_continues_past_failures_witness :
  (∃ b,
     UVTransferTool.paste_uv_to_mesh Meshes.scene (Some Meshes.source) Meshes.targets
     = UVTransferTool.Pasted 3 b
     ∧ UVTransferTool.success_count b = 2
     ∧ UVTransferTool.failed_list b
       = [UVTransferTool.Build_failure "t2" (Mismatch UVCount 6 4)])
  ∧ ∃ b,
      UVShellCopyPasteTool.paste_uv_shell Batch.scene (Some Batch.source)
        Batch.target_selection true
      = Ok (UVShellCopyPasteTool.Pasted 3 b)
      ∧ UVShellCopyPasteTool.success_count b = 2
      ∧ UVShellCopyPasteTool.failed_list b
        = [UVShellCopyPasteTool.Build_failure 2 (Some "m") (Mismatch UVCount 3 2)].
Proof.
  destruct (batch_continues_past_failures Meshes.scene Meshes.source Meshes.targets
              Batch.source Batch.target_selection true) as [Hmesh _].
  destruct (batch_continues_past_failures Batch.scene Meshes.source Meshes.targets
              Batch.source Batch.target_selection true) as [_ Hshell].
  split.
  - destruct (UVTransferTool.paste_uv_to_mesh Meshes.scene (Some Meshes.source)
                Meshes.targets) as [| |total b] eqn:Hrun; [done|discriminate Hmesh|].
    destruct Hmesh as (-> & Hfail & Hsucc & _).
    exists b. split; [reflexivity|]. split; [exact Hsucc|exact Hfail].
  - assert (UVShellCopyPasteTool.get_selected_uv_shells Batch.scene Batch.target_selection
            = Some [("m", 2%Z); ("m", 4%Z); ("m", 7%Z)]) as Hshells
      by (vm_compute; reflexivity).
    destruct (Hshell _ Hshells) as [Hspec Htotal].
    assert (coordinates_answered Batch.scene) as Hans.
    { intros uv. simpl. destruct (Batch.coordinates !! Z.to_nat uv.2) as [[u v]|];
        by eexists _, _, _. }
    assert (is_Some (UVShellCopyPasteTool.relative_coords Batch.source)) as Hrel
      by (vm_compute; eauto).
    destruct (Htotal Hans Hrel) as [b Hb].
    destruct (Hspec _ _ Hb) as (_ & Hfail & Hsucc & _).
    exists b. split; [exact Hb|]. split; [exact Hsucc|exact Hfail].
Defined.

(** C5 (as stated, refuted). The shell 8, 9 is copied; the coordinate read of
    its point 9 came back with one number, so the snapshot has the order 8, 9
    and an offset for the point 8 only.  The shell 0, 1 has as many points
    and passes the count check, and the host would accept a write to either
    of its points.  Of the two positional pairs the paste attempts one write:
    it reports one applied point and no failure, and the point 1 is where it
    was. *)
Lemma transfer_skips_pair_counterexample :
  ∃ target b',
    UVShellCopyPasteTool.copy_uv_shell Edge.scene None [UV ("m", 8%Z)]
    = (Some Edge.partial, Ok UVShellCopyPasteTool.Copied)
    ∧ UVShellCopyPasteTool.get_uv_shell_data Edge.scene ("m", 0%Z) = Ok (Some target)
    ∧ UVShellCopyPasteTool.sorted_ids Edge.partial = [8; 9]%Z
    ∧ UVShellCopyPasteTool.sorted_ids target = [0; 1]%Z
    ∧ UVShellCopyPasteTool.check_uv_count true
        (UVShellCopyPasteTool.uv_count target) (UVShellCopyPasteTool.uv_count Edge.partial)
      = None
    ∧ polyEditUV_locked Edge.scene ("m", 1%Z) = false
    ∧ UVShellCopyPasteTool.paste_one Edge.partial true 1 ("m", 0%Z) (Batch.start Edge.scene)
      = Ok b'
    ∧ UVShellCopyPasteTool.pasted b' = [(1, 1, [])]
    ∧ polyEditUV_query Edge.scene ("m", 1%Z) = Some [1; 1]%float
    ∧ polyEditUV_query (UVShellCopyPasteTool.scene b') ("m", 1%Z) = Some [1; 1]%float.
Proof.
  eexists _, _. split_and!; vm_compute; reflexivity.
Qed.

(** C5 (amended). The write loops pair the i-th target point with the i-th
    source point, for every position below the length of the shorter order.
    The whole-mesh loop attempts a write for every pair: the snapshot of
    [get_mesh_uv_data] has a coordinate for every index of its order.  The
    shell loop attempts a write for the pairs whose source point has a
    recorded coordinate and passes over the others.  An attempted write the
    host accepts puts the transferred coordinate on the target point; one the
    host refuses leaves the point as it was and is recorded (counted in
    [error_count] by the whole-mesh loop, printed by the shell loop); either
    way the pairs after it are dealt with in the same manner, and no point
    outside the attempted pairs is written. *)
Theorem transfer_attempts_pairs_with_coordinate
    (sc0 : Scene) (mesh0 target_mesh : string) (targets : list Z)
    (st : UVTransferTool.applied)
    (sc1 : Scene) (clipboard1 : option UVShellCopyPasteTool.shell_data)
    (selection1 : list component) (shell_source : UVShellCopyPasteTool.shell_data)
    (obj_name : string) (target_center : float * float) (shell_targets : list Z)
    (sst : UVShellCopyPasteTool.applied) :
  let source := UVTransferTool.get_mesh_uv_data sc0 mesh0 in
  let a := UVTransferTool.apply_coords source target_mesh targets
             (UVTransferTool.sorted_uv_ids source) st in
  let paired := (fun t => (target_mesh, t))
                <$> take (length (UVTransferTool.sorted_uv_ids source)) targets in
  let locked := polyEditUV_locked (UVTransferTool.scene_after st) in
  let shell_attempted :=
    attempted (fun s => od_get s (UVShellCopyPasteTool.uv_data shell_source))
      obj_name shell_targets (UVShellCopyPasteTool.sorted_ids shell_source) in
  let shell_locked := polyEditUV_locked (UVShellCopyPasteTool.scene_after sst) in
  let source_center := mean (UVShellCopyPasteTool.uv_data shell_source) in
  (length paired = length targets `min` length (UVTransferTool.sorted_uv_ids source)
   ∧ UVTransferTool.apply_count a
     = UVTransferTool.apply_count st + length (filter (fun uv => locked uv = false) paired)
   ∧ UVTransferTool.error_count a
     = UVTransferTool.error_count st + length (filter (fun uv => locked uv = true) paired)
   ∧ (∀ uv, uv ∉ paired →
        polyEditUV_query (UVTransferTool.scene_after a) uv
        = polyEditUV_query (UVTransferTool.scene_after st) uv)
   ∧ (NoDup targets →
      ∀ (i : nat) (t s : Z),
        targets !! i = Some t →
        UVTransferTool.sorted_uv_ids source !! i = Some s →
        ∃ c, od_get s (UVTransferTool.uv_data source) = Some c
             ∧ polyEditUV_query (UVTransferTool.scene_after a) (target_mesh, t)
               = if locked (target_mesh, t)
                 then polyEditUV_query (UVTransferTool.scene_after st) (target_mesh, t)
                 else Some [c.1; c.2]))
  ∧ (UVShellCopyPasteTool.copy_uv_shell sc1 clipboard1 selection1
     = (Some shell_source, Ok UVShellCopyPasteTool.Copied) →
     ∃ sa,
       UVShellCopyPasteTool.apply_coords shell_source obj_name target_center
         shell_targets (UVShellCopyPasteTool.sorted_ids shell_source) sst = Ok sa
       ∧ UVShellCopyPasteTool.apply_count sa
         = UVShellCopyPasteTool.apply_count sst
           + length (filter (fun uv => shell_locked uv = false) shell_attempted)
       ∧ UVShellCopyPasteTool.write_failures sa
         = UVShellCopyPasteTool.write_failures sst
           ++ filter (fun uv => shell_locked uv = true) shell_attempted
       ∧ (∀ uv, uv ∉ shell_attempted →
            polyEditUV_query (UVShellCopyPasteTool.scene_after sa) uv
            = polyEditUV_query (UVShellCopyPasteTool.scene_after sst) uv)
       ∧ (NoDup shell_targets →
          ∀ (i : nat) (t s : Z),
            shell_targets !! i = Some t →
            UVShellCopyPasteTool.sorted_ids shell_source !! i = Some s →
            match od_get s (UVShellCopyPasteTool.uv_data shell_source) with
            | Some c =>
                (obj_name, t) ∈ shell_attempted
                ∧ polyEditUV_query (UVShellCopyPasteTool.scene_after sa) (obj_name, t)
                  = if shell_locked (obj_name, t)
                    then polyEditUV_query (UVShellCopyPasteTool.scene_after sst) (obj_name, t)
                    else Some [PrimFloat.add target_center.1
                                 (PrimFloat.sub c.1 source_center.1);
                               PrimFloat.add target_center.2
                                 (PrimFloat.sub c.2 source_center.2)]
            | None => (obj_name, t) ∉ shell_attempted
            end)).
Proof.
  intros source a paired locked shell_attempted shell_locked source_center. split.
  - assert (length paired
            = length targets `min` length (UVTransferTool.sorted_uv_ids source)) as Hlen.
    { unfold paired. rewrite length_fmap, length_take. lia. }
    set (refused := replicate (UVTransferTool.error_count st) (target_mesh, 0%Z)).
    set (writes := mesh_writes (UVTransferTool.uv_data source) target_mesh targets
                     (UVTransferTool.sorted_uv_ids source)).
    set (w0 := {| w_scene := UVTransferTool.scene_after st;
                  w_applied := UVTransferTool.apply_count st;
                  w_refused := refused |}).
    assert (a = {| UVTransferTool.scene_after := w_scene (write_all writes w0);
                   UVTransferTool.apply_count := w_applied (write_all writes w0);
                   UVTransferTool.error_count := length (w_refused (write_all writes w0)) |})
      as Ha.
    { apply (mesh_apply_coords_writes source target_mesh targets
               (UVTransferTool.sorted_uv_ids source) st refused).
      apply length_replicate. }
    assert (writes.*1 = paired) as Hfst.
    { apply paired_writes_targets_fst. intros s Hs. by apply get_mesh_uv_data_sorted. }
    destruct (write_all_counts_fst writes w0) as [Happ Href].
    rewrite Hfst in Happ, Href.
    rewrite Ha. cbn [UVTransferTool.scene_after UVTransferTool.apply_count
                     UVTransferTool.error_count].
    split; [done|]. split; [exact Happ|]. split.
    { rewrite Href, length_app. unfold w0, refused. simpl. by rewrite length_replicate. }
    split.
    { intros uv Hout. rewrite write_all_frame; [done|]. by rewrite Hfst. }
    intros Hnd i t s Ht Hs.
    destruct (get_mesh_uv_data_sorted sc0 mesh0 s) as [c Hc].
    { by eapply list_elem_of_lookup_2. }
    exists c. split; [exact Hc|].
    assert (((target_mesh, t), c) ∈ writes) as Hin.
    { unfold writes, mesh_writes. by eapply paired_writes_lookup. }
    unfold locked. destruct (polyEditUV_locked _ (target_mesh, t)) eqn:Hl.
    + by apply (write_all_locked writes (target_mesh, t) w0).
    + destruct c as [u v].
      apply (write_all_written writes w0); [|done..].
      unfold writes, mesh_writes. by apply paired_writes_NoDup.
  - intros Hcopy.
    apply copy_uv_shell_Copied in Hcopy as (_ & _ & Hrel & Hkeys & _ & _).
    rewrite (shell_apply_coords_writes shell_source _ obj_name target_center Hrel).
    eexists. split; [done|].
    cbn [UVShellCopyPasteTool.scene_after UVShellCopyPasteTool.apply_count
         UVShellCopyPasteTool.write_failures].
    set (writes := shell_writes _ obj_name target_center shell_targets
                     (UVShellCopyPasteTool.sorted_ids shell_source)).
    set (w0 := {| w_scene := UVShellCopyPasteTool.scene_after sst;
                  w_applied := UVShellCopyPasteTool.apply_count sst;
                  w_refused := UVShellCopyPasteTool.write_failures sst |}).
    assert (writes.*1 = shell_attempted) as Hfst.
    { unfold writes, shell_writes. rewrite paired_writes_attempted.
      apply attempted_ext. intros s _. rewrite relative_to_lookup by done.
      split; intros [c Hc].
      - apply fmap_Some in Hc as (r & Hr & _). apply fmap_Some in Hr as (p & -> & _).
        by eexists.
      - rewrite Hc. by eexists. }
    destruct (write_all_counts_fst writes w0) as [Happ Href].
    rewrite Hfst in Happ, Href.
    split; [exact Happ|]. split; [exact Href|]. split.
    { intros uv Hout. rewrite write_all_frame; [done|]. by rewrite Hfst. }
    intros Hnd i t s Ht Hs.
    pose proof (attempted_lookup
                  (fun s => od_get s (UVShellCopyPasteTool.uv_data shell_source))
                  obj_name shell_targets (UVShellCopyPasteTool.sorted_ids shell_source)
                  i t s Hnd Ht Hs) as Hatt.
    fold shell_attempted in Hatt.
    destruct (od_get s (UVShellCopyPasteTool.uv_data shell_source)) as [[u v]|] eqn:Hget.
    + split; [apply Hatt; by eexists|].
      assert (((obj_name, t),
               (PrimFloat.add target_center.1 (PrimFloat.sub u source_center.1),
                PrimFloat.add target_center.2 (PrimFloat.sub v source_center.2)))
              ∈ writes) as Hin.
      { unfold writes, shell_writes. eapply paired_writes_lookup; [done..|].
        by rewrite relative_to_lookup, Hget. }
      unfold shell_locked. simpl.
      destruct (polyEditUV_locked _ (obj_name, t)) eqn:Hl.
      * by apply (write_all_locked writes (obj_name, t) w0).
      * apply (write_all_written writes w0); [|done..].
        unfold writes, shell_writes. by apply paired_writes_NoDup.
    + intros Hin. apply Hatt in Hin as [c Hc]. done.
Qed.

(** C5 with one locked target point in each tool: the write to it fails and
    leaves it where it was, and the writes after it are still made. *)
Lemma transfer_attempts_pairs_with_coordinate_witness :
  (∃ a,
     a = UVTransferTool.apply_coords Meshes.source "|t3|t3Shape" [0; 1; 2; 3]%Z
           (UVTransferTool.sorted_uv_ids Meshes.source)
           {| UVTransferTool.scene_after := Meshes.scene;
              UVTransferTool.apply_count := 0;
              UVTransferTool.error_count := 0 |}
     ∧ UVTransferTool.apply_count a = 3 ∧ UVTransferTool.error_count a = 1
     ∧ polyEditUV_query (UVTransferTool.scene_after a) ("|t3|t3Shape", 1%Z)
       = Some [0.5; 0.5]%float
     ∧ polyEditUV_query (UVTransferTool.scene_after a) ("|t3|t3Shape", 3%Z)
       = Some [0.125; 1]%float)
  ∧ ∃ sa,
      UVShellCopyPasteTool.apply_coords Batch.source "m" (2.5, 2)%float [3; 2]%Z
        (UVShellCopyPasteTool.sorted_ids Batch.source)
        {| UVShellCopyPasteTool.scene_after := Batch.scene_locked;
           UVShellCopyPasteTool.apply_count := 0;
           UVShellCopyPasteTool.write_failures := [] |} = Ok sa
      ∧ UVShellCopyPasteTool.apply_count sa = 1
      ∧ UVShellCopyPasteTool.write_failures sa = [("m", 3%Z)]
      ∧ polyEditUV_query (UVShellCopyPasteTool.scene_after sa) ("m", 3%Z)
        = Some [3; 2]%float
      ∧ polyEditUV_query (UVShellCopyPasteTool.scene_after sa) ("m", 2%Z)
        = Some [2.75; 2]%float.
Proof.
  assert (UVShellCopyPasteTool.copy_uv_shell Batch.scene None Batch.source_selection
          = (Some Batch.source, Ok UVShellCopyPasteTool.Copied)) as Hcopy
    by (vm_compute; reflexivity).
  assert (NoDup [0; 1; 2; 3]%Z) as Hnd4
    by (apply (bool_decide_unpack (NoDup _)); vm_compute; exact I).
  assert (NoDup [3; 2]%Z) as Hnd2
    by (apply (bool_decide_unpack (NoDup _)); vm_compute; exact I).
  destruct (transfer_attempts_pairs_with_coordinate Meshes.scene "|src|srcShape" "|t3|t3Shape"
              [0; 1; 2; 3]%Z
              {| UVTransferTool.scene_after := Meshes.scene;
                 UVTransferTool.apply_count := 0;
                 UVTransferTool.error_count := 0 |}
              Batch.scene None Batch.source_selection Batch.source
              "m" (2.5, 2)%float [3; 2]%Z
              {| UVShellCopyPasteTool.scene_after := Batch.scene_locked;
                 UVShellCopyPasteTool.apply_count := 0;
                 UVShellCopyPasteTool.write_failures := [] |})
    as [(_ & Happ & Herr & _ & Hpairs) Hshell].
  split.
  - eexists. split; [reflexivity|]. split; [exact Happ|]. split; [exact Herr|].
    split.
    + destruct (Hpairs Hnd4 1 1%Z 1%Z eq_refl) as (c & _ & Hq); [vm_compute; reflexivity|].
      exact Hq.
    + destruct (Hpairs Hnd4 3 3%Z 3%Z eq_refl) as (c & Hc & Hq); [vm_compute; reflexivity|].
      vm_compute in Hc. injection Hc as <-. exact Hq.
  - destruct (Hshell Hcopy) as (sa & Hsa & Hsapp & Hsfail & _ & Hspairs).
    exists sa. split; [exact Hsa|]. split; [exact Hsapp|]. split; [exact Hsfail|].
    split.
    + pose proof (Hspairs Hnd2 0 3%Z 0%Z eq_refl ltac:(vm_compute; reflexivity)) as H0.
      vm_compute in H0. destruct H0 as [_ H0]. exact H0.
    + pose proof (Hspairs Hnd2 1 2%Z 1%Z eq_refl ltac:(vm_compute; reflexivity)) as H1.
      vm_compute in H1. destruct H1 as [_ H1]. exact H1.
Defined.

(** C6 (as stated, refuted). A shell whose UV points 5 and 3 sit on the same
    vertex and are listed by the host in the order 5, 3 is ordered 5, 3 by
    [get_uv_shell_data]: the point with the larger UV index stands first. *)
Lemma tie_break_counterexample :
  ∃ d, UVShellCopyPasteTool.get_uv_shell_data Scenes.seam ("plane", 5%Z) = Ok (Some d)
       ∧ UVShellCopyPasteTool.uv_ids d = [5; 3]%Z
       ∧ UVShellCopyPasteTool.sorted_ids d
         = sorted (anchor_key (UVShellCopyPasteTool.uv_to_vertex d))
                  (UVShellCopyPasteTool.uv_ids d)
       ∧ UVShellCopyPasteTool.sorted_ids d = [5; 3]%Z
       ∧ ¬ smaller_index_first (anchor_key (UVShellCopyPasteTool.uv_to_vertex d))
                               (UVShellCopyPasteTool.sorted_ids d).
Proof.
  eexists. split; [reflexivity|]. simpl.
  split; [reflexivity|]. split; [reflexivity|]. split; [reflexivity|].
  intros H. specialize (H 1 0 3%Z 5%Z eq_refl eq_refl).
  assert (1 < 0) as Hlt; [|lia].
  apply H; [vm_compute; reflexivity | lia].
Qed.

(** C6 (amended). When two UV points are anchored to the same vertex, the
    ordering keeps them in the order in which the input lists them: for every
    vertex, the points anchored to it appear in the output in their input
    order.  Hence the point with the smaller UV index stands first whenever
    the input is in ascending index order, as it is for a whole-mesh target,
    whose input is [range(target_uv_count)]. *)
Theorem tie_break_keeps_input_order (uv_to_vertex : gmap Z Z) (uv_ids : list Z) (n : Z) :
  (∀ vertex : Z,
     filter (fun x => anchor_key uv_to_vertex x = vertex)
            (sorted (anchor_key uv_to_vertex) uv_ids)
     = filter (fun x => anchor_key uv_to_vertex x = vertex) uv_ids)
  ∧ smaller_index_first (anchor_key uv_to_vertex)
                        (sorted (anchor_key uv_to_vertex) (range n)).
Proof.
  split.
  - intros vertex. apply sorted_stable.
  - apply key_index_lt_smaller_first, sorted_ascending_index, seqZ_ascending.
Qed.

(** C7 (as stated, refuted). The source points [a] and [b] are selected and
    the target [t] is toggled last; [b] lies on the target shell, so it is a
    source point and a target point at once.  The call is not rejected: the
    shell of the first source point [a] is disjoint from the target shell, [b]
    is skipped, and [a] is moved from (0, 0) to (0.005, 0). *)
Lemma snap_overlap_counterexample :
  let selected_uvs := [Snap.a; Snap.b; Snap.t] in
  let source_uvs := filter (fun uv => uv ≠ Snap.t) selected_uvs in
  let target_uvs := polySelectBorderShell Snap.scene Snap.t in
  Snap.b ∈ source_uvs ∧ Snap.b ∈ target_uvs
  ∧ polyEditUV_query Snap.scene Snap.a = Some [0%float; 0%float]
  ∧ ∃ sc' log,
      Maya_UV_Snap.snap_uv_to_nearest Platform.float_pow2 Snap.scene selected_uvs
        (Maya_UV_Snap.SelectToggle (Some Snap.t)) 0.01%float
      = Ok (Maya_UV_Snap.Done sc' log)
      ∧ polyEditUV_query sc' Snap.a = Some [0.005%float; 0%float].
Proof.
  simpl. split_and!.
  - vm_compute. set_solver.
  - vm_compute. set_solver.
  - reflexivity.
  - eexists _, _. split; [vm_compute; reflexivity|]. vm_compute. reflexivity.
Qed.

(** C7 (amended). The guard of [snap_uv_to_nearest] looks at the shell of the
    first source point only: when that shell shares a point with the target
    shell, the call is rejected with a warning before anything is read or
    written.  Otherwise the call goes on, and a source point that lies on the
    target shell is skipped: whenever the call completes, every point of the
    target shell has the coordinate it had before, and no printed line is
    about it.  The remaining source points are still processed: with the
    selection listing each point once, every source point off the target
    shell ends with the coordinate, and the log holds for it the lines, that
    the loop body gives when it is run for that point alone on the scene of
    the call, against the coordinates of the target shell read at the
    start. *)
Theorem snap_overlap_guard (float_pow2 : float → result float)
    (sc : Scene) (selected_uvs : list UVComp)
    (target_uv first_source : UVComp) (more : list UVComp) (thr : float) :
  2 ≤ length selected_uvs →
  NoDup selected_uvs →
  filter (fun uv => uv ≠ target_uv) selected_uvs = first_source :: more →
  let source_uvs := first_source :: more in
  let target_uvs := polySelectBorderShell sc target_uv in
  let common_uvs : gset UVComp :=
    list_to_set target_uvs ∩ list_to_set (polySelectBorderShell sc first_source) in
  let run := Maya_UV_Snap.snap_uv_to_nearest float_pow2 sc selected_uvs
               (Maya_UV_Snap.SelectToggle (Some target_uv)) thr in
  (common_uvs ≠ ∅ →
     run = Ok (Maya_UV_Snap.Warned (Maya_UV_Snap.WarnCommon (size common_uvs))))
  ∧ (∀ sc' log,
       run = Ok (Maya_UV_Snap.Done sc' log) →
       common_uvs = ∅
       ∧ (∀ uv, uv ∈ target_uvs →
                polyEditUV_query sc' uv = polyEditUV_query sc uv
                ∧ ∀ e, e ∈ log → event_uv e ≠ uv)
       ∧ ∃ target_points,
           Maya_UV_Snap.collect_points sc target_uvs = Ok target_points
           ∧ ∀ uv, uv ∈ source_uvs → uv ∉ target_uvs →
               ∃ sc_uv log_uv,
                 Maya_UV_Snap.snap_one float_pow2 target_uvs target_points thr uv (sc, [])
                 = Ok (sc_uv, log_uv)
                 ∧ polyEditUV_query sc' uv = polyEditUV_query sc_uv uv
                 ∧ filter (fun e => event_uv e = uv) log = log_uv).
Proof.
  intros Hlen Hnd Hsrc source_uvs target_uvs common_uvs run.
  assert (NoDup source_uvs) as Hnds.
  { unfold source_uvs. rewrite <- Hsrc. by apply NoDup_filter. }
  unfold run, Maya_UV_Snap.snap_uv_to_nearest.
  destruct selected_uvs as [|x [|y rest]]; [simpl in Hlen; lia..|].
  rewrite Hsrc. fold target_uvs.
  destruct target_uvs as [|t0 ts] eqn:Ht.
  { split; [|done]. intros Hne. exfalso. apply Hne. unfold common_uvs. set_solver. }
  fold common_uvs. destruct (decide (common_uvs = ∅)) as [Hempty|Hne]; [|by split].
  split; [done|]. intros sc' log.
  destruct (Maya_UV_Snap.collect_points sc (t0 :: ts)) as [pts|e]; [|by rewrite bind_Raise].
  rewrite bind_Ok.
  destruct (Maya_UV_Snap.snap_loop float_pow2 (t0 :: ts) pts thr (first_source :: more) (sc, []))
    as [[sc1 log1]|e] eqn:Hloop; [|by rewrite bind_Raise].
  rewrite bind_Ok. intros [= <- <-]. split; [done|].
  pose proof (snap_loop_frame _ _ _ _ _ _ _ _ _ Hloop) as (Hq & new & Hlog & Hnew).
  simpl in Hlog. subst log1. split.
  - intros uv Huv. split; [by apply Hq|].
    intros ev Hev Heq. apply (Hnew ev Hev). by rewrite Heq.
  - exists pts. split; [done|]. intros uv Huv _.
    apply (snap_loop_processed float_pow2 _ _ _ _ Hnds) in Hloop
      as (_ & _ & new' & Hlog' & _ & Heach).
    simpl in Hlog'. subst new'. by apply Heach.
Qed.

(** C7 on the example scene.  With [b], which lies on the target shell, as the
    first source point the call is rejected, with the two common points
    counted.  With [a] first the call goes on: [b] is skipped and [a] is
    processed, moved to (0.005, 0) and reported. *)
Lemma snap_overlap_guard_witness :
  Maya_UV_Snap.snap_uv_to_nearest Platform.float_pow2 Snap.scene [Snap.b; Snap.a; Snap.t]
    (Maya_UV_Snap.SelectToggle (Some Snap.t)) 0.01%float
  = Ok (Maya_UV_Snap.Warned (Maya_UV_Snap.WarnCommon 2))
  ∧ ∃ sc' log,
      Maya_UV_Snap.snap_uv_to_nearest Platform.float_pow2 Snap.scene [Snap.a; Snap.b; Snap.t]
        (Maya_UV_Snap.SelectToggle (Some Snap.t)) 0.01%float
      = Ok (Maya_UV_Snap.Done sc' log)
      ∧ polyEditUV_query sc' Snap.b = Some [0.005; 0]%float
      ∧ polyEditUV_query sc' Snap.a = Some [0.005; 0]%float
      ∧ filter (fun e => event_uv e = Snap.a) log
        = [Maya_UV_Snap.Snapped Snap.a (0.005, 0)%float 0.005%float].
Proof.
  assert (∀ l : list UVComp, l = [Snap.b; Snap.a; Snap.t] ∨ l = [Snap.a; Snap.b; Snap.t] →
            2 ≤ length l ∧ NoDup l) as Hsel.
  { intros l [->| ->]; (split; [simpl; lia|]);
      apply (bool_decide_unpack (NoDup _)); vm_compute; exact I. }
  split.
  - destruct (Hsel _ (or_introl eq_refl)) as [Hlen Hnd].
    assert (filter (fun uv => uv ≠ Snap.t) [Snap.b; Snap.a; Snap.t] = Snap.b :: [Snap.a])
      as Hsrc by reflexivity.
    pose proof (snap_overlap_guard Platform.float_pow2 Snap.scene _ Snap.t Snap.b [Snap.a]
                  0.01%float Hlen Hnd Hsrc) as [Hguard _].
    rewrite Hguard; [reflexivity|]. vm_compute. discriminate.
  - destruct (Hsel _ (or_intror eq_refl)) as [Hlen Hnd].
    assert (filter (fun uv => uv ≠ Snap.t) [Snap.a; Snap.b; Snap.t] = Snap.a :: [Snap.b])
      as Hsrc by reflexivity.
    pose proof (snap_overlap_guard Platform.float_pow2 Snap.scene _ Snap.t Snap.a [Snap.b]
                  0.01%float Hlen Hnd Hsrc) as [_ Hdone].
    assert (∃ sc' log,
              Maya_UV_Snap.snap_uv_to_nearest Platform.float_pow2 Snap.scene
                [Snap.a; Snap.b; Snap.t] (Maya_UV_Snap.SelectToggle (Some Snap.t)) 0.01%float
              = Ok (Maya_UV_Snap.Done sc' log)) as (sc' & log & Hrun)
      by (eexists _, _; vm_compute; reflexivity).
    destruct (Hdone sc' log Hrun) as (_ & Htarget & pts & Hpts & Heach).
    assert (Snap.b ∈ polySelectBorderShell Snap.scene Snap.t) as Hb
      by (vm_compute; set_solver).
    assert (Snap.a ∉ polySelectBorderShell Snap.scene Snap.t) as Ha.
    { change (Snap.a ∉ [Snap.b; Snap.t]). intros Hin.
      repeat (apply elem_of_cons in Hin as [Hin|Hin]; [discriminate Hin|]).
      by apply elem_of_nil in Hin. }
    destruct (Heach Snap.a ltac:(by left) Ha) as (sc_a & log_a & Hone & Hqa & Hfilter).
    assert (pts = [(0.005, 0); (0.5, 0.5)]%float) as ->.
    { vm_compute in Hpts. by injection Hpts as <-. }
    vm_compute in Hone. injection Hone as <- <-.
    exists sc', log. split; [exact Hrun|]. split.
    + destruct (Htarget Snap.b Hb) as [-> _]. reflexivity.
    + split; [rewrite Hqa; reflexivity|exact Hfilter].
Defined.



(** C9. Shell extraction.  Where the host's shells partition the UV points,
    [get_selected_uv_shells] returns one representative per connected region
    met in the selection: their shells are the shells of the selected UV
    points in the order of first encounter, each once (a point whose shell has
    already been produced is skipped).  It returns nothing exactly when the
    selection holds no UV component (an empty selection included), and
    [copy_uv_shell] then warns that nothing is selected and leaves the
    clipboard as it is. *)
Theorem shell_extraction (sc : Scene) (selection : list component) :
  shells_partition sc →
  match UVShellCopyPasteTool.get_selected_uv_shells sc selection with
  | Some uv_shells =>
      filterExpand_uv selection ≠ []
      ∧ polySelectBorderShell sc <$> uv_shells
        = first_occurrences [] (polySelectBorderShell sc <$> filterExpand_uv selection)
      ∧ NoDup (polySelectBorderShell sc <$> uv_shells)
  | None =>
      filterExpand_uv selection = []
      ∧ ∀ clipboard,
          UVShellCopyPasteTool.copy_uv_shell sc clipboard selection
          = (clipboard, Ok UVShellCopyPasteTool.WarnNothingSelected)
  end.
Proof.
  intros Hp.
  pose proof (collect_shells_regions sc Hp (filterExpand_uv selection) ∅ [] []) as Hreg.
  simpl in Hreg.
  assert (∀ uv, uv ∈ (∅ : gset UVComp) ↔ polySelectBorderShell sc uv ∈ @nil (list UVComp)) as Hinv.
  { intros uv. rewrite elem_of_nil. set_solver. }
  specialize (Hreg Hinv).
  unfold UVShellCopyPasteTool.copy_uv_shell, UVShellCopyPasteTool.get_selected_uv_shells.
  destruct selection as [|c selection]; [done|].
  destruct (filterExpand_uv (c :: selection)) as [|uv uvs] eqn:Hsel; [done|].
  destruct (UVShellCopyPasteTool.collect_shells sc (uv :: uvs) ∅ []) as [|r rs] eqn:Hcol.
  - exfalso. simpl in Hreg. done.
  - split; [done|]. split; [done|]. rewrite Hreg.
    apply first_occurrences_NoDup.
Qed.

(** C9 on a mesh with two shells: a selection that wanders over both yields
    one representative per shell, in the order the shells are first met. *)
Lemma shell_extraction_witness :
  shells_partition Shells.two_shells
  ∧ UVShellCopyPasteTool.get_selected_uv_shells Shells.two_shells Shells.selection
    = Some [("m", 3%Z); ("m", 0%Z)]
  ∧ polySelectBorderShell Shells.two_shells <$> [("m", 3%Z); ("m", 0%Z)]
    = first_occurrences []
        (polySelectBorderShell Shells.two_shells <$> filterExpand_uv Shells.selection).
Proof.
  assert (∀ obj i, obj = "m" ∧ (0 ≤ i < 5)%Z →
            polySelectBorderShell Shells.two_shells (obj, i) = Shells.shell_of (obj, i)) as Hin.
  { intros obj i H. simpl. by rewrite decide_True. }
  assert (∀ obj i, ¬ (obj = "m" ∧ (0 ≤ i < 5)%Z) →
            polySelectBorderShell Shells.two_shells (obj, i) = [(obj, i)]) as Hout.
  { intros obj i H. simpl. by rewrite decide_False. }
  assert (shells_partition Shells.two_shells) as Hp.
  { split.
    - intros [obj i].
      destruct (decide (obj = "m" ∧ (0 ≤ i < 5)%Z)) as [Hm|Hm].
      + rewrite Hin by done. destruct Hm as [-> Hi]. unfold Shells.shell_of. simpl.
        case_decide; set_unfold; [assert (i = 0 ∨ i = 1 ∨ i = 2)%Z as Hc by lia
                                 |assert (i = 3 ∨ i = 4)%Z as Hc by lia]; naive_solver.
      + rewrite Hout by done. set_solver.
    - intros [obj i] [obj' i'] Hmem.
      destruct (decide (obj = "m" ∧ (0 ≤ i < 5)%Z)) as [Hm|Hm].
      + rewrite (Hin obj i) in Hmem |- * by done.
        assert (obj' = "m" ∧ (0 ≤ i' < 5)%Z ∧ ((i' < 3)%Z ↔ (i < 3)%Z)) as (Hm1 & Hm2 & Hm3).
        { unfold Shells.shell_of in Hmem. simpl in Hmem.
          case_decide; set_unfold; destruct_or!; simplify_eq; (split; [done|lia]). }
        rewrite (Hin obj' i') by done. unfold Shells.shell_of. simpl.
        repeat case_decide; try done; try lia.
      + rewrite (Hout obj i) in Hmem by done.
        apply list_elem_of_singleton in Hmem. by rewrite Hmem. }
  split; [exact Hp|].
  pose proof (shell_extraction Shells.two_shells Shells.selection Hp) as H.
  change (UVShellCopyPasteTool.get_selected_uv_shells Shells.two_shells Shells.selection)
    with (Some [("m", 3%Z); ("m", 0%Z)]) in H.
  split; [reflexivity|]. exact (proj1 (proj2 H)).
Defined.

(** C10. During a whole-mesh copy, a UV index whose coordinate query raises is
    recorded in the snapshot with the coordinate (0.0, 0.0): it is neither
    left out nor does it stop the copy.  A later paste therefore writes
    (0.0, 0.0) to the target point paired with it and, the host accepting the
    write, counts it among the applied points. *)
Theorem unreadable_coordinate_recorded_as_origin
    (sc0 : Scene) (mesh0 : string) (uv_id : Z)
    (target_mesh : string) (targets : list Z) (st : UVTransferTool.applied)
    (i : nat) (target_uv_id : Z) :
  (0 ≤ uv_id < polyEvaluate_uvcoord sc0 mesh0)%Z →
  polyEditUV_query sc0 (mesh0, uv_id) = None →
  let source := UVTransferTool.get_mesh_uv_data sc0 mesh0 in
  let a := UVTransferTool.apply_coords source target_mesh targets
             (UVTransferTool.sorted_uv_ids source) st in
  let applied_points :=
    filter (fun uv => polyEditUV_locked (UVTransferTool.scene_after st) uv = false)
           ((fun t => (target_mesh, t))
            <$> take (length (UVTransferTool.sorted_uv_ids source)) targets) in
  od_get uv_id (UVTransferTool.uv_data source) = Some (PrimFloat.zero, PrimFloat.zero)
  ∧ uv_id ∈ UVTransferTool.sorted_uv_ids source
  ∧ UVTransferTool.apply_count a = UVTransferTool.apply_count st + length applied_points
  ∧ (NoDup targets →
     UVTransferTool.sorted_uv_ids source !! i = Some uv_id →
     targets !! i = Some target_uv_id →
     polyEditUV_locked (UVTransferTool.scene_after st) (target_mesh, target_uv_id) = false →
     polyEditUV_query (UVTransferTool.scene_after a) (target_mesh, target_uv_id)
     = Some [PrimFloat.zero; PrimFloat.zero]
     ∧ (target_mesh, target_uv_id) ∈ applied_points).
Proof.
  intros Hrange Hraise source a applied_points.
  assert (od_get uv_id (UVTransferTool.uv_data source)
          = Some (PrimFloat.zero, PrimFloat.zero)) as Hget.
  { simpl. rewrite foldl_read_coord_get.
    rewrite decide_True by (apply elem_of_seqZ; lia).
    unfold recorded. by rewrite Hraise. }
  set (refused := replicate (UVTransferTool.error_count st) (target_mesh, 0%Z)).
  set (writes := mesh_writes (UVTransferTool.uv_data source) target_mesh targets
                   (UVTransferTool.sorted_uv_ids source)).
  set (w0 := {| w_scene := UVTransferTool.scene_after st;
                w_applied := UVTransferTool.apply_count st;
                w_refused := refused |}).
  assert (a = {| UVTransferTool.scene_after := w_scene (write_all writes w0);
                 UVTransferTool.apply_count := w_applied (write_all writes w0);
                 UVTransferTool.error_count := length (w_refused (write_all writes w0)) |})
    as Ha.
  { apply (mesh_apply_coords_writes source target_mesh targets
             (UVTransferTool.sorted_uv_ids source) st refused).
    apply length_replicate. }
  assert (writes.*1 = (fun t => (target_mesh, t))
                      <$> take (length (UVTransferTool.sorted_uv_ids source)) targets) as Hfst.
  { apply paired_writes_targets_fst. intros s Hs. by apply get_mesh_uv_data_sorted. }
  split_and!.
  - done.
  - change (UVTransferTool.sorted_uv_ids source)
      with (sorted (anchor_key (UVTransferTool.uv_to_vertex source))
                   (od_keys (UVTransferTool.uv_data source))).
    rewrite sorted_perm. apply od_get_keys. by rewrite Hget.
  - rewrite Ha. simpl. destruct (write_all_counts_fst writes w0) as [-> _].
    by rewrite Hfst.
  - intros Hnd Hs Ht Hlock. split.
    + rewrite Ha. simpl. apply write_all_written; [by apply paired_writes_NoDup| |done].
      eapply paired_writes_lookup; [done..|]. exact Hget.
    + apply list_elem_of_filter. split; [done|].
      apply list_elem_of_fmap. exists target_uv_id. split; [done|].
      apply list_elem_of_lookup. exists i. rewrite lookup_take_lt; [done|].
      by eapply lookup_lt_Some.
Qed.

(** C10 on a source mesh whose UV point 2 cannot be read: the target point
    paired with it ends at the origin, and all four writes are counted. *)
Lemma unreadable_coordinate_recorded_as_origin_witness :
  od_get 2%Z (UVTransferTool.uv_data Meshes.source) = Some (0, 0)%float
  ∧ UVTransferTool.sorted_uv_ids Meshes.source = [0; 1; 2; 3]%Z
  ∧ let a := UVTransferTool.apply_coords Meshes.source "|t1|t1Shape" [3; 2; 1; 0]%Z
               (UVTransferTool.sorted_uv_ids Meshes.source)
               {| UVTransferTool.scene_after := Meshes.scene;
                  UVTransferTool.apply_count := 0;
                  UVTransferTool.error_count := 0 |} in
    polyEditUV_query (UVTransferTool.scene_after a) ("|t1|t1Shape", 1%Z)
    = Some [0; 0]%float
    ∧ UVTransferTool.apply_count a = 4.
Proof.
  assert (0 ≤ 2 < polyEvaluate_uvcoord Meshes.scene "|src|srcShape")%Z as Hrange
    by (change (0 ≤ 2 < 4)%Z; lia).
  assert (polyEditUV_query Meshes.scene ("|src|srcShape", 2%Z) = None) as Hraise
    by reflexivity.
  assert (NoDup [3; 2; 1; 0]%Z) as Hnd by (apply (bool_decide_unpack _); vm_compute; exact I).
  destruct (unreadable_coordinate_recorded_as_origin Meshes.scene "|src|srcShape" 2%Z
              "|t1|t1Shape" [3; 2; 1; 0]%Z
              {| UVTransferTool.scene_after := Meshes.scene;
                 UVTransferTool.apply_count := 0;
                 UVTransferTool.error_count := 0 |}
              2 1%Z Hrange Hraise) as (Hget & _ & Hcount & Hpaste).
  split; [exact Hget|]. split; [vm_compute; reflexivity|].
  split; [|exact Hcount].
  exact (proj1 (Hpaste Hnd eq_refl eq_refl eq_refl)).
Defined.
(** * Further properties of the three tools *)

(** X1. Absolute transfer.  When [paste_uv_to_mesh] accepts an object, the
    i-th UV point of its mesh in vertex order ends with exactly the coordinate
    the snapshot holds for the i-th source point in vertex order, provided the
    host accepts the write. *)
Theorem mesh_paste_absolute (source : UVTransferTool.mesh_data) (obj target_mesh : string)
    (b : UVTransferTool.batch) (i : nat) (source_uv_id target_uv_id : Z)
    (uv_coords : float * float) :
  UVTransferTool.target_mesh_of (UVTransferTool.scene b) obj = Some target_mesh →
  mesh_verdict (UVTransferTool.scene b) source obj = None →
  UVTransferTool.sorted_uv_ids source !! i = Some source_uv_id →
  target_order (UVTransferTool.scene b) target_mesh !! i = Some target_uv_id →
  od_get source_uv_id (UVTransferTool.uv_data source) = Some uv_coords →
  polyEditUV_locked (UVTransferTool.scene b) (target_mesh, target_uv_id) = false →
  polyEditUV_query (UVTransferTool.scene (UVTransferTool.paste_one source obj b))
    (target_mesh, target_uv_id)
  = Some [uv_coords.1; uv_coords.2].
Proof.
  intros Hmesh Hv Hs Ht Hget Hlock.
  destruct (mesh_verdict_None _ _ _ Hv) as (tm & Htm & Hcheck).
  rewrite Hmesh in Htm. injection Htm as <-.
  destruct (mesh_paste_one_pass source obj target_mesh b Hmesh Hcheck) as (-> & _ & _).
  destruct uv_coords as [u v].
  apply write_all_written; [apply paired_writes_NoDup, target_order_NoDup| |done].
  by eapply paired_writes_lookup.
Qed.

(** X1 on the first target of the example scene, whose UV points are numbered
    against the vertex order: its point 3 receives the coordinate of the
    source point 0. *)
Lemma mesh_paste_absolute_witness :
  polyEditUV_query
    (UVTransferTool.scene
       (UVTransferTool.paste_one Meshes.source "|t1"
          {| UVTransferTool.scene := Meshes.scene; UVTransferTool.success_count := 0;
             UVTransferTool.failed_list := []; UVTransferTool.pasted := [] |}))
    ("|t1|t1Shape", 3%Z)
  = Some [0.125; 0.25]%float.
Proof.
  exact (mesh_paste_absolute Meshes.source "|t1" "|t1|t1Shape"
           {| UVTransferTool.scene := Meshes.scene; UVTransferTool.success_count := 0;
              UVTransferTool.failed_list := []; UVTransferTool.pasted := [] |}
           0 0%Z 3%Z (0.125, 0.25)%float
           eq_refl eq_refl eq_refl eq_refl eq_refl eq_refl).
Defined.

(** X2. A whole-mesh paste writes to the meshes of the objects it accepts and
    to nothing else: a UV point of any other mesh, the source's included, and
    every UV point of an object that is turned down, keeps its coordinate. *)
Theorem mesh_paste_touches_accepted_targets_only
    (sc : Scene) (source : UVTransferTool.mesh_data) (sel : UVTransferTool.selection)
    (uv : UVComp) :
  (∀ obj,
     obj ∈ match UVTransferTool.transforms sel with
           | [] => UVTransferTool.meshes sel
           | ts => ts
           end →
     mesh_verdict sc source obj = None →
     UVTransferTool.target_mesh_of sc obj ≠ Some uv.1) →
  match UVTransferTool.paste_uv_to_mesh sc (Some source) sel with
  | UVTransferTool.Pasted _ b =>
      polyEditUV_query (UVTransferTool.scene b) uv = polyEditUV_query sc uv
  | _ => True
  end.
Proof.
  intros Hother. unfold UVTransferTool.paste_uv_to_mesh.
  set (selection := match UVTransferTool.transforms sel with
                    | [] => UVTransferTool.meshes sel
                    | ts => ts
                    end) in *.
  destruct selection as [|obj rest] eqn:Hsel; [done|]. rewrite <- Hsel in *.
  rewrite (mesh_paste_loop_frame sc source uv selection Hother); [done|].
  apply same_topology_refl.
Qed.

(** X2 on the example scene: the paste leaves the source mesh, here its UV
    point 0, and the rejected second target, here its UV point 5, alone. *)
Lemma mesh_paste_touches_accepted_targets_only_witness :
  ∃ b,
    UVTransferTool.paste_uv_to_mesh Meshes.scene (Some Meshes.source) Meshes.targets
    = UVTransferTool.Pasted 3 b
    ∧ polyEditUV_query (UVTransferTool.scene b) ("|src|srcShape", 0%Z)
      = Some [0.125; 0.25]%float
    ∧ polyEditUV_query (UVTransferTool.scene b) ("|t2|t2Shape", 5%Z)
      = Some [0.5; 0.5]%float.
Proof.
  assert (∀ mesh : string,
            mesh = "|src|srcShape" ∨ mesh = "|t2|t2Shape" →
            ∀ obj, obj ∈ ["|t1"; "|t2"; "|t3"] →
                   mesh_verdict Meshes.scene Meshes.source obj = None →
                   UVTransferTool.target_mesh_of Meshes.scene obj ≠ Some mesh) as Hother.
  { intros mesh Hmesh obj Hobj.
    repeat (apply elem_of_cons in Hobj as [->|Hobj]);
      [| | |by apply elem_of_nil in Hobj];
      vm_compute; intros Hv; try discriminate Hv; intros Heq;
      destruct Hmesh as [->| ->]; discriminate Heq. }
  pose proof (mesh_paste_touches_accepted_targets_only Meshes.scene Meshes.source
                Meshes.targets ("|src|srcShape", 0%Z) (Hother _ (or_introl eq_refl))) as H1.
  pose proof (mesh_paste_touches_accepted_targets_only Meshes.scene Meshes.source
                Meshes.targets ("|t2|t2Shape", 5%Z) (Hother _ (or_intror eq_refl))) as H2.
  assert (∃ b, UVTransferTool.paste_uv_to_mesh Meshes.scene (Some Meshes.source)
                 Meshes.targets
               = UVTransferTool.Pasted 3 b) as [b Hrun]
    by (eexists; vm_compute; reflexivity).
  rewrite Hrun in H1, H2.
  exists b. split; [exact Hrun|].
  split; [rewrite H1|rewrite H2]; vm_compute; reflexivity.
Defined.

(** X3. Self-paste round trip.  Copying a mesh whose coordinate queries all
    answer with a pair, and pasting the snapshot onto that same mesh, is
    accepted and leaves every UV coordinate of the scene as it was. *)
Theorem mesh_self_paste_identity (sc : Scene) (obj mesh0 : string) :
  UVTransferTool.target_mesh_of sc obj = Some mesh0 →
  (∀ i, (0 ≤ i < polyEvaluate_uvcoord sc mesh0)%Z →
        ∃ u v, polyEditUV_query sc (mesh0, i) = Some [u; v]) →
  let source := UVTransferTool.get_mesh_uv_data sc mesh0 in
  let b' := UVTransferTool.paste_one source obj
              {| UVTransferTool.scene := sc; UVTransferTool.success_count := 0;
                 UVTransferTool.failed_list := []; UVTransferTool.pasted := [] |} in
  UVTransferTool.success_count b' = 1
  ∧ UVTransferTool.failed_list b' = []
  ∧ ∀ uv, polyEditUV_query (UVTransferTool.scene b') uv = polyEditUV_query sc uv.
Proof.
  intros Hmesh Hpairs source b'.
  assert (UVTransferTool.check_topology source (polyEvaluate_vertex sc mesh0)
            (polyEvaluate_face sc mesh0) (polyEvaluate_uvcoord sc mesh0) = None) as Hcheck.
  { unfold UVTransferTool.check_topology. simpl. by rewrite !Z.eqb_refl. }
  set (b0 := {| UVTransferTool.scene := sc; UVTransferTool.success_count := 0;
                UVTransferTool.failed_list := []; UVTransferTool.pasted := [] |}) in *.
  destruct (mesh_paste_one_pass source obj mesh0 b0 Hmesh Hcheck) as (Hscene & Hsucc & Hfail).
  fold b' in Hscene, Hsucc, Hfail. split; [done|]. split; [done|].
  intros uv. rewrite Hscene.
  assert (UVTransferTool.sorted_uv_ids source = target_order sc mesh0) as ->.
  { change (UVTransferTool.sorted_uv_ids source)
      with (sorted (anchor_key (UVTransferTool.get_uv_to_vertex_mapping sc mesh0))
              (od_keys (UVTransferTool.uv_data source))).
    unfold source. rewrite get_mesh_uv_data_keys, filter_all; [done|].
    intros i Hi. unfold range in Hi. apply elem_of_seqZ in Hi.
    apply recorded_is_Some. right. destruct (Hpairs i) as (u & v & ->); [lia|].
    by eexists _, _, _. }
  rewrite write_all_same; [done|]. cbn [w_scene].
  intros w Hw. unfold mesh_writes in Hw.
  apply paired_writes_diag in Hw as (t & _ & Hw1 & Hw2).
  unfold source in Hw2. rewrite get_mesh_uv_data_get in Hw2.
  case_decide as Hrange; [|done].
  destruct (Hpairs t Hrange) as (u & v & Hq).
  unfold recorded in Hw2. rewrite Hq in Hw2.
  destruct w as [uvw [wu wv]]. simpl in *. by simplify_eq.
Qed.

(** X3 on the first target of the example scene, copied and pasted onto
    itself. *)
Lemma mesh_self_paste_identity_witness :
  let b' := UVTransferTool.paste_one
              (UVTransferTool.get_mesh_uv_data Meshes.scene "|t1|t1Shape") "|t1"
              {| UVTransferTool.scene := Meshes.scene; UVTransferTool.success_count := 0;
                 UVTransferTool.failed_list := []; UVTransferTool.pasted := [] |} in
  UVTransferTool.success_count b' = 1
  ∧ ∀ uv, polyEditUV_query (UVTransferTool.scene b') uv = polyEditUV_query Meshes.scene uv.
Proof.
  assert (∀ i, (0 ≤ i < polyEvaluate_uvcoord Meshes.scene "|t1|t1Shape")%Z →
               ∃ u v, polyEditUV_query Meshes.scene ("|t1|t1Shape", i) = Some [u; v])
    as Hpairs by (intros i _; by eexists _, _).
  destruct (mesh_self_paste_identity Meshes.scene "|t1" "|t1|t1Shape" eq_refl Hpairs)
    as (Hsucc & _ & Hsame).
  split; [exact Hsucc|exact Hsame].
Defined.

(** X4. The canonical orders of the whole-mesh tool are ascending in the
    anchor: in the order of a snapshot, and in the order computed for a
    target, a UV index stands before another only if the vertex the host
    reports for it (its own index where the host reports none) is not
    larger. *)
Theorem mesh_orders_ascending_in_anchor (sc : Scene) (mesh : string)
    (order : list Z) (i j : nat) (a b : Z) :
  order = UVTransferTool.sorted_uv_ids (UVTransferTool.get_mesh_uv_data sc mesh)
  ∨ order = target_order sc mesh →
  order !! i = Some a → order !! j = Some b → i < j →
  (anchor sc (mesh, a) ≤ anchor sc (mesh, b))%Z.
Proof.
  intros Horder Ha Hb Hij.
  set (m := UVTransferTool.get_uv_to_vertex_mapping sc mesh).
  assert (StronglySorted (key_le (anchor_key m)) order
          ∧ ∀ x, x ∈ order → (0 ≤ x < polyEvaluate_uvcoord sc mesh)%Z) as [Hsorted Hrange].
  { destruct Horder as [->| ->].
    - split; [apply sorted_sorted|]. by intros x [? _]%sorted_uv_ids_elem.
    - split; [apply sorted_sorted|]. intros x. unfold target_order.
      rewrite sorted_perm. unfold range. rewrite elem_of_seqZ. lia. }
  assert (∀ x, x ∈ order → anchor_key m x = anchor sc (mesh, x)) as Hkey.
  { intros x Hx. unfold anchor_key, m. rewrite mesh_mapping_lookup.
    by rewrite decide_True by (by apply Hrange). }
  rewrite <- !Hkey by (eapply list_elem_of_lookup_2; eauto).
  eapply (StronglySorted_lookup_lt (key_le (anchor_key m))); eauto.
Qed.

(** X4 on the first target of the example scene, whose vertices run against
    its UV indices: its order is 3, 2, 1, 0. *)
Lemma mesh_orders_ascending_in_anchor_witness :
  target_order Meshes.scene "|t1|t1Shape" = [3; 2; 1; 0]%Z
  ∧ (anchor Meshes.scene ("|t1|t1Shape", 3) ≤ anchor Meshes.scene ("|t1|t1Shape", 1))%Z.
Proof.
  split; [vm_compute; reflexivity|].
  apply (mesh_orders_ascending_in_anchor Meshes.scene "|t1|t1Shape" [3; 2; 1; 0]%Z 0 2).
  - right. vm_compute. reflexivity.
  - reflexivity.
  - reflexivity.
  - lia.
Defined.

(** X5. What a whole-mesh snapshot holds.  Its canonical order lists, each
    once, exactly the UV indices below the UV count whose coordinate query
    raised or answered with at least two numbers; an index whose query came
    back shorter is left out.  An answered query is stored as its first two
    numbers. *)
Theorem mesh_snapshot_ids (sc : Scene) (mesh : string) (i : Z) :
  let source := UVTransferTool.get_mesh_uv_data sc mesh in
  (i ∈ UVTransferTool.sorted_uv_ids source
   ↔ (0 ≤ i < polyEvaluate_uvcoord sc mesh)%Z
     ∧ (polyEditUV_query sc (mesh, i) = None
        ∨ ∃ u v coords, polyEditUV_query sc (mesh, i) = Some (u :: v :: coords)))
  ∧ NoDup (UVTransferTool.sorted_uv_ids source)
  ∧ (∀ u v coords,
       (0 ≤ i < polyEvaluate_uvcoord sc mesh)%Z →
       polyEditUV_query sc (mesh, i) = Some (u :: v :: coords) →
       od_get i (UVTransferTool.uv_data source) = Some (u, v))
  ∧ (i ∉ UVTransferTool.sorted_uv_ids source →
     od_get i (UVTransferTool.uv_data source) = None).
Proof.
  intros source. split_and!.
  - unfold source. by rewrite sorted_uv_ids_elem, recorded_is_Some.
  - change (UVTransferTool.sorted_uv_ids source)
      with (sorted (anchor_key (UVTransferTool.get_uv_to_vertex_mapping sc mesh))
              (od_keys (UVTransferTool.uv_data source))).
    rewrite sorted_perm. unfold source. rewrite get_mesh_uv_data_keys.
    apply NoDup_filter, NoDup_seqZ.
  - intros u v coords Hrange Hq. unfold source.
    rewrite get_mesh_uv_data_get, decide_True by done. unfold recorded. by rewrite Hq.
  - intros Hnot. unfold source in *. rewrite sorted_uv_ids_elem in Hnot.
    rewrite get_mesh_uv_data_get. case_decide; [|done].
    destruct (recorded sc mesh i) eqn:Hrec; [|done]. exfalso. apply Hnot. eauto.
Qed.

(** X5 on a mesh with five UV points, of which point 1 answers with a single
    number and point 3 raises: the snapshot leaves out point 1 only. *)
Lemma mesh_snapshot_ids_witness :
  UVTransferTool.sorted_uv_ids (UVTransferTool.get_mesh_uv_data Short.scene "mesh")
  = [4; 3; 2; 0]%Z
  ∧ od_get 1%Z (UVTransferTool.uv_data (UVTransferTool.get_mesh_uv_data Short.scene "mesh"))
    = None
  ∧ od_get 2%Z (UVTransferTool.uv_data (UVTransferTool.get_mesh_uv_data Short.scene "mesh"))
    = Some (0.25, 0.75)%float.
Proof.
  split; [vm_compute; reflexivity|].
  destruct (mesh_snapshot_ids Short.scene "mesh" 1%Z) as (Hin & _ & _ & Hout).
  destruct (mesh_snapshot_ids Short.scene "mesh" 2%Z) as (_ & _ & Hget & _).
  split.
  - apply Hout. rewrite Hin. intros [_ [Hq|(u & v & coords & Hq)]]; discriminate Hq.
  - apply (Hget _ _ [0%float]); [change (0 ≤ 2 < 5)%Z; lia|reflexivity].
Defined.

(** X6. A shell paste writes to the points of the shells it accepts and to
    nothing else.  The points it writes carry the object name of the shell's
    representative and a UV index of that shell; any other UV point, those of
    the source shell and of a shell that is turned down included, ends the
    paste with the coordinate it had. *)
Theorem shell_paste_touches_accepted_shells_only
    (sc : Scene) (source : UVShellCopyPasteTool.shell_data) (selection : list component)
    (match_topology : bool) (uv_shells : list UVComp) (uv : UVComp)
    (total : nat) (b : UVShellCopyPasteTool.batch) :
  UVShellCopyPasteTool.get_selected_uv_shells sc selection = Some uv_shells →
  (∀ uv_shell,
     uv_shell ∈ uv_shells →
     shell_verdict sc source match_topology uv_shell = None →
     uv.1 ≠ uv_shell.1 ∨ uv.2 ∉ (polySelectBorderShell sc uv_shell).*2) →
  UVShellCopyPasteTool.paste_uv_shell sc (Some source) selection match_topology
  = Ok (UVShellCopyPasteTool.Pasted total b) →
  polyEditUV_query (UVShellCopyPasteTool.scene b) uv = polyEditUV_query sc uv.
Proof.
  intros Hshells Hout. unfold UVShellCopyPasteTool.paste_uv_shell. rewrite Hshells.
  destruct uv_shells as [|uv_shell rest] eqn:Huv; [done|]. rewrite <- Huv in *.
  destruct (UVShellCopyPasteTool.paste_loop source match_topology 1 uv_shells _)
    as [b1|e] eqn:Hloop; [rewrite bind_Ok|by rewrite bind_Raise].
  intros [= _ <-].
  apply (shell_paste_loop_frame sc source match_topology uv uv_shells Hout) in Hloop;
    [done|apply same_topology_refl].
Qed.

(** X6 on the example scene: the paste onto the three target shells leaves
    the point 0 of the source shell and the point 5 of the second target,
    which is turned down for its UV count, where they were. *)
Lemma shell_paste_touches_accepted_shells_only_witness :
  ∃ b,
    UVShellCopyPasteTool.paste_uv_shell Batch.scene (Some Batch.source)
      Batch.target_selection true
    = Ok (UVShellCopyPasteTool.Pasted 3 b)
    ∧ polyEditUV_query (UVShellCopyPasteTool.scene b) ("m", 0%Z) = Some [0.25; 0.25]%float
    ∧ polyEditUV_query (UVShellCopyPasteTool.scene b) ("m", 5%Z) = Some [1; 1.5]%float.
Proof.
  assert (UVShellCopyPasteTool.get_selected_uv_shells Batch.scene Batch.target_selection
          = Some [("m", 2%Z); ("m", 4%Z); ("m", 7%Z)]) as Hshells
    by (vm_compute; reflexivity).
  assert (∀ i : Z,
            i = 0%Z ∨ i = 5%Z →
            ∀ uv_shell, uv_shell ∈ [("m", 2%Z); ("m", 4%Z); ("m", 7%Z)] →
              shell_verdict Batch.scene Batch.source true uv_shell = None →
              ("m", i).1 ≠ uv_shell.1
              ∨ ("m", i).2 ∉ (polySelectBorderShell Batch.scene uv_shell).*2) as Hout.
  { intros i Hi uv_shell Hin.
    repeat (apply elem_of_cons in Hin as [->|Hin]);
      [| | |by apply elem_of_nil in Hin];
      vm_compute; intros Hv; try discriminate Hv; right; intros Hmem;
      repeat (apply elem_of_cons in Hmem as [Heq|Hmem];
              [destruct Hi as [->| ->]; discriminate Heq|]);
      by apply elem_of_nil in Hmem. }
  assert (∃ b, UVShellCopyPasteTool.paste_uv_shell Batch.scene (Some Batch.source)
                 Batch.target_selection true
               = Ok (UVShellCopyPasteTool.Pasted 3 b)) as [b Hrun]
    by (eexists; vm_compute; reflexivity).
  pose proof (shell_paste_touches_accepted_shells_only Batch.scene Batch.source
                Batch.target_selection true _ ("m", 0%Z) 3 b
                Hshells (Hout _ (or_introl eq_refl)) Hrun) as H1.
  pose proof (shell_paste_touches_accepted_shells_only Batch.scene Batch.source
                Batch.target_selection true _ ("m", 5%Z) 3 b
                Hshells (Hout _ (or_intror eq_refl)) Hrun) as H2.
  exists b. split; [exact Hrun|].
  split; [rewrite H1|rewrite H2]; vm_compute; reflexivity.
Defined.

(** X7. The canonical order of a shell does not depend on the order in which
    the host lists the shell.  For a shell whose UV points, each listed once,
    lie on the object of its representative and are anchored to pairwise
    distinct vertices, any two listings of the same points give the same
    [sorted_ids], and along them the anchoring vertex strictly increases. *)
Theorem shell_order_independent_of_listing
    (sc sc' : Scene) (uv_shell : UVComp) (d d' : UVShellCopyPasteTool.shell_data) :
  polySelectBorderShell sc' uv_shell ≡ₚ polySelectBorderShell sc uv_shell →
  polyListComponentConversion sc' = polyListComponentConversion sc →
  NoDup (polySelectBorderShell sc uv_shell) →
  (∀ uv, uv ∈ polySelectBorderShell sc uv_shell → uv.1 = uv_shell.1) →
  (∀ x y, x ∈ polySelectBorderShell sc uv_shell → y ∈ polySelectBorderShell sc uv_shell →
          anchor sc x = anchor sc y → x = y) →
  UVShellCopyPasteTool.get_uv_shell_data sc uv_shell = Ok (Some d) →
  UVShellCopyPasteTool.get_uv_shell_data sc' uv_shell = Ok (Some d') →
  UVShellCopyPasteTool.sorted_ids d' = UVShellCopyPasteTool.sorted_ids d
  ∧ ∀ (i j : nat) (a b : Z),
      UVShellCopyPasteTool.sorted_ids d !! i = Some a →
      UVShellCopyPasteTool.sorted_ids d !! j = Some b →
      i < j →
      (anchor sc (uv_shell.1, a) < anchor sc (uv_shell.1, b))%Z.
Proof.
  intros Hperm Hconv Hshell Hobj Hinj Hget Hget'.
  set (key := fun k : Z => anchor sc (uv_shell.1, k)).
  assert (∀ uv, uv ∈ polySelectBorderShell sc' uv_shell → uv.1 = uv_shell.1) as Hobj'.
  { intros uv Huv. apply Hobj. by rewrite <- Hperm. }
  assert (∀ uv, anchor sc' uv = anchor sc uv) as Hanchor.
  { intros uv. unfold anchor. by rewrite Hconv. }
  pose proof (get_uv_shell_data_Some _ _ _ Hget) as (_ & _ & Hids & _ & Hsorted & _).
  pose proof (get_uv_shell_data_Some _ _ _ Hget') as (_ & _ & Hids' & _ & Hsorted' & _).
  assert (UVShellCopyPasteTool.sorted_ids d
          = sorted key (UVShellCopyPasteTool.uv_ids d)) as Hd.
  { rewrite Hsorted. apply sorted_ext. intros k Hk. by apply shell_anchor_key. }
  assert (UVShellCopyPasteTool.sorted_ids d'
          = sorted key (UVShellCopyPasteTool.uv_ids d')) as Hd'.
  { rewrite Hsorted'. apply sorted_ext. intros k Hk.
    rewrite (shell_anchor_key sc' uv_shell d' k Hget' Hobj' Hk). apply Hanchor. }
  assert (∀ k, k ∈ UVShellCopyPasteTool.uv_ids d →
               (uv_shell.1, k) ∈ polySelectBorderShell sc uv_shell) as Hmem.
  { intros k. rewrite Hids. intros ([o k'] & -> & Hin)%list_elem_of_fmap.
    by rewrite <- (Hobj _ Hin). }
  assert (∀ x y, x ∈ UVShellCopyPasteTool.uv_ids d → y ∈ UVShellCopyPasteTool.uv_ids d →
                 key x = key y → x = y) as Hkey.
  { intros x y Hx Hy Heq.
    by injection (Hinj _ _ (Hmem x Hx) (Hmem y Hy) Heq). }
  split.
  - rewrite Hd, Hd'. symmetry. apply sorted_perm_unique; [|done].
    by rewrite Hids, Hids', Hperm.
  - intros i j a b Ha Hb Hij.
    assert (a ∈ UVShellCopyPasteTool.uv_ids d) as Hain.
    { rewrite <- (sorted_perm key), <- Hd. by eapply list_elem_of_lookup_2. }
    assert (b ∈ UVShellCopyPasteTool.uv_ids d) as Hbin.
    { rewrite <- (sorted_perm key), <- Hd. by eapply list_elem_of_lookup_2. }
    assert (key a ≤ key b)%Z as Hle.
    { rewrite Hd in Ha, Hb.
      by eapply (StronglySorted_lookup_lt (key_le key)); [apply sorted_sorted|..]. }
    assert (NoDup (UVShellCopyPasteTool.sorted_ids d)) as Hnd.
    { rewrite Hd, sorted_perm, Hids. apply NoDup_fmap_2_strong; [|done].
      intros [o1 k1] [o2 k2] H1 H2 Heq. simpl in Heq. subst k2.
      by rewrite (Hobj _ H1 : o1 = _), (Hobj _ H2 : o2 = _). }
    assert (a ≠ b) as Hab.
    { intros <-. pose proof (NoDup_lookup _ _ _ _ Hnd Ha Hb). lia. }
    assert (key a ≠ key b) as Hne by (intros Heq; by apply Hab, Hkey).
    unfold key in *. lia.
Qed.

(** X7 on the three-point target shell of the example scene, listed from its
    first point to its last and the other way round: the order is 4, 5, 6
    either way. *)
Lemma shell_order_independent_of_listing_witness :
  ∃ d d',
    UVShellCopyPasteTool.get_uv_shell_data Batch.scene ("m", 4%Z) = Ok (Some d)
    ∧ UVShellCopyPasteTool.get_uv_shell_data Listing.reversed ("m", 4%Z) = Ok (Some d')
    ∧ UVShellCopyPasteTool.uv_ids d = [4; 5; 6]%Z
    ∧ UVShellCopyPasteTool.uv_ids d' = [6; 5; 4]%Z
    ∧ UVShellCopyPasteTool.sorted_ids d' = UVShellCopyPasteTool.sorted_ids d.
Proof.
  destruct (UVShellCopyPasteTool.get_uv_shell_data Batch.scene ("m", 4%Z))
    as [[d|]|e] eqn:Hget; [|discriminate Hget..].
  destruct (UVShellCopyPasteTool.get_uv_shell_data Listing.reversed ("m", 4%Z))
    as [[d'|]|e] eqn:Hget'; [|discriminate Hget'..].
  assert (polySelectBorderShell Listing.reversed ("m", 4%Z)
          ≡ₚ polySelectBorderShell Batch.scene ("m", 4%Z)) as Hperm.
  { apply reverse_Permutation. }
  assert (polySelectBorderShell Batch.scene ("m", 4%Z)
          = [("m", 4%Z); ("m", 5%Z); ("m", 6%Z)]) as Hshell by reflexivity.
  assert (NoDup (polySelectBorderShell Batch.scene ("m", 4%Z))) as Hnd.
  { rewrite Hshell. apply (bool_decide_unpack (NoDup _)). vm_compute. exact I. }
  assert (∀ uv, uv ∈ polySelectBorderShell Batch.scene ("m", 4%Z) → uv.1 = "m") as Hobj.
  { rewrite Hshell. intros uv Huv.
    repeat (apply elem_of_cons in Huv as [->|Huv]); [done..|by apply elem_of_nil in Huv]. }
  assert (∀ x y, x ∈ polySelectBorderShell Batch.scene ("m", 4%Z) →
                 y ∈ polySelectBorderShell Batch.scene ("m", 4%Z) →
                 anchor Batch.scene x = anchor Batch.scene y → x = y) as Hinj.
  { rewrite Hshell. intros x y Hx Hy.
    repeat (apply elem_of_cons in Hx as [->|Hx]); [| | |by apply elem_of_nil in Hx];
      repeat (apply elem_of_cons in Hy as [->|Hy]); try (by apply elem_of_nil in Hy);
      vm_compute; intros Heq; first [reflexivity|discriminate Heq]. }
  destruct (shell_order_independent_of_listing Batch.scene Listing.reversed ("m", 4%Z) d d'
              Hperm eq_refl Hnd Hobj Hinj Hget Hget') as [Heq _].
  exists d, d'. split; [reflexivity|]. split; [reflexivity|].
  split; [by injection Hget as <-|]. split; [by injection Hget' as <-|]. exact Heq.
Defined.

(** X8. A copy reads one shell: that of the first UV component of the
    selection.  Whatever else is selected, other shells included, the
    clipboard and the outcome are those of a copy with that component alone
    selected, provided the host finds a shell for it. *)
Theorem copy_reads_first_shell_only
    (sc : Scene) (clipboard : option UVShellCopyPasteTool.shell_data)
    (selection : list component) (uv0 : UVComp) (more : list UVComp) :
  filterExpand_uv selection = uv0 :: more →
  polySelectBorderShell sc uv0 ≠ [] →
  UVShellCopyPasteTool.copy_uv_shell sc clipboard selection
  = UVShellCopyPasteTool.copy_uv_shell sc clipboard [UV uv0].
Proof.
  intros Hsel Hne.
  destruct (polySelectBorderShell sc uv0) as [|first others] eqn:Hshell; [done|].
  destruct (get_selected_uv_shells_head sc selection uv0 first more others Hsel Hshell)
    as [rest Hall].
  destruct (get_selected_uv_shells_head sc [UV uv0] uv0 first [] others eq_refl Hshell)
    as [rest' Hone].
  unfold UVShellCopyPasteTool.copy_uv_shell. by rewrite Hall, Hone.
Qed.

(** X8 on the mesh with two shells: the selection wanders over both shells
    and starts on the point 4, and the copy takes the shell 3, 4 as it does
    with the point 4 alone selected. *)
Lemma copy_reads_first_shell_only_witness :
  UVShellCopyPasteTool.copy_uv_shell Shells.two_shells None Shells.selection
  = UVShellCopyPasteTool.copy_uv_shell Shells.two_shells None [UV ("m", 4%Z)]
  ∧ UVShellCopyPasteTool.uv_ids
      <$> (UVShellCopyPasteTool.copy_uv_shell Shells.two_shells None Shells.selection).1
    = Some [3; 4]%Z.
Proof.
  assert (filterExpand_uv Shells.selection
          = ("m", 4%Z) :: [("m", 1%Z); ("m", 3%Z); ("m", 0%Z)]) as Hsel by reflexivity.
  assert (polySelectBorderShell Shells.two_shells ("m", 4%Z) ≠ []) as Hne
    by (vm_compute; discriminate).
  pose proof (copy_reads_first_shell_only Shells.two_shells None Shells.selection
                ("m", 4%Z) _ Hsel Hne) as Heq.
  split; [exact Heq|]. rewrite Heq. vm_compute. reflexivity.
Defined.

(** X9. A shell paste stops at the end of the shorter order.  When the
    target shell has more UV points than the source, which the paste allows
    with the count check switched off, the target points past the length of
    the source order (in vertex order) keep their coordinates. *)
Theorem shell_paste_stops_at_source_length
    (source : UVShellCopyPasteTool.shell_data) (match_topology : bool) (idx : nat)
    (uv_shell : UVComp) (b b' : UVShellCopyPasteTool.batch)
    (target : UVShellCopyPasteTool.shell_data) (i : nat) (target_uv_id : Z) :
  UVShellCopyPasteTool.get_uv_shell_data (UVShellCopyPasteTool.scene b) uv_shell
  = Ok (Some target) →
  UVShellCopyPasteTool.paste_one source match_topology idx uv_shell b = Ok b' →
  NoDup (UVShellCopyPasteTool.sorted_ids target) →
  UVShellCopyPasteTool.sorted_ids target !! i = Some target_uv_id →
  length (UVShellCopyPasteTool.sorted_ids source) ≤ i →
  polyEditUV_query (UVShellCopyPasteTool.scene b')
    (UVShellCopyPasteTool.object target, target_uv_id)
  = polyEditUV_query (UVShellCopyPasteTool.scene b)
      (UVShellCopyPasteTool.object target, target_uv_id).
Proof.
  intros Hget Hone Hnd Hi Hlen. revert Hone.
  unfold UVShellCopyPasteTool.paste_one. rewrite Hget, bind_Ok.
  destruct (UVShellCopyPasteTool.check_uv_count _ _ _) as [why|].
  { by intros [= <-]. }
  destruct (UVShellCopyPasteTool.centroid _) as [c|e]; [rewrite bind_Ok|by rewrite bind_Raise].
  destruct (UVShellCopyPasteTool.apply_coords _ _ _ _ _ _) as [a|e] eqn:Happly;
    [rewrite bind_Ok|by rewrite bind_Raise].
  intros [= <-]. simpl.
  rewrite (shell_apply_coords_frame_take _ _ _ _ _ _ _ _ Happly); [done|].
  simpl. by eapply take_lookup_ge_NoDup.
Qed.

(** X9 on the example scene: with the count check off, the paste of the
    two-point source onto the three-point shell 4, 5, 6 succeeds and leaves
    the point 6, the third in vertex order, at (1.5, 1). *)
Lemma shell_paste_stops_at_source_length_witness :
  ∃ b',
    UVShellCopyPasteTool.paste_one Batch.source false 1 ("m", 4%Z) (Batch.start Batch.scene)
    = Ok b'
    ∧ UVShellCopyPasteTool.success_count b' = 1
    ∧ polyEditUV_query (UVShellCopyPasteTool.scene b') ("m", 6%Z) = Some [1.5; 1]%float.
Proof.
  destruct (UVShellCopyPasteTool.get_uv_shell_data Batch.scene ("m", 4%Z))
    as [[target|]|e] eqn:Hget; [|discriminate Hget..].
  destruct (UVShellCopyPasteTool.paste_one Batch.source false 1 ("m", 4%Z)
              (Batch.start Batch.scene)) as [b'|e] eqn:Hone; [|discriminate Hone].
  assert (UVShellCopyPasteTool.sorted_ids target = [4; 5; 6]%Z) as Hsorted
    by (by injection Hget as <-).
  assert (UVShellCopyPasteTool.object target = "m") as Hobj by (by injection Hget as <-).
  assert (NoDup (UVShellCopyPasteTool.sorted_ids target)) as Hnd.
  { rewrite Hsorted. apply (bool_decide_unpack (NoDup _)). vm_compute. exact I. }
  assert (UVShellCopyPasteTool.sorted_ids target !! 2 = Some 6%Z) as Hi
    by (by rewrite Hsorted).
  assert (length (UVShellCopyPasteTool.sorted_ids Batch.source) ≤ 2) as Hlen
    by (vm_compute; lia).
  pose proof (shell_paste_stops_at_source_length Batch.source false 1 ("m", 4%Z)
                (Batch.start Batch.scene) b' target 2 6%Z Hget Hone Hnd Hi Hlen) as Hkeep.
  rewrite Hobj in Hkeep.
  exists b'. split; [reflexivity|]. split.
  - by injection Hone as <-.
  - rewrite Hkeep. reflexivity.
Defined.

(** X10. A coordinate read that comes back short costs the whole-mesh paste
    its last points.  The snapshot leaves such a UV index out, so its order is
    shorter than that of a target that passes the topology check, and the
    target points past its length (in vertex order) keep their coordinates. *)
Theorem mesh_paste_stops_at_snapshot_length
    (source : UVTransferTool.mesh_data) (obj target_mesh : string)
    (b : UVTransferTool.batch) (i : nat) (target_uv_id : Z) :
  UVTransferTool.target_mesh_of (UVTransferTool.scene b) obj = Some target_mesh →
  target_order (UVTransferTool.scene b) target_mesh !! i = Some target_uv_id →
  length (UVTransferTool.sorted_uv_ids source) ≤ i →
  polyEditUV_query (UVTransferTool.scene (UVTransferTool.paste_one source obj b))
    (target_mesh, target_uv_id)
  = polyEditUV_query (UVTransferTool.scene b) (target_mesh, target_uv_id).
Proof.
  intros Hmesh Hi Hlen.
  destruct (mesh_verdict (UVTransferTool.scene b) source obj) as [why|] eqn:Hv.
  { apply mesh_paste_one_frame. by rewrite Hv. }
  destruct (mesh_verdict_None _ _ _ Hv) as (tm & Htm & Hcheck).
  rewrite Hmesh in Htm. injection Htm as <-.
  destruct (mesh_paste_one_pass source obj target_mesh b Hmesh Hcheck) as (-> & _ & _).
  rewrite write_all_frame; [done|].
  intros (w & Hw & Hin)%list_elem_of_fmap.
  apply paired_writes_targets_take in Hin as [_ Hin]. rewrite <- Hw in Hin. simpl in Hin.
  revert Hin. by eapply take_lookup_ge_NoDup; [apply target_order_NoDup|..].
Qed.

(** X10 on the mesh with five UV points of which the read of point 1 comes
    back short: pasted onto itself, the mesh passes the check, its snapshot
    holds four points, and the point 0, the fifth in vertex order, keeps the
    three numbers the host had for it. *)
Lemma mesh_paste_stops_at_snapshot_length_witness :
  UVTransferTool.sorted_uv_ids (UVTransferTool.get_mesh_uv_data Short.scene "mShape")
  = [4; 3; 2; 0]%Z
  ∧ target_order Short.scene "mShape" = [4; 3; 2; 1; 0]%Z
  ∧ polyEditUV_query
      (UVTransferTool.scene
         (UVTransferTool.paste_one (UVTransferTool.get_mesh_uv_data Short.scene "mShape")
            "mShape"
            {| UVTransferTool.scene := Short.scene; UVTransferTool.success_count := 0;
               UVTransferTool.failed_list := []; UVTransferTool.pasted := [] |}))
      ("mShape", 0%Z)
    = Some [0.25; 0.75; 0]%float.
Proof.
  split; [vm_compute; reflexivity|]. split; [vm_compute; reflexivity|].
  assert (length (UVTransferTool.sorted_uv_ids
                    (UVTransferTool.get_mesh_uv_data Short.scene "mShape")) ≤ 4) as Hlen
    by (vm_compute; lia).
  rewrite (mesh_paste_stops_at_snapshot_length
             (UVTransferTool.get_mesh_uv_data Short.scene "mShape") "mShape" "mShape"
             {| UVTransferTool.scene := Short.scene; UVTransferTool.success_count := 0;
                UVTransferTool.failed_list := []; UVTransferTool.pasted := [] |}
             4 0%Z eq_refl eq_refl Hlen).
  reflexivity.
Defined.

(** X11. The shell tool does not guard its coordinate reads.  If the host
    raises on a UV point of the shell a copy is to read, the copy raises and
    the clipboard keeps what it held.  If it raises on a UV point of a target
    shell when the paste gets to that shell, the whole paste raises: it
    neither enters the shell in [failed_list] nor returns a result for the
    other shells. *)
Theorem shell_tool_raises_on_unreadable_point
    (sc : Scene) (clipboard : option UVShellCopyPasteTool.shell_data)
    (source : UVShellCopyPasteTool.shell_data) (selection : list component)
    (match_topology : bool) (pre post : list UVComp) (uv_shell uv : UVComp) :
  UVShellCopyPasteTool.get_selected_uv_shells sc selection = Some (pre ++ uv_shell :: post) →
  uv ∈ polySelectBorderShell sc uv_shell →
  (pre = [] →
   polyEditUV_query sc uv = None →
   UVShellCopyPasteTool.copy_uv_shell sc clipboard selection = (clipboard, Raise RuntimeError))
  ∧ ∀ b1,
      UVShellCopyPasteTool.paste_loop source match_topology 1 pre
        {| UVShellCopyPasteTool.scene := sc; UVShellCopyPasteTool.success_count := 0;
           UVShellCopyPasteTool.failed_list := []; UVShellCopyPasteTool.pasted := [] |}
      = Ok b1 →
      polyEditUV_query (UVShellCopyPasteTool.scene b1) uv = None →
      UVShellCopyPasteTool.paste_uv_shell sc (Some source) selection match_topology
      = Raise RuntimeError.
Proof.
  intros Hshells Hin. split.
  - intros -> Hq. unfold UVShellCopyPasteTool.copy_uv_shell. rewrite Hshells. simpl.
    by rewrite (get_uv_shell_data_unreadable sc uv_shell uv Hin Hq).
  - intros b1 Hpre Hq. unfold UVShellCopyPasteTool.paste_uv_shell. rewrite Hshells.
    destruct (pre ++ uv_shell :: post) as [|s0 ss] eqn:Hall.
    { by destruct pre. }
    rewrite <- Hall, paste_loop_app, Hpre, bind_Ok, paste_loop_cons.
    unfold UVShellCopyPasteTool.paste_one at 1.
    rewrite (get_uv_shell_data_unreadable _ uv_shell uv); [by rewrite !bind_Raise| |done].
    apply shell_paste_loop_same in Hpre as (_ & Hs & _). simpl in Hs. by rewrite Hs.
Qed.

(** X11 on the mesh whose point 3 cannot be read: a copy of the shell 2, 3
    raises and leaves the clipboard alone, and a paste onto the shells 0, 1
    and 2, 3 and 6, 7 raises once the first shell is done. *)
Lemma shell_tool_raises_on_unreadable_point_witness :
  UVShellCopyPasteTool.copy_uv_shell Edge.scene Edge.clipboard [UV ("m", 2%Z)]
  = (Edge.clipboard, Raise RuntimeError)
  ∧ UVShellCopyPasteTool.paste_uv_shell Edge.scene (Some Edge.source)
      [UV ("m", 0%Z); UV ("m", 2%Z); UV ("m", 6%Z)] true
    = Raise RuntimeError.
Proof.
  assert (("m", 3%Z) ∈ polySelectBorderShell Edge.scene ("m", 2%Z)) as Hin.
  { change (("m", 3%Z) ∈ [("m", 2%Z); ("m", 3%Z)]). right. left. }
  split.
  - assert (UVShellCopyPasteTool.get_selected_uv_shells Edge.scene [UV ("m", 2%Z)]
            = Some ([] ++ ("m", 2%Z) :: [])) as Hshells by reflexivity.
    destruct (shell_tool_raises_on_unreadable_point Edge.scene Edge.clipboard Edge.source
                [UV ("m", 2%Z)] true [] [] ("m", 2%Z) ("m", 3%Z) Hshells Hin)
      as [Hcopy _].
    apply Hcopy; reflexivity.
  - assert (UVShellCopyPasteTool.get_selected_uv_shells Edge.scene
              [UV ("m", 0%Z); UV ("m", 2%Z); UV ("m", 6%Z)]
            = Some ([("m", 0%Z)] ++ ("m", 2%Z) :: [("m", 6%Z)])) as Hshells by reflexivity.
    destruct (shell_tool_raises_on_unreadable_point Edge.scene Edge.clipboard Edge.source
                [UV ("m", 0%Z); UV ("m", 2%Z); UV ("m", 6%Z)] true
                [("m", 0%Z)] [("m", 6%Z)] ("m", 2%Z) ("m", 3%Z) Hshells Hin)
      as [_ Hpaste].
    destruct (UVShellCopyPasteTool.paste_loop Edge.source true 1 [("m", 0%Z)]
                {| UVShellCopyPasteTool.scene := Edge.scene;
                   UVShellCopyPasteTool.success_count := 0;
                   UVShellCopyPasteTool.failed_list := [];
                   UVShellCopyPasteTool.pasted := [] |}) as [b1|e] eqn:Hpre;
      [|discriminate Hpre].
    apply (Hpaste b1 eq_refl). by injection Hpre as <-.
Defined.

(** X12. A copy that fails on the centre leaves a snapshot no paste can use.
    When no coordinate of the copied shell can be averaged, [copy_uv_shell]
    raises [ZeroDivisionError] after it has stored the shell on the clipboard:
    the clipboard then holds a snapshot without centre and without offsets,
    and a later paste raises [KeyError] on the first target that passes the
    count check and has a coordinate of its own. *)
Theorem failed_copy_leaves_unusable_snapshot
    (sc : Scene) (clipboard clipboard' : option UVShellCopyPasteTool.shell_data)
    (selection : list component) :
  UVShellCopyPasteTool.copy_uv_shell sc clipboard selection
  = (clipboard', Raise ZeroDivisionError) →
  ∃ d,
    clipboard' = Some d
    ∧ UVShellCopyPasteTool.uv_data d = []
    ∧ UVShellCopyPasteTool.center d = None
    ∧ UVShellCopyPasteTool.relative_coords d = None
    ∧ ∀ (match_topology : bool) (idx : nat) (uv_shell : UVComp)
        (b : UVShellCopyPasteTool.batch) (target : UVShellCopyPasteTool.shell_data),
        UVShellCopyPasteTool.get_uv_shell_data (UVShellCopyPasteTool.scene b) uv_shell
        = Ok (Some target) →
        UVShellCopyPasteTool.check_uv_count match_topology
          (UVShellCopyPasteTool.uv_count target) (UVShellCopyPasteTool.uv_count d) = None →
        UVShellCopyPasteTool.uv_data target ≠ [] →
        UVShellCopyPasteTool.paste_one d match_topology idx uv_shell b = Raise KeyError.
Proof.
  unfold UVShellCopyPasteTool.copy_uv_shell.
  destruct (UVShellCopyPasteTool.get_selected_uv_shells sc selection) as [[|uv0 rest]|];
    [done| |done].
  destruct (UVShellCopyPasteTool.get_uv_shell_data sc uv0) as [[d|]|e] eqn:Hget; [| |].
  - destruct (UVShellCopyPasteTool.centroid (UVShellCopyPasteTool.uv_data d))
      as [c|e] eqn:Hcentre; [done|].
    intros [= <- ->]. exists d.
    destruct (get_uv_shell_data_fresh _ _ _ Hget) as (Hc & Hrel & Hsorted).
    assert (UVShellCopyPasteTool.uv_data d = []) as Hdata.
    { destruct (UVShellCopyPasteTool.uv_data d) as [|item items] eqn:Hd; [done|].
      by rewrite centroid_mean in Hcentre. }
    split_and!; [done..|].
    intros match_topology idx uv_shell b target Htarget Hcheck Hne.
    unfold UVShellCopyPasteTool.paste_one.
    rewrite Htarget, bind_Ok, Hcheck, centroid_mean, bind_Ok by done.
    destruct (get_uv_shell_data_fresh _ _ _ Htarget) as (_ & _ & Htsorted).
    destruct (UVShellCopyPasteTool.sorted_ids target) as [|t ts]; [done|].
    destruct (UVShellCopyPasteTool.sorted_ids d) as [|s ss]; [done|].
    simpl. by rewrite Hrel.
  - done.
  - intros [= _ ->]. by apply get_uv_shell_data_Raise in Hget.
Qed.

(** X12 on the mesh whose points 4 and 5 have no coordinates: the copy of
    their shell raises and leaves a snapshot behind, and the paste of that
    snapshot onto the shell 0, 1 raises [KeyError]. *)
Lemma failed_copy_leaves_unusable_snapshot_witness :
  ∃ d,
    UVShellCopyPasteTool.copy_uv_shell Edge.scene None [UV ("m", 4%Z)]
    = (Some d, Raise ZeroDivisionError)
    ∧ UVShellCopyPasteTool.uv_ids d = [4; 5]%Z
    ∧ UVShellCopyPasteTool.paste_uv_shell Edge.scene (Some d) [UV ("m", 0%Z)] true
      = Raise KeyError.
Proof.
  destruct (UVShellCopyPasteTool.copy_uv_shell Edge.scene None [UV ("m", 4%Z)])
    as [clipboard' outcome] eqn:Hcopy.
  assert (outcome = Raise ZeroDivisionError) as -> by (by injection Hcopy as _ <-).
  destruct (failed_copy_leaves_unusable_snapshot Edge.scene None clipboard'
              [UV ("m", 4%Z)] Hcopy) as (d & -> & Hdata & _ & _ & Hpaste).
  assert (UVShellCopyPasteTool.uv_count d = 2%Z ∧ UVShellCopyPasteTool.uv_ids d = [4; 5]%Z)
    as [Hcount Hids] by (by injection Hcopy as <-).
  exists d. split; [reflexivity|]. split; [exact Hids|].
  destruct (UVShellCopyPasteTool.get_uv_shell_data Edge.scene ("m", 0%Z))
    as [[target|]|e] eqn:Hget; [|discriminate Hget..].
  assert (UVShellCopyPasteTool.check_uv_count true
            (UVShellCopyPasteTool.uv_count target) (UVShellCopyPasteTool.uv_count d) = None)
    as Hcheck.
  { rewrite Hcount. by injection Hget as <-. }
  assert (UVShellCopyPasteTool.uv_data target ≠ []) as Hne.
  { injection Hget as <-. discriminate. }
  pose proof (Hpaste true 1 ("m", 0%Z)
                {| UVShellCopyPasteTool.scene := Edge.scene;
                   UVShellCopyPasteTool.success_count := 0;
                   UVShellCopyPasteTool.failed_list := [];
                   UVShellCopyPasteTool.pasted := [] |} target Hget Hcheck Hne) as Hone.
  unfold UVShellCopyPasteTool.paste_uv_shell.
  change (UVShellCopyPasteTool.get_selected_uv_shells Edge.scene [UV ("m", 0%Z)])
    with (Some [("m", 0%Z)]).
  cbv beta iota. rewrite paste_loop_cons, Hone. reflexivity.
Defined.

(** X13. What a whole-mesh paste returns.  [paste_uv_to_mesh] returns [True]
    exactly when at least one selected object passes the checks, judged on
    the scene as it is before the paste; failures of other objects do not
    change that.  The status line reports total failure exactly when no
    object passes, plain success exactly when all do, and both counts
    otherwise; with nothing selected there is no status line. *)
Theorem mesh_paste_return_value
    (sc : Scene) (source : UVTransferTool.mesh_data) (sel : UVTransferTool.selection) :
  let selection :=
    match UVTransferTool.transforms sel with
    | [] => UVTransferTool.meshes sel
    | ts => ts
    end in
  let r := mesh_paste_returns (UVTransferTool.paste_uv_to_mesh sc (Some source) sel) in
  (r.1 = true ↔ ∃ obj, obj ∈ selection ∧ mesh_verdict sc source obj = None)
  ∧ (r.2 = None ↔ selection = [])
  ∧ (r.2 = Some StatusAllFailed
     ↔ selection ≠ [] ∧ ∀ obj, obj ∈ selection → mesh_verdict sc source obj ≠ None)
  ∧ (∀ n, r.2 = Some (StatusPasted n)
          ↔ selection ≠ [] ∧ n = length selection
            ∧ ∀ obj, obj ∈ selection → mesh_verdict sc source obj = None)
  ∧ (∀ n m, r.2 = Some (StatusPartial n m)
            ↔ 0 < n ∧ 0 < m
              ∧ n = length (filter (fun obj => mesh_verdict sc source obj = None) selection)
              ∧ n + m = length selection).
Proof.
  intros selection r. subst r. unfold UVTransferTool.paste_uv_to_mesh. fold selection.
  destruct selection as [|obj rest] eqn:Hsel.
  { simpl. split_and!; try done.
    - split; [done|]. by intros (obj & ?%elem_of_nil & _).
    - split; [done|]. by intros [? _].
    - intros n. split; [done|]. by intros [? _].
    - intros n m. split; [done|]. simpl. lia. }
  rewrite <- Hsel.
  set (b0 := {| UVTransferTool.scene := sc; UVTransferTool.success_count := 0;
                UVTransferTool.failed_list := []; UVTransferTool.pasted := [] |}).
  destruct (mesh_paste_loop_spec sc source selection b0 (same_topology_refl sc))
    as [Hfail Hsucc].
  simpl in Hfail, Hsucc.
  destruct (paste_summary_spec (fun obj => mesh_verdict sc source obj = None) selection
              (UVTransferTool.failed_list
                 (foldl (fun b obj => UVTransferTool.paste_one source obj b) b0 selection))
              (UVTransferTool.success_count
                 (foldl (fun b obj => UVTransferTool.paste_one source obj b) b0 selection)))
    as (Hret & Hnone & Hall & Hpart).
  { exact Hsucc. }
  { rewrite Hfail, Hsucc. apply mesh_failures_length. }
  assert (selection ≠ []) as Hne by (by rewrite Hsel).
  simpl. split_and!.
  - exact Hret.
  - by split.
  - split.
    + intros [= Hs]. split; [done|]. by apply Hnone.
    + intros [_ Hs]. f_equal. by apply Hnone.
  - intros n. split.
    + intros [= Hs]. by apply Hall.
    + intros Hs. f_equal. by apply Hall.
  - intros n m. split.
    + intros [= Hs]. by apply Hpart.
    + intros Hs. f_equal. by apply Hpart.
Qed.

(** X14. What a shell paste returns.  A paste that runs to its end returns
    [True] exactly when at least one target shell is accepted, judged on the
    scene as it is before the paste.  The status line reports total failure
    exactly when no shell is accepted, plain success exactly when all are, and
    both counts otherwise. *)
Theorem shell_paste_return_value
    (sc : Scene) (source : UVShellCopyPasteTool.shell_data) (selection : list component)
    (match_topology : bool) (uv_shells : list UVComp)
    (total : nat) (b : UVShellCopyPasteTool.batch) :
  UVShellCopyPasteTool.get_selected_uv_shells sc selection = Some uv_shells →
  UVShellCopyPasteTool.paste_uv_shell sc (Some source) selection match_topology
  = Ok (UVShellCopyPasteTool.Pasted total b) →
  let r := shell_paste_returns (UVShellCopyPasteTool.Pasted total b) in
  (r.1 = true
   ↔ ∃ uv, uv ∈ uv_shells ∧ shell_verdict sc source match_topology uv = None)
  ∧ (r.2 = Some StatusAllFailed
     ↔ ∀ uv, uv ∈ uv_shells → shell_verdict sc source match_topology uv ≠ None)
  ∧ (∀ n, r.2 = Some (StatusPasted n)
          ↔ n = length uv_shells
            ∧ ∀ uv, uv ∈ uv_shells → shell_verdict sc source match_topology uv = None)
  ∧ (∀ n m, r.2 = Some (StatusPartial n m)
            ↔ 0 < n ∧ 0 < m
              ∧ n = length (filter (fun uv => shell_verdict sc source match_topology uv = None)
                                   uv_shells)
              ∧ n + m = length uv_shells).
Proof.
  intros Hshells. unfold UVShellCopyPasteTool.paste_uv_shell. rewrite Hshells.
  destruct uv_shells as [|uv rest] eqn:Huv; [done|]. rewrite <- Huv in *.
  assert (uv_shells ≠ []) as Hne by (by rewrite Huv).
  destruct (UVShellCopyPasteTool.paste_loop source match_topology 1 uv_shells _)
    as [b1|e] eqn:Hloop; [rewrite bind_Ok|by rewrite bind_Raise].
  intros [= _ <-].
  apply (shell_paste_loop_spec sc) in Hloop as [Hfail Hsucc]; [|apply same_topology_refl].
  simpl in Hfail, Hsucc.
  destruct (paste_summary_spec
              (fun uv => shell_verdict sc source match_topology uv = None) uv_shells
              (UVShellCopyPasteTool.failed_list b1) (UVShellCopyPasteTool.success_count b1))
    as (Hret & Hnone & Hall & Hpart).
  { exact Hsucc. }
  { rewrite Hfail, Hsucc. apply shell_failures_length. }
  simpl. split_and!.
  - exact Hret.
  - split.
    + intros [= Hs]. by apply Hnone.
    + intros Hs. f_equal. by apply Hnone.
  - intros n. split.
    + intros [= Hs]. by apply Hall.
    + intros [Hn Hs]. f_equal. by apply Hall.
  - intros n m. split.
    + intros [= Hs]. by apply Hpart.
    + intros Hs. f_equal. by apply Hpart.
Qed.

(** X14 on the example scene: of the three target shells the second is
    turned down, and the paste returns [True] with both counts in the status
    line. *)
Lemma shell_paste_return_value_witness :
  ∃ b,
    UVShellCopyPasteTool.paste_uv_shell Batch.scene (Some Batch.source)
      Batch.target_selection true
    = Ok (UVShellCopyPasteTool.Pasted 3 b)
    ∧ (shell_paste_returns (UVShellCopyPasteTool.Pasted 3 b)).1 = true
    ∧ (shell_paste_returns (UVShellCopyPasteTool.Pasted 3 b)).2
      = Some (StatusPartial 2 1).
Proof.
  assert (UVShellCopyPasteTool.get_selected_uv_shells Batch.scene Batch.target_selection
          = Some [("m", 2%Z); ("m", 4%Z); ("m", 7%Z)]) as Hshells
    by (vm_compute; reflexivity).
  assert (∃ b, UVShellCopyPasteTool.paste_uv_shell Batch.scene (Some Batch.source)
                 Batch.target_selection true
               = Ok (UVShellCopyPasteTool.Pasted 3 b)) as [b Hrun]
    by (eexists; vm_compute; reflexivity).
  destruct (shell_paste_return_value Batch.scene Batch.source Batch.target_selection true
              _ 3 b Hshells Hrun) as (Hret & _ & _ & Hpartial).
  exists b. split; [exact Hrun|]. split.
  - apply Hret. exists ("m", 2%Z). split; [by left|vm_compute; reflexivity].
  - apply Hpartial. split; [lia|]. split; [lia|]. split; vm_compute; reflexivity.
Defined.

(** X15. A snap moves selected source points only, and only onto points of
    the target shell.  After a completed call every UV point has either the
    coordinate it had before, or, if it is a selected point other than the
    target that lies off the target shell, exactly the coordinate that some
    point of the target shell had when the call began. *)
Theorem snap_moves_sources_onto_target_points (float_pow2 : float → result float)
    (sc sc' : Scene) (selected_uvs : list UVComp) (target_uv : UVComp) (thr : float)
    (log : list Maya_UV_Snap.event) (uv : UVComp) :
  Maya_UV_Snap.snap_uv_to_nearest float_pow2 sc selected_uvs
    (Maya_UV_Snap.SelectToggle (Some target_uv)) thr
  = Ok (Maya_UV_Snap.Done sc' log) →
  polyEditUV_query sc' uv = polyEditUV_query sc uv
  ∨ (uv ∈ selected_uvs ∧ uv ≠ target_uv ∧ (uv ∉ polySelectBorderShell sc target_uv)
     ∧ ∃ t, t ∈ polySelectBorderShell sc target_uv
            ∧ polyEditUV_query sc' uv = polyEditUV_query sc t).
Proof.
  unfold Maya_UV_Snap.snap_uv_to_nearest.
  destruct selected_uvs as [|x [|y rest]]; [done..|].
  set (selected_uvs := x :: y :: rest).
  destruct (filter (fun uv => uv ≠ target_uv) selected_uvs) as [|first_source more] eqn:Hsrc;
    [done|].
  destruct (polySelectBorderShell sc target_uv) as [|t0 ts] eqn:Ht; [done|].
  destruct (decide (_ = ∅)) as [Hempty|]; [|done].
  destruct (Maya_UV_Snap.collect_points sc (t0 :: ts)) as [pts|e] eqn:Hpts;
    [rewrite bind_Ok|by rewrite bind_Raise].
  destruct (Maya_UV_Snap.snap_loop float_pow2 (t0 :: ts) pts thr (first_source :: more) (sc, []))
    as [[sc1 log1]|e] eqn:Hloop; [rewrite bind_Ok|by rewrite bind_Raise].
  intros [= <- <-].
  destruct (snap_loop_moves _ _ _ _ _ _ _ _ _ Hloop uv) as [Hsame|(Hin & Hout & p & Hp & Hq)];
    [by left|right].
  rewrite <- Hsrc in Hin. apply list_elem_of_filter in Hin as [Hne Hin].
  split_and!; [done..|].
  destruct (collect_points_spec _ _ _ Hpts p Hp) as (t & Hmem & Hcoord).
  exists t. split; [done|]. by rewrite Hq, Hcoord.
Qed.

(** X15 on the example scene: the source point [a] ends on the coordinate of
    the target point [b], and the target point [t] stays where it is. *)
Lemma snap_moves_sources_onto_target_points_witness :
  ∃ sc' log,
    Maya_UV_Snap.snap_uv_to_nearest Platform.float_pow2 Snap.scene [Snap.a; Snap.t]
      (Maya_UV_Snap.SelectToggle (Some Snap.t)) 0.01%float
    = Ok (Maya_UV_Snap.Done sc' log)
    ∧ polyEditUV_query sc' Snap.a = polyEditUV_query Snap.scene Snap.b
    ∧ polyEditUV_query sc' Snap.t = polyEditUV_query Snap.scene Snap.t.
Proof.
  destruct (Maya_UV_Snap.snap_uv_to_nearest Platform.float_pow2 Snap.scene [Snap.a; Snap.t]
              (Maya_UV_Snap.SelectToggle (Some Snap.t)) 0.01%float)
    as [[w|sc' log]|e] eqn:Hrun; [discriminate Hrun| |discriminate Hrun].
  exists sc', log. split; [reflexivity|].
  assert (polyEditUV_query sc' Snap.a = Some [0.005; 0]%float) as Ha
    by (by injection Hrun as <- _).
  split; [by rewrite Ha|].
  destruct (snap_moves_sources_onto_target_points Platform.float_pow2 Snap.scene sc' [Snap.a; Snap.t] Snap.t
              0.01%float log Snap.t Hrun) as [Hsame|(_ & Hne & _)]; [exact Hsame|done].
Defined.

(** X16. Among equally near target points a snap takes the one the host
    lists first.  When [snap_uv_to_nearest] snaps a source point, the point
    [p] it reports is within the threshold, every target point listed before
    [p] is strictly farther from the source point (or at no comparable
    distance), and no target point listed after [p] is strictly closer.  The
    distances are the ones the code computes, with the platform's [**]. *)
Theorem snap_prefers_first_listed_nearest (float_pow2 : float → result float)
    (sc sc' : Scene) (target_uvs : list UVComp) (target_points : list (float * float))
    (thr : float) (uv uv' : UVComp) (log : list Maya_UV_Snap.event)
    (u v : float) (p : float * float) (d : float) :
  Maya_UV_Snap.query_pair sc uv = Ok (u, v) →
  Maya_UV_Snap.snap_one float_pow2 target_uvs target_points thr uv (sc, log)
  = Ok (sc', log ++ [Maya_UV_Snap.Snapped uv' p d]) →
  uv' = uv
  ∧ Maya_UV_Snap.distance float_pow2 u v p.1 p.2 = Ok d
  ∧ PrimFloat.leb d thr = true
  ∧ polyEditUV_query sc' uv = Some [p.1; p.2]
  ∧ ∃ before after,
      target_points = before ++ p :: after
      ∧ (∀ q, q ∈ before →
              ∃ dq, Maya_UV_Snap.distance float_pow2 u v q.1 q.2 = Ok dq
                    ∧ PrimFloat.leb dq d = false)
      ∧ (∀ q, q ∈ after →
              ∃ dq, Maya_UV_Snap.distance float_pow2 u v q.1 q.2 = Ok dq
                    ∧ PrimFloat.ltb dq d = false).
Proof.
  intros Hq. unfold Maya_UV_Snap.snap_one.
  assert (∀ ev, log ≠ log ++ [ev]) as Hlog.
  { intros ev Heq. apply (f_equal length) in Heq. rewrite length_app in Heq. simpl in Heq. lia. }
  destruct (decide (uv ∈ target_uvs)) as [|Hout]; [intros [= _ Heq]; by apply Hlog in Heq|].
  rewrite Hq, bind_Ok.
  destruct (Maya_UV_Snap.scan float_pow2 u v target_points infinity None)
    as [[min_dist nearest]|e] eqn:Hscan; [rewrite bind_Ok|by rewrite bind_Raise].
  destruct (scan_first float_pow2 u v target_points _ _ _ _ Hscan)
    as [[_ ->]|(before & p0 & after & Hsplit & -> & Hdist & _ & Hbefore & Hafter)].
  { intros [= _ Heq]. by apply Hlog in Heq. }
  destruct (PrimFloat.leb min_dist thr) eqn:Hle.
  - destruct (polyEditUV_set sc uv p0.1 p0.2) as [sc1|] eqn:Hset; [|done].
    intros [= <- Heq]. apply app_inv_head in Heq. injection Heq as <- <- <-.
    apply polyEditUV_set_query in Hset as (Hself & _).
    split_and!; try done. by exists before, after.
  - intros [= _ Heq]. apply app_inv_head in Heq. done.
Qed.

(** X16 on a source point with two target points at the same distance: the
    call snaps it to [east], which the host lists before [north]. *)
Lemma snap_prefers_first_listed_nearest_witness :
  ∃ sc' d,
    Maya_UV_Snap.snap_uv_to_nearest Platform.float_pow2 Tie.scene [Tie.a; Tie.far]
      (Maya_UV_Snap.SelectToggle (Some Tie.far)) 0.01%float
    = Ok (Maya_UV_Snap.Done sc' [Maya_UV_Snap.Snapped Tie.a (0.005, 0)%float d])
    ∧ Maya_UV_Snap.distance Platform.float_pow2 0 0 0.005 0 = Ok d
    ∧ Maya_UV_Snap.distance Platform.float_pow2 0 0 0 0.005 = Ok d
    ∧ polyEditUV_query sc' Tie.a = Some [0.005; 0]%float.
Proof.
  assert (∃ sc',
            Maya_UV_Snap.snap_one Platform.float_pow2 [Tie.far; Tie.east; Tie.north]
              [(0.5, 0.5); (0.005, 0); (0, 0.005)]%float 0.01%float Tie.a (Tie.scene, [])
            = Ok (sc', [] ++ [Maya_UV_Snap.Snapped Tie.a (0.005, 0)%float 0.005%float]))
    as [sc' Hone] by (eexists; vm_compute; reflexivity).
  destruct (snap_prefers_first_listed_nearest Platform.float_pow2 Tie.scene sc' _ _ _
              Tie.a Tie.a [] 0%float 0%float _ _ eq_refl Hone)
    as (_ & Hd & _ & Hmoved & _).
  exists sc', 0.005%float. split; [|split; [exact Hd|split; [reflexivity|exact Hmoved]]].
  unfold Maya_UV_Snap.snap_uv_to_nearest.
  change (filter (fun uv => uv ≠ Tie.far) [Tie.a; Tie.far]) with [Tie.a].
  change (polySelectBorderShell Tie.scene Tie.far) with [Tie.far; Tie.east; Tie.north].
  change (polySelectBorderShell Tie.scene Tie.a) with [Tie.a].
  cbv beta iota.
  destruct (decide _) as [_|Hcommon].
  - change (Maya_UV_Snap.collect_points Tie.scene [Tie.far; Tie.east; Tie.north])
      with (Ok [(0.5, 0.5); (0.005, 0); (0, 0.005)]%float).
    rewrite bind_Ok. rewrite snap_loop_cons, Hone, bind_Ok. reflexivity.
  - exfalso. apply Hcommon. vm_compute. reflexivity.
Defined.

(** X17. The name both tools print for an object is the part of its path
    after the last ['|']: a name without ['|'] is its own short name, and so
    is it the short name of every path that ends in ['|'] and that name.  Two
    objects with the same name under different parents thus get the same
    entry name in [failed_list]. *)
Theorem short_name_is_last_segment (prefix name : string) :
  "|"%char ∉ list_ascii_of_string name →
  short_name name = name
  ∧ short_name (prefix +:+ String "|" name) = name.
Proof.
  intros Hbar. unfold short_name.
  rewrite last_segment_from_bar, (last_segment_from_plain name Hbar). done.
Qed.

(** X17 on two paths that end in the same name. *)
Lemma short_name_is_last_segment_witness :
  short_name "|group1|pCube1" = "pCube1"
  ∧ short_name "|group2|left|pCube1" = "pCube1"
  ∧ short_name "pCube1" = "pCube1".
Proof.
  assert ("|"%char ∉ list_ascii_of_string "pCube1") as Hbar.
  { simpl. intros Hin.
    repeat (apply elem_of_cons in Hin as [Heq|Hin]; [discriminate Heq|]).
    by apply elem_of_nil in Hin. }
  destruct (short_name_is_last_segment "|group1" "pCube1" Hbar) as [Hself Hone].
  destruct (short_name_is_last_segment "|group2|left" "pCube1" Hbar) as [_ Htwo].
  split; [exact Hone|]. split; [exact Htwo|exact Hself].
Defined.

(** X18. Pasting a snapshot a second time changes nothing.  After a
    whole-mesh paste, the same paste on the scene it left accepts and turns
    down the same objects, with the same [failed_list], and leaves every UV
    coordinate as the first paste left it. *)
Theorem mesh_paste_twice_is_paste_once
    (sc : Scene) (source : UVTransferTool.mesh_data) (sel : UVTransferTool.selection)
    (total : nat) (b1 : UVTransferTool.batch) :
  UVTransferTool.paste_uv_to_mesh sc (Some source) sel = UVTransferTool.Pasted total b1 →
  ∃ b2,
    UVTransferTool.paste_uv_to_mesh (UVTransferTool.scene b1) (Some source) sel
    = UVTransferTool.Pasted total b2
    ∧ UVTransferTool.success_count b2 = UVTransferTool.success_count b1
    ∧ UVTransferTool.failed_list b2 = UVTransferTool.failed_list b1
    ∧ ∀ uv, polyEditUV_query (UVTransferTool.scene b2) uv
            = polyEditUV_query (UVTransferTool.scene b1) uv.
Proof.
  unfold UVTransferTool.paste_uv_to_mesh.
  set (selection := match UVTransferTool.transforms sel with
                    | [] => UVTransferTool.meshes sel
                    | ts => ts
                    end).
  destruct selection as [|obj rest] eqn:Hsel; [done|]. rewrite <- Hsel.
  set (b0 := {| UVTransferTool.scene := sc; UVTransferTool.success_count := 0;
                UVTransferTool.failed_list := []; UVTransferTool.pasted := [] |}).
  intros [= <- <-].
  set (b1 := foldl (fun b obj => UVTransferTool.paste_one source obj b) b0 selection).
  set (b0' := {| UVTransferTool.scene := UVTransferTool.scene b1;
                 UVTransferTool.success_count := 0;
                 UVTransferTool.failed_list := []; UVTransferTool.pasted := [] |}).
  assert (same_topology sc (UVTransferTool.scene b1)) as Hsame
    by apply (mesh_paste_loop_same source selection b0).
  eexists. split; [reflexivity|].
  destruct (mesh_paste_loop_spec sc source selection b0 (same_topology_refl sc))
    as [Hfail1 Hsucc1].
  destruct (mesh_paste_loop_spec sc source selection b0' Hsame) as [Hfail2 Hsucc2].
  fold b1 in Hfail1, Hsucc1. simpl in Hfail1, Hsucc1, Hfail2, Hsucc2.
  split; [by rewrite Hsucc2|]. split; [by rewrite Hfail2|].
  intros uv.
  rewrite (mesh_paste_loop_noop sc source selection b0' Hsame); [done|].
  intros obj' tm w Hin Hv Hmesh Hw Hfree.
  by apply (mesh_paste_loop_settles sc source selection b0 (same_topology_refl sc) obj' tm).
Qed.

(** X18 on the example scene: the second paste onto the three objects again
    accepts two of them and leaves the point 3 of the first target where the
    first paste put it. *)
Lemma mesh_paste_twice_is_paste_once_witness :
  ∃ b1 b2,
    UVTransferTool.paste_uv_to_mesh Meshes.scene (Some Meshes.source) Meshes.targets
    = UVTransferTool.Pasted 3 b1
    ∧ UVTransferTool.paste_uv_to_mesh (UVTransferTool.scene b1) (Some Meshes.source)
        Meshes.targets
      = UVTransferTool.Pasted 3 b2
    ∧ UVTransferTool.success_count b2 = 2
    ∧ polyEditUV_query (UVTransferTool.scene b2) ("|t1|t1Shape", 3%Z)
      = Some [0.125; 0.25]%float.
Proof.
  assert (∃ b1,
            UVTransferTool.paste_uv_to_mesh Meshes.scene (Some Meshes.source) Meshes.targets
            = UVTransferTool.Pasted 3 b1
            ∧ UVTransferTool.success_count b1 = 2
            ∧ polyEditUV_query (UVTransferTool.scene b1) ("|t1|t1Shape", 3%Z)
              = Some [0.125; 0.25]%float) as (b1 & Hrun & Hcount & Hpoint)
    by (eexists; split_and!; vm_compute; reflexivity).
  destruct (mesh_paste_twice_is_paste_once Meshes.scene Meshes.source Meshes.targets 3 b1 Hrun)
    as (b2 & Hagain & Hsucc & _ & Hsame).
  exists b1, b2. split; [exact Hrun|]. split; [exact Hagain|].
  split; [by rewrite Hsucc|by rewrite Hsame].
Defined.

(** X19. A source point without a coordinate is skipped, not dropped from the
    pairing.  A copied shell keeps in its order the points whose coordinate
    read came back short, but has no offset for them; when a paste reaches
    such a point, the target point paired with it keeps its coordinate, and
    the points after it are paired as if it had been written. *)
Theorem shell_paste_skips_source_without_coordinate
    (sc0 : Scene) (clipboard0 : option UVShellCopyPasteTool.shell_data)
    (selection0 : list component) (source : UVShellCopyPasteTool.shell_data)
    (match_topology : bool) (idx : nat) (uv_shell : UVComp)
    (b b' : UVShellCopyPasteTool.batch) (target : UVShellCopyPasteTool.shell_data)
    (i : nat) (source_uv_id target_uv_id : Z) :
  UVShellCopyPasteTool.copy_uv_shell sc0 clipboard0 selection0
  = (Some source, Ok UVShellCopyPasteTool.Copied) →
  UVShellCopyPasteTool.get_uv_shell_data (UVShellCopyPasteTool.scene b) uv_shell
  = Ok (Some target) →
  UVShellCopyPasteTool.paste_one source match_topology idx uv_shell b = Ok b' →
  NoDup (UVShellCopyPasteTool.sorted_ids target) →
  UVShellCopyPasteTool.sorted_ids source !! i = Some source_uv_id →
  UVShellCopyPasteTool.sorted_ids target !! i = Some target_uv_id →
  od_get source_uv_id (UVShellCopyPasteTool.uv_data source) = None →
  polyEditUV_query (UVShellCopyPasteTool.scene b')
    (UVShellCopyPasteTool.object target, target_uv_id)
  = polyEditUV_query (UVShellCopyPasteTool.scene b)
      (UVShellCopyPasteTool.object target, target_uv_id).
Proof.
  intros Hcopy Hget Hone Hnd Hs Ht Hnone. revert Hone.
  apply copy_uv_shell_Copied in Hcopy as (_ & _ & Hrel & Hkeys & _ & _).
  unfold UVShellCopyPasteTool.paste_one. rewrite Hget, bind_Ok.
  destruct (UVShellCopyPasteTool.check_uv_count _ _ _) as [why|].
  { by intros [= <-]. }
  destruct (UVShellCopyPasteTool.centroid _) as [c|e]; [rewrite bind_Ok|by rewrite bind_Raise].
  rewrite (shell_apply_coords_writes source _ _ _ Hrel), bind_Ok.
  intros [= <-]. simpl.
  apply write_all_frame. unfold shell_writes.
  eapply paired_writes_skipped; [done..|].
  by rewrite relative_to_lookup, Hnone.
Qed.

(** X19 on the shell 8, 9 whose point 9 has no coordinate: pasted onto the
    shell 0, 1, it moves the point 0 to the centre of that shell and leaves
    the point 1 at (1, 1). *)
Lemma shell_paste_skips_source_without_coordinate_witness :
  ∃ b',
    UVShellCopyPasteTool.paste_one Edge.partial true 1 ("m", 0%Z) (Batch.start Edge.scene)
    = Ok b'
    ∧ UVShellCopyPasteTool.sorted_ids Edge.partial = [8; 9]%Z
    ∧ polyEditUV_query (UVShellCopyPasteTool.scene b') ("m", 0%Z) = Some [0.5; 0.5]%float
    ∧ polyEditUV_query (UVShellCopyPasteTool.scene b') ("m", 1%Z) = Some [1; 1]%float.
Proof.
  assert (UVShellCopyPasteTool.copy_uv_shell Edge.scene None [UV ("m", 8%Z)]
          = (Some Edge.partial, Ok UVShellCopyPasteTool.Copied)) as Hcopy by reflexivity.
  destruct (UVShellCopyPasteTool.get_uv_shell_data Edge.scene ("m", 0%Z))
    as [[target|]|e] eqn:Hget; [|discriminate Hget..].
  destruct (UVShellCopyPasteTool.paste_one Edge.partial true 1 ("m", 0%Z)
              (Batch.start Edge.scene)) as [b'|e] eqn:Hone; [|discriminate Hone].
  assert (UVShellCopyPasteTool.sorted_ids target = [0; 1]%Z) as Hsorted
    by (by injection Hget as <-).
  assert (UVShellCopyPasteTool.object target = "m") as Hobj by (by injection Hget as <-).
  assert (NoDup (UVShellCopyPasteTool.sorted_ids target)) as Hnd.
  { rewrite Hsorted. apply (bool_decide_unpack (NoDup _)). vm_compute. exact I. }
  assert (UVShellCopyPasteTool.sorted_ids target !! 1 = Some 1%Z) as Ht
    by (by rewrite Hsorted).
  pose proof (shell_paste_skips_source_without_coordinate Edge.scene None [UV ("m", 8%Z)]
                Edge.partial true 1 ("m", 0%Z) (Batch.start Edge.scene) b' target
                1 9%Z 1%Z Hcopy Hget Hone Hnd eq_refl Ht eq_refl) as Hkeep.
  rewrite Hobj in Hkeep.
  exists b'. split; [reflexivity|]. split; [reflexivity|]. split.
  - by injection Hone as <-.
  - rewrite Hkeep. reflexivity.
Defined.

(** X20. The snap guards neither its reads nor its writes nor its
    arithmetic.  When the loop gets to a source point off the target shell
    whose coordinate query raises, or for which the distance to a target
    point cannot be computed, or which has a target point within the
    threshold while the host refuses to move it, the call raises instead of
    going on to the next point. *)
Theorem snap_raises_where_the_host_does (float_pow2 : float → result float)
    (target_uvs : list UVComp) (target_points : list (float * float)) (thr : float)
    (pre post : list UVComp) (uv : UVComp) (sc sc1 : Scene)
    (log log1 : list Maya_UV_Snap.event) :
  Maya_UV_Snap.snap_loop float_pow2 target_uvs target_points thr pre (sc, log)
  = Ok (sc1, log1) →
  uv ∉ target_uvs →
  (polyEditUV_query sc1 uv = None →
   Maya_UV_Snap.snap_loop float_pow2 target_uvs target_points thr (pre ++ uv :: post) (sc, log)
   = Raise RuntimeError)
  ∧ (∀ (u v : float) (before after : list (float * float)) (q : float * float) (e : exn),
       Maya_UV_Snap.query_pair sc1 uv = Ok (u, v) →
       target_points = before ++ q :: after →
       (∀ q', q' ∈ before →
              ∃ d, Maya_UV_Snap.distance float_pow2 u v q'.1 q'.2 = Ok d) →
       Maya_UV_Snap.distance float_pow2 u v q.1 q.2 = Raise e →
       Maya_UV_Snap.snap_loop float_pow2 target_uvs target_points thr (pre ++ uv :: post)
         (sc, log)
       = Raise e)
  ∧ ∀ (u v : float) (d : float * float → float) (q : float * float),
      Maya_UV_Snap.query_pair sc1 uv = Ok (u, v) →
      (∀ q', q' ∈ target_points →
             Maya_UV_Snap.distance float_pow2 u v q'.1 q'.2 = Ok (d q')) →
      q ∈ target_points →
      PrimFloat.ltb (d q) PrimFloat.infinity = true →
      PrimFloat.leb (d q) thr = true →
      polyEditUV_locked sc uv = true →
      Maya_UV_Snap.snap_loop float_pow2 target_uvs target_points thr (pre ++ uv :: post)
        (sc, log)
      = Raise RuntimeError.
Proof.
  intros Hpre Hout.
  assert (Maya_UV_Snap.snap_loop float_pow2 target_uvs target_points thr (pre ++ uv :: post)
            (sc, log)
          = Maya_UV_Snap.snap_one float_pow2 target_uvs target_points thr uv (sc1, log1)
            ≫= Maya_UV_Snap.snap_loop float_pow2 target_uvs target_points thr post) as ->.
  { by rewrite snap_loop_app, Hpre, bind_Ok, snap_loop_cons. }
  unfold Maya_UV_Snap.snap_one. rewrite decide_False by done. split_and!.
  - intros Hq. unfold Maya_UV_Snap.query_pair. by rewrite Hq, !bind_Raise.
  - intros u v before after q e Hq -> Hbefore Hraise. rewrite Hq, bind_Ok.
    by rewrite (scan_raises float_pow2 u v before after q e Hbefore Hraise), !bind_Raise.
  - intros u v d q Hq Hd Hin Hfinite Hnear Hlocked. rewrite Hq, bind_Ok.
    destruct (scan_spec float_pow2 u v target_points d Hd PrimFloat.infinity None)
      as (min_dist & nearest & -> & Hscan).
    rewrite bind_Ok.
    destruct Hscan as [(_ & _ & Hall)|(p & Hp & -> & -> & Hlt & Hmin)].
    { by rewrite (Hall q Hin) in Hfinite. }
    assert (PrimFloat.leb (d p) thr = true) as ->.
    { eapply float_leb_trans; [|exact Hnear].
      eapply float_ltb_false_leb; [exact Hfinite|exact Hlt|by apply Hmin]. }
    apply snap_loop_locked in Hpre.
    unfold polyEditUV_set. by rewrite Hpre, Hlocked, bind_Raise.
Qed.

(** X20 on the snap example with the source point [a] locked, the source
    point [c] unreadable and the source point [e] so far out that the square
    of its distance is out of range: the call raises for each. *)
Lemma snap_raises_where_the_host_does_witness :
  Maya_UV_Snap.snap_uv_to_nearest Platform.float_pow2 Refusing.scene [Snap.a; Snap.t]
    (Maya_UV_Snap.SelectToggle (Some Snap.t)) 0.01%float
  = Raise RuntimeError
  ∧ Maya_UV_Snap.snap_uv_to_nearest Platform.float_pow2 Refusing.scene [Refusing.c; Snap.t]
      (Maya_UV_Snap.SelectToggle (Some Snap.t)) 0.01%float
    = Raise RuntimeError
  ∧ Maya_UV_Snap.snap_uv_to_nearest Platform.float_pow2 Refusing.scene [Refusing.e; Snap.t]
      (Maya_UV_Snap.SelectToggle (Some Snap.t)) 0.01%float
    = Raise OverflowError.
Proof.
  assert (∀ uv, uv = Snap.a ∨ uv = Refusing.c ∨ uv = Refusing.e → uv ∉ [Snap.b; Snap.t])
    as Hout.
  { intros uv Huv Hin.
    repeat (apply elem_of_cons in Hin as [Heq|Hin];
            [destruct Huv as [->|[->| ->]]; discriminate Heq|]).
    by apply elem_of_nil in Hin. }
  assert (∀ uv err,
            Maya_UV_Snap.snap_loop Platform.float_pow2 [Snap.b; Snap.t]
              [(0.005, 0); (0.5, 0.5)]%float 0.01%float
              ([] ++ uv :: []) (Refusing.scene, [])
            = Raise err →
            uv = Snap.a ∨ uv = Refusing.c ∨ uv = Refusing.e →
            Maya_UV_Snap.snap_uv_to_nearest Platform.float_pow2 Refusing.scene [uv; Snap.t]
              (Maya_UV_Snap.SelectToggle (Some Snap.t)) 0.01%float
            = Raise err) as Htop.
  { intros uv err Hloop Huv. unfold Maya_UV_Snap.snap_uv_to_nearest.
    assert (filter (fun x => x ≠ Snap.t) [uv; Snap.t] = [uv]) as ->
      by (destruct Huv as [->|[->| ->]]; reflexivity).
    change (polySelectBorderShell Refusing.scene Snap.t) with [Snap.b; Snap.t].
    assert (polySelectBorderShell Refusing.scene uv = [uv]) as ->
      by (destruct Huv as [->|[->| ->]]; reflexivity).
    cbv beta iota.
    destruct (decide _) as [_|Hcommon].
    - change (Maya_UV_Snap.collect_points Refusing.scene [Snap.b; Snap.t])
        with (Ok [(0.005, 0); (0.5, 0.5)]%float).
      rewrite bind_Ok. simpl app in Hloop. by rewrite Hloop.
    - exfalso. apply Hcommon. destruct Huv as [->|[->| ->]]; vm_compute; reflexivity. }
  split_and!.
  - apply Htop; [|by left].
    destruct (snap_raises_where_the_host_does Platform.float_pow2 [Snap.b; Snap.t]
                [(0.005, 0); (0.5, 0.5)]%float 0.01%float [] [] Snap.a
                Refusing.scene Refusing.scene [] [] eq_refl (Hout _ (or_introl eq_refl)))
      as (_ & _ & Hlocked).
    apply (Hlocked 0%float 0%float
             (fun q => if PrimFloat.eqb q.1 0.005 then 0.005%float
                       else 0.7071067811865476%float)
             (0.005, 0)%float); [reflexivity| |by left|reflexivity..].
    intros q' Hin.
    repeat (apply elem_of_cons in Hin as [->|Hin]; [vm_compute; reflexivity|]).
    by apply elem_of_nil in Hin.
  - apply Htop; [|right; by left].
    destruct (snap_raises_where_the_host_does Platform.float_pow2 [Snap.b; Snap.t]
                [(0.005, 0); (0.5, 0.5)]%float 0.01%float [] [] Refusing.c
                Refusing.scene Refusing.scene [] [] eq_refl
                (Hout _ (or_intror (or_introl eq_refl))))
      as (Hunreadable & _).
    apply Hunreadable. reflexivity.
  - apply Htop; [|right; by right].
    destruct (snap_raises_where_the_host_does Platform.float_pow2 [Snap.b; Snap.t]
                [(0.005, 0); (0.5, 0.5)]%float 0.01%float [] [] Refusing.e
                Refusing.scene Refusing.scene [] [] eq_refl
                (Hout _ (or_intror (or_intror eq_refl))))
      as (_ & Hoverflow & _).
    apply (Hoverflow 1e200%float 0%float [] [(0.5, 0.5)%float] (0.005, 0)%float);
      [reflexivity|reflexivity|by intros ? ?%elem_of_nil|vm_compute; reflexivity].
Defined.
